(** * House-design tool: calculation functions and design-state handlers

    A shallow embedding of the calculation functions and of the
    design-state handlers of the interactive house-design editor, with
    the properties its specification states about them.

    Numbers.  Every quantity of the editor is a JavaScript [number], a
    binary64 floating-point value.  The geometry of the editor lives on
    the 0.5 m grid of the drawing surface, where sums and products are
    computed without rounding; it is modelled with exact rationals ([Q])
    and exact arithmetic.  [Math.sqrt] only occurs in comparisons of a
    distance with a positive constant, which are modelled on the squared
    distance.  The one function that needs a cosine,
    [roofAreaFromBounds], is modelled over the real numbers.  The cost
    estimator takes ceilings of sums of products of arbitrary lengths,
    which rounding does change: it is modelled twice, in binary64
    ([EstimatorDouble]) for what it returns, and over the rationals
    ([Estimator]) for the inequalities and the sums that hold of both.

    Identifiers.  [generateId()] draws a random string; the handlers
    below take the drawn identifier as an extra argument. *)

From Stdlib Require Import QArith Qround Qabs Qminmax ZArith List Bool.
From Stdlib Require Import String Lia ListSet PeanoNat Permutation.
From Stdlib Require Reals Lra Qreals Floats.
Import ListNotations.

Local Open Scope Q_scope.

(** ** JavaScript numbers and [Math] *)

Abbreviation number := Q (only parsing).

(** [Math.round]: nearest integer, ties towards plus infinity. *)
Definition Math_round (x : number) : number := inject_Z (Qfloor (x + (1 # 2))).

Definition Math_ceil (x : number) : number := inject_Z (Qceiling x).

Definition Math_abs (x : number) : number := Qabs x.

Definition Math_max (a b : number) : number := Qmax a b.

Definition Math_min (a b : number) : number := Qmin a b.

(** [a <= b] and [a < b] as the tests of the code. *)
Definition leb (a b : number) : bool := Qle_bool a b.

Definition ltb (a b : number) : bool := negb (Qle_bool b a).

(** [numbers.reduce((s, v) => s + v, 0)], the sum the specification
    writes with a sigma. *)
Definition sumQ (l : list number) : number := fold_right Qplus 0 l.

(** ** The cost estimator *)

Module Estimator.

Record Wall := mkWall { length : number; height : number }.

Record Rates := mkRates {
  hollowblock_per_piece : number;
  hollowblock_size_sqm : number;
  cement_bag_per_sqm : number;
  cement_price_per_bag : number;
  rebar_price_per_kg : number;
  labor_per_sqm : number;
  roof_price_per_sqm : number
}.

Definition rates : Rates :=
  {| hollowblock_per_piece := 15;
     hollowblock_size_sqm := 8 # 100;
     cement_bag_per_sqm := 45 # 100;
     cement_price_per_bag := 270;
     rebar_price_per_kg := 75;
     labor_per_sqm := 380;
     roof_price_per_sqm := 150 |}.

Record Results := mkResults {
  totalWallArea : number;
  hollowblock_count : number;
  cement_bags : number;
  rebar_cost : number;
  material_cost : number;
  labor_cost : number;
  total_cost : number
}.

Definition wallArea (length height : number) : number := length * height.

(** The assignments [results.f = v] and [results.f += v] of the code. *)
Definition set_totalWallArea (r : Results) (v : number) : Results :=
  mkResults v (hollowblock_count r) (cement_bags r) (rebar_cost r)
            (material_cost r) (labor_cost r) (total_cost r).

Definition set_hollowblock_count (r : Results) (v : number) : Results :=
  mkResults (totalWallArea r) v (cement_bags r) (rebar_cost r)
            (material_cost r) (labor_cost r) (total_cost r).

Definition set_cement_bags (r : Results) (v : number) : Results :=
  mkResults (totalWallArea r) (hollowblock_count r) v (rebar_cost r)
            (material_cost r) (labor_cost r) (total_cost r).

Definition set_rebar_cost (r : Results) (v : number) : Results :=
  mkResults (totalWallArea r) (hollowblock_count r) (cement_bags r) v
            (material_cost r) (labor_cost r) (total_cost r).

Definition set_material_cost (r : Results) (v : number) : Results :=
  mkResults (totalWallArea r) (hollowblock_count r) (cement_bags r)
            (rebar_cost r) v (labor_cost r) (total_cost r).

Definition set_labor_cost (r : Results) (v : number) : Results :=
  mkResults (totalWallArea r) (hollowblock_count r) (cement_bags r)
            (rebar_cost r) (material_cost r) v (total_cost r).

Definition set_total_cost (r : Results) (v : number) : Results :=
  mkResults (totalWallArea r) (hollowblock_count r) (cement_bags r)
            (rebar_cost r) (material_cost r) (labor_cost r) v.

Definition estimateMaterials (walls : list Wall) (roofArea : number)
  (config : Rates) : Results :=
  let results := mkResults 0 0 0 0 0 0 0 in
  (* for (const w of walls) results.totalWallArea += wallArea(...) *)
  let results :=
    fold_left
      (fun r w =>
         let area := wallArea (length w) (height w) in
         set_totalWallArea r (totalWallArea r + area))
      walls results in
  let results :=
    set_hollowblock_count results
      (Math_ceil (totalWallArea results / hollowblock_size_sqm config)) in
  let results :=
    set_material_cost results
      (material_cost results
       + hollowblock_count results * hollowblock_per_piece config) in
  let results :=
    set_cement_bags results
      (Math_ceil (totalWallArea results * cement_bag_per_sqm config)) in
  let results :=
    set_material_cost results
      (material_cost results
       + cement_bags results * cement_price_per_bag config) in
  let totalPerimeter := fold_left (fun s w => s + length w) walls 0 in
  let assumedRebarKg := totalPerimeter * 2 in
  let results :=
    set_rebar_cost results (assumedRebarKg * rebar_price_per_kg config) in
  let results :=
    set_material_cost results (material_cost results + rebar_cost results) in
  let results :=
    set_labor_cost results (totalWallArea results * labor_per_sqm config) in
  let roof_material_est := roofArea * roof_price_per_sqm config in
  let results :=
    set_material_cost results (material_cost results + roof_material_est) in
  set_total_cost results
    (Math_round (material_cost results + labor_cost results)).

End Estimator.

(** ** The cost estimator in binary64 *)

Module EstimatorDouble.
Import Floats.
Local Open Scope float_scope.
Local Set Warnings "-inexact-float".

(** The float of an integer; exact up to 2^53. *)
Definition ofZ (k : Z) : float :=
  if (k <? 0)%Z then - of_uint63 (Uint63.of_Z (- k))
  else of_uint63 (Uint63.of_Z k).

(** [Math.ceil]: the least integer not below the value, as a float;
    zeros, infinities and NaN are returned as they are, and a value in
    (-1, 0) gives -0.  A finite float is [m * 2^e] up to its sign, and an
    integer when [e] is not negative. *)
Definition Math_ceil (v : float) : float :=
  match Prim2SF v with
  | S754_finite s m e =>
      if (0 <=? e)%Z then v
      else
        let d := (2 ^ (- e))%Z in
        if s then - ofZ (Z.pos m / d)
        else ofZ ((Z.pos m + d - 1) / d)
  | _ => v
  end.

(** [Math.round]: the nearest integer, ties towards plus infinity, as a
    float; a value in [-0.5, 0) gives -0. *)
Definition Math_round (v : float) : float :=
  match Prim2SF v with
  | S754_finite s m e =>
      if (0 <=? e)%Z then v
      else
        let d := (2 ^ (- e))%Z in
        if s then
          let k := ((d - 2 * Z.pos m) / (2 * d))%Z in
          if (k =? 0)%Z then (- 0) else ofZ k
        else ofZ ((2 * Z.pos m + d) / (2 * d))
  | _ => v
  end.

Record Wall := mkWall { length : float; height : float }.

Record Rates := mkRates {
  hollowblock_per_piece : float;
  hollowblock_size_sqm : float;
  cement_bag_per_sqm : float;
  cement_price_per_bag : float;
  rebar_price_per_kg : float;
  labor_per_sqm : float;
  roof_price_per_sqm : float
}.

Definition rates : Rates :=
  {| hollowblock_per_piece := 15;
     hollowblock_size_sqm := 0.08;
     cement_bag_per_sqm := 0.45;
     cement_price_per_bag := 270;
     rebar_price_per_kg := 75;
     labor_per_sqm := 380;
     roof_price_per_sqm := 150 |}.

Record Results := mkResults {
  totalWallArea : float;
  hollowblock_count : float;
  cement_bags : float;
  rebar_cost : float;
  material_cost : float;
  labor_cost : float;
  total_cost : float
}.

Definition wallArea (length height : float) : float := length * height.

(** The assignments [results.f = v] and [results.f += v] of the code. *)
Definition set_totalWallArea (r : Results) (v : float) : Results :=
  mkResults v (hollowblock_count r) (cement_bags r) (rebar_cost r)
            (material_cost r) (labor_cost r) (total_cost r).

Definition set_hollowblock_count (r : Results) (v : float) : Results :=
  mkResults (totalWallArea r) v (cement_bags r) (rebar_cost r)
            (material_cost r) (labor_cost r) (total_cost r).

Definition set_cement_bags (r : Results) (v : float) : Results :=
  mkResults (totalWallArea r) (hollowblock_count r) v (rebar_cost r)
            (material_cost r) (labor_cost r) (total_cost r).

Definition set_rebar_cost (r : Results) (v : float) : Results :=
  mkResults (totalWallArea r) (hollowblock_count r) (cement_bags r) v
            (material_cost r) (labor_cost r) (total_cost r).

Definition set_material_cost (r : Results) (v : float) : Results :=
  mkResults (totalWallArea r) (hollowblock_count r) (cement_bags r)
            (rebar_cost r) v (labor_cost r) (total_cost r).

Definition set_labor_cost (r : Results) (v : float) : Results :=
  mkResults (totalWallArea r) (hollowblock_count r) (cement_bags r)
            (rebar_cost r) (material_cost r) v (total_cost r).

Definition set_total_cost (r : Results) (v : float) : Results :=
  mkResults (totalWallArea r) (hollowblock_count r) (cement_bags r)
            (rebar_cost r) (material_cost r) (labor_cost r) v.

Definition estimateMaterials (walls : list Wall) (roofArea : float)
  (config : Rates) : Results :=
  let results := mkResults 0 0 0 0 0 0 0 in
  (* for (const w of walls) results.totalWallArea += wallArea(...) *)
  let results :=
    fold_left
      (fun r w =>
         let area := wallArea (length w) (height w) in
         set_totalWallArea r (totalWallArea r + area))
      walls results in
  let results :=
    set_hollowblock_count results
      (Math_ceil (totalWallArea results / hollowblock_size_sqm config)) in
  let results :=
    set_material_cost results
      (material_cost results
       + hollowblock_count results * hollowblock_per_piece config) in
  let results :=
    set_cement_bags results
      (Math_ceil (totalWallArea results * cement_bag_per_sqm config)) in
  let results :=
    set_material_cost results
      (material_cost results
       + cement_bags results * cement_price_per_bag config) in
  let totalPerimeter := fold_left (fun s w => s + length w) walls 0 in
  let assumedRebarKg := totalPerimeter * 2 in
  let results :=
    set_rebar_cost results (assumedRebarKg * rebar_price_per_kg config) in
  let results :=
    set_material_cost results (material_cost results + rebar_cost results) in
  let results :=
    set_labor_cost results (totalWallArea results * labor_per_sqm config) in
  let roof_material_est := roofArea * roof_price_per_sqm config in
  let results :=
    set_material_cost results (material_cost results + roof_material_est) in
  set_total_cost results
    (Math_round (material_cost results + labor_cost results)).

End EstimatorDouble.

(** ** The gabled roof area *)

Module RoofArea.
Import Reals.
Local Open Scope R_scope.

Record Bounds := mkBounds { minX : R; maxX : R; minZ : R; maxZ : R }.

(** [bounds] is [None] for [null]; an omitted [roofPitch] or [overhang]
    takes its default, 30 and 0. *)
Definition roofAreaFromBounds (bounds : option Bounds)
  (roofPitch overhang : option R) : R :=
  match bounds with
  | None => 0
  | Some bounds =>
      let roofPitch := match roofPitch with Some p => p | None => 30 end in
      let overhang := match overhang with Some o => o | None => 0 end in
      let width := Rmax (1 / 1000) (Rabs (maxX bounds - minX bounds)) in
      let depth := Rmax (1 / 1000) (Rabs (maxZ bounds - minZ bounds)) in
      let widthWithOverhang := width + 2 * overhang in
      let depthWithOverhang := depth + 2 * overhang in
      let roofRun := widthWithOverhang / 2 in
      let pitchRad := (roofPitch * PI) / 180 in
      let slopeFactor := 1 / cos pitchRad in
      let singleSideArea := roofRun * depthWithOverhang * slopeFactor in
      singleSideArea * 2
  end.

End RoofArea.

(** ** Plan geometry *)

Record Point2D := mkPoint { x : number; z : number }.

(** The square of [calculateDistance p1 p2]. *)
Definition sqDistance (p1 p2 : Point2D) : number :=
  (x p2 - x p1) * (x p2 - x p1) + (z p2 - z p1) * (z p2 - z p1).

(** [calculateDistance(p1, p2) < t], on the squared distance. *)
Definition distance_lt (p1 p2 : Point2D) (t : number) : bool :=
  ltb 0 t && ltb (sqDistance p1 p2) (t * t).

(** [calculateDistance(p1, p2) > t] for a non-negative [t]. *)
Definition distance_gt (p1 p2 : Point2D) (t : number) : bool :=
  ltb (t * t) (sqDistance p1 p2).

(** [Math.min(...xs)] and [Math.max(...xs)] of a list with head [h]. *)
Definition Math_min_list (h : number) (t : list number) : number :=
  fold_left Math_min t h.

Definition Math_max_list (h : number) (t : list number) : number :=
  fold_left Math_max t h.

(** [calculatePolygonArea], the same text in the builder and in the room
    manager. *)
Definition origin : Point2D := mkPoint 0 0.

Definition calculatePolygonArea (points : list Point2D) : number :=
  let n := List.length points in
  if (n <? 3)%nat then 0
  else
    let area :=
      fold_left
        (fun area i =>
           let j := ((i + 1) mod n)%nat in
           let area := area + x (nth i points origin) * z (nth j points origin) in
           area - x (nth j points origin) * z (nth i points origin))
        (seq 0 n) 0 in
    Math_abs area / 2.

(** The determinant sum of the shoelace formula, as the specification
    writes it: the sum over consecutive vertices, the last one paired with
    the first. *)
Definition det (p q : Point2D) : number := x p * z q - x q * z p.

Definition cyclic_successors (points : list Point2D) : list Point2D :=
  match points with
  | [] => []
  | p :: rest => rest ++ [p]
  end.

Definition determinant_sum (points : list Point2D) : number :=
  sumQ (map (fun pq => det (fst pq) (snd pq))
            (combine points (cyclic_successors points))).

Definition shoelace (points : list Point2D) : number :=
  Math_abs (determinant_sum points) / 2.

(** ** The design state and its handlers *)

Module Builder.

Record Window := mkWindow {
  window_id : string;
  window_position : number;
  window_width : number;
  window_height : number;
  window_style : string;
  sillHeight : number;
  window_color : string
}.

Record Door := mkDoor {
  door_id : string;
  door_position : number;
  door_width : number;
  door_height : number;
  door_style : string;
  door_color : string
}.

Record Staircase := mkStaircase {
  staircase_id : string;
  staircase_position : Point2D;
  rotation : number;
  staircase_width : number;
  fromFloor : Z;
  toFloor : Z;
  staircase_style : string;
  staircase_color : string
}.

Inductive WallType := solid | railing.

Record Wall := mkWall {
  wall_id : string;
  start : Point2D;
  end_ : Point2D;
  wall_height : number;
  thickness : number;
  windows : list Window;
  doors : list Door;
  material : string;
  wall_color : string;
  wallType : WallType
}.

Record Beam := mkBeam {
  beam_id : string;
  beam_start : Point2D;
  beam_end : Point2D;
  beam_height : number;
  beam_width : number;
  beam_depth : number;
  beam_material : string;
  beam_color : string;
  beam_floorLevel : Z
}.

Record Floor := mkFloor {
  floor_id : string;
  level : Z;
  floor_height : number;
  walls : list Wall;
  beams : list Beam;
  floor_color : string;
  texture : string
}.

Record PlotBounds := mkPlotBounds { width : number; depth : number }.

Record FloorPlan := mkFloorPlan {
  plan_walls : list Wall;
  totalArea : number;
  plotBounds : PlotBounds;
  floors : list Floor;
  staircases : list Staircase;
  roofStyle : string;
  roofColor : string;
  roofSlopeDirection : string
}.

(** The React state of [AdvancedHouseBuilder] that the handlers read and
    write. *)
Record State := mkState {
  floorPlan : FloorPlan;
  currentFloor : Z;
  selectedWallId : option string;
  wallHeight : number;
  wallThickness : number;
  wallMaterial : string;
  wallColor : string
}.

Definition initialFloorPlan : FloorPlan :=
  {| plan_walls := [];
     totalArea := 0;
     plotBounds := mkPlotBounds 20 10;
     floors := [mkFloor "1" 1 3 [] [] "#d1d5db" "concrete"];
     staircases := [];
     roofStyle := "flat";
     roofColor := "#8B4513";
     roofSlopeDirection := "north" |}.

Definition initialState : State :=
  {| floorPlan := initialFloorPlan;
     currentFloor := 1;
     selectedWallId := None;
     wallHeight := 3;
     wallThickness := 15 # 100;
     wallMaterial := "concrete";
     wallColor := "#d1d5db" |}.

(** [{ ...prev, plotBounds: b }], [{ ...prev, floors: fs }] and
    [setCurrentFloor]. *)
Definition with_plotBounds (fp : FloorPlan) (b : PlotBounds) : FloorPlan :=
  mkFloorPlan (plan_walls fp) (totalArea fp) b (floors fp) (staircases fp)
              (roofStyle fp) (roofColor fp) (roofSlopeDirection fp).

Definition with_floors (fp : FloorPlan) (fs : list Floor) : FloorPlan :=
  mkFloorPlan (plan_walls fp) (totalArea fp) (plotBounds fp) fs (staircases fp)
              (roofStyle fp) (roofColor fp) (roofSlopeDirection fp).

Definition setFloorPlan (st : State) (fp : FloorPlan) : State :=
  mkState fp (currentFloor st) (selectedWallId st) (wallHeight st)
          (wallThickness st) (wallMaterial st) (wallColor st).

Definition setCurrentFloor (lvl : Z) (st : State) : State :=
  mkState (floorPlan st) lvl (selectedWallId st) (wallHeight st)
          (wallThickness st) (wallMaterial st) (wallColor st).

Definition setSelectedWallId (sel : option string) (st : State) : State :=
  mkState (floorPlan st) (currentFloor st) sel (wallHeight st)
          (wallThickness st) (wallMaterial st) (wallColor st).

Definition with_walls (f : Floor) (ws : list Wall) : Floor :=
  mkFloor (floor_id f) (level f) (floor_height f) ws (beams f)
          (floor_color f) (texture f).

Definition with_level (f : Floor) (l : Z) : Floor :=
  mkFloor (floor_id f) l (floor_height f) (walls f) (beams f)
          (floor_color f) (texture f).

Definition with_windows (w : Wall) (l : list Window) : Wall :=
  mkWall (wall_id w) (start w) (end_ w) (wall_height w) (thickness w) l
         (doors w) (material w) (wall_color w) (wallType w).

Definition with_doors (w : Wall) (l : list Door) : Wall :=
  mkWall (wall_id w) (start w) (end_ w) (wall_height w) (thickness w)
         (windows w) l (material w) (wall_color w) (wallType w).

Definition with_window_position (w : Window) (p : number) : Window :=
  mkWindow (window_id w) p (window_width w) (window_height w)
           (window_style w) (sillHeight w) (window_color w).

Definition with_door_position (d : Door) (p : number) : Door :=
  mkDoor (door_id d) p (door_width d) (door_height d) (door_style d)
         (door_color d).

(** *** The plot *)

Definition maxPlotArea : number := 200.

Inductive Dimension := dim_width | dim_depth.

Definition handlePlotResize (dimension : Dimension) (value : number)
  (st : State) : State :=
  let old := plotBounds (floorPlan st) in
  let newBounds :=
    match dimension with
    | dim_width => mkPlotBounds value (depth old)
    | dim_depth => mkPlotBounds (width old) value
    end in
  if leb (width newBounds * depth newBounds) maxPlotArea
  then setFloorPlan st (with_plotBounds (floorPlan st) newBounds)
  else st.

(** *** Walls *)

Record Footprint := mkFootprint {
  minX : number; maxX : number; minZ : number; maxZ : number
}.

Definition getFloor1Footprint (fp : FloorPlan) : option Footprint :=
  match find (fun f => (level f =? 1)%Z) (floors fp) with
  | None => None
  | Some floor1 =>
      let xs := flat_map (fun wall => [x (start wall); x (end_ wall)])
                         (walls floor1) in
      let zs := flat_map (fun wall => [z (start wall); z (end_ wall)])
                         (walls floor1) in
      match xs, zs with
      | x0 :: xs', z0 :: zs' =>
          Some {| minX := Math_min_list x0 xs';
                  maxX := Math_max_list x0 xs';
                  minZ := Math_min_list z0 zs';
                  maxZ := Math_max_list z0 zs' |}
      | _, _ => None
      end
  end.

Definition withinPlot (b : PlotBounds) (point : Point2D) : bool :=
  let halfWidth := width b / 2 in
  let halfDepth := depth b / 2 in
  leb (- halfWidth) (x point) && leb (x point) halfWidth
  && leb (- halfDepth) (z point) && leb (z point) halfDepth.

Definition withinFootprint (f : Footprint) (point : Point2D) : bool :=
  leb (minX f) (x point) && leb (x point) (maxX f)
  && leb (minZ f) (z point) && leb (z point) (maxZ f).

Definition isPointWithinBounds (st : State) (point : Point2D) : bool :=
  let withinPlot := withinPlot (plotBounds (floorPlan st)) point in
  if (1 <? currentFloor st)%Z then
    match getFloor1Footprint (floorPlan st) with
    | Some floor1Footprint =>
        withinPlot && withinFootprint floor1Footprint point
    | None => false
    end
  else withinPlot.

Definition mapFloor (floorLevel : Z) (f : Floor -> Floor)
  (fp : FloorPlan) : FloorPlan :=
  with_floors fp
    (map (fun floor => if (level floor =? floorLevel)%Z then f floor else floor)
         (floors fp)).

Definition mapWall (wallId : string) (f : Wall -> Wall) (floor : Floor) : Floor :=
  with_walls floor
    (map (fun wall => if String.eqb (wall_id wall) wallId then f wall else wall)
         (walls floor)).

Definition addWall (newId : string) (start end_ : Point2D) (floorLevel : Z)
  (st : State) : State :=
  if negb (isPointWithinBounds st start) || negb (isPointWithinBounds st end_)
  then st
  else
    let newWall :=
      mkWall newId start end_ (wallHeight st) (wallThickness st) [] []
             (wallMaterial st) (wallColor st) solid in
    setFloorPlan st
      (mapFloor floorLevel
         (fun floor => with_walls floor (walls floor ++ [newWall]))
         (floorPlan st)).

Definition deleteWall (wallId : string) (floorLevel : Z) (st : State) : State :=
  setSelectedWallId None
    (setFloorPlan st
       (mapFloor floorLevel
          (fun floor =>
             with_walls floor
               (filter (fun wall => negb (String.eqb (wall_id wall) wallId))
                       (walls floor)))
          (floorPlan st))).

(** *** Windows and doors *)

Definition clampPosition (newPosition : number) : number :=
  Math_max (1 # 10) (Math_min (9 # 10) newPosition).

Definition updateWindowPosition (wallId windowId : string)
  (newPosition : number) (floorLevel : Z) (st : State) : State :=
  let clampedPosition := clampPosition newPosition in
  setFloorPlan st
    (mapFloor floorLevel
       (mapWall wallId
          (fun wall =>
             with_windows wall
               (map (fun window =>
                       if String.eqb (window_id window) windowId
                       then with_window_position window clampedPosition
                       else window)
                    (windows wall))))
       (floorPlan st)).

Definition updateDoorPosition (wallId doorId : string)
  (newPosition : number) (floorLevel : Z) (st : State) : State :=
  let clampedPosition := clampPosition newPosition in
  setFloorPlan st
    (mapFloor floorLevel
       (mapWall wallId
          (fun wall =>
             with_doors wall
               (map (fun door =>
                       if String.eqb (door_id door) doorId
                       then with_door_position door clampedPosition
                       else door)
                    (doors wall))))
       (floorPlan st)).

Definition addWindow (newId wallId : string) (floorLevel : Z)
  (st : State) : State :=
  let newWindow :=
    mkWindow newId (1 # 2) (12 # 10) 1 "rectangular" (9 # 10) "#8B4513" in
  setFloorPlan st
    (mapFloor floorLevel
       (mapWall wallId
          (fun wall => with_windows wall (windows wall ++ [newWindow])))
       (floorPlan st)).

Definition addDoor (newId wallId : string) (floorLevel : Z)
  (st : State) : State :=
  let newDoor := mkDoor newId (1 # 2) (9 # 10) (21 # 10) "single" "#8B4513" in
  setFloorPlan st
    (mapFloor floorLevel
       (mapWall wallId
          (fun wall => with_doors wall (doors wall ++ [newDoor])))
       (floorPlan st)).

(** *** Floors *)

Definition addFloor (newId : string) (st : State) : State :=
  if (2 <=? List.length (floors (floorPlan st)))%nat then st
  else
    let newFloor :=
      mkFloor newId (Z.of_nat (List.length (floors (floorPlan st))) + 1) 3
              [] [] "#d1d5db" "concrete" in
    setCurrentFloor (level newFloor)
      (setFloorPlan st
         (with_floors (floorPlan st) (floors (floorPlan st) ++ [newFloor]))).

(** [list.map((floor, index) => ...)], the index counted from [index]. *)
Fixpoint renumber (index : nat) (l : list Floor) : list Floor :=
  match l with
  | [] => []
  | floor :: rest =>
      with_level floor (Z.of_nat index + 1) :: renumber (S index) rest
  end.

Definition removeFloor (floorLevel : Z) (st : State) : State :=
  if (List.length (floors (floorPlan st)) <=? 1)%nat then st
  else if (floorLevel =? 1)%Z then st
  else
    let st' :=
      setFloorPlan st
        (with_floors (floorPlan st)
           (renumber 0
              (filter (fun floor => negb (level floor =? floorLevel)%Z)
                      (floors (floorPlan st))))) in
    let st' :=
      if (currentFloor st =? floorLevel)%Z then setCurrentFloor 1 st'
      else if (floorLevel <? currentFloor st)%Z
           then setCurrentFloor (currentFloor st - 1) st'
           else st' in
    setSelectedWallId None st'.

(** *** Overhangs and support beams *)

Record Overhang := mkOverhang {
  hasOverhang : bool;
  overhangWalls : list string
}.

(** The test on a wall of floor 2: its middle lies more than 0.5 m
    outside the bounds of floor 1. *)
Definition beyond (floor1MinX floor1MaxX floor1MinZ floor1MaxZ : number)
  (wall : Wall) : bool :=
  let wallMidX := (x (start wall) + x (end_ wall)) / 2 in
  let wallMidZ := (z (start wall) + z (end_ wall)) / 2 in
  ltb wallMidX (floor1MinX - (1 # 2))
  || ltb (floor1MaxX + (1 # 2)) wallMidX
  || ltb wallMidZ (floor1MinZ - (1 # 2))
  || ltb (floor1MaxZ + (1 # 2)) wallMidZ.

Definition detectOverhangAreas (floor1Walls floor2Walls : list Wall)
  : Overhang :=
  match floor1Walls with
  | [] => mkOverhang false []
  | first :: others =>
      if (List.length floor2Walls =? 0)%nat then mkOverhang false []
      else
        (* floor1Points starts with the two ends of the first wall *)
        let floor1Points :=
          end_ first
          :: flat_map (fun wall => [start wall; end_ wall]) others in
        let floor1MinX := Math_min_list (x (start first)) (map x floor1Points) in
        let floor1MaxX := Math_max_list (x (start first)) (map x floor1Points) in
        let floor1MinZ := Math_min_list (z (start first)) (map z floor1Points) in
        let floor1MaxZ := Math_max_list (z (start first)) (map z floor1Points) in
        fold_left
          (fun found wall =>
             if beyond floor1MinX floor1MaxX floor1MinZ floor1MaxZ wall
             then mkOverhang true (overhangWalls found ++ [wall_id wall])
             else found)
          floor2Walls (mkOverhang false [])
  end.

(** [overhangWalls.includes(id)]. *)
Definition includes (ids : list string) (id : string) : bool :=
  existsb (String.eqb id) ids.

Definition supportBeam (newId : string) (at_ : Point2D) (floorHeight : number)
  : Beam :=
  mkBeam newId at_ at_ floorHeight (2 # 10) (2 # 10) "steel" "#4b5563" 1.

Definition generateSupportBeams (floor1Walls floor2Walls : list Wall)
  (floorHeight : number) : list Beam :=
  let found := detectOverhangAreas floor1Walls floor2Walls in
  if negb (hasOverhang found) then []
  else
    fold_left
      (fun beams wall =>
         if includes (overhangWalls found) (wall_id wall) then
           beams
           ++ [supportBeam ("beam-" ++ wall_id wall ++ "-start") (start wall)
                           floorHeight;
               supportBeam ("beam-" ++ wall_id wall ++ "-end") (end_ wall)
                           floorHeight]
         else beams)
      floor2Walls [].

Definition with_beams (f : Floor) (bs : list Beam) : Floor :=
  mkFloor (floor_id f) (level f) (floor_height f) (walls f) bs
          (floor_color f) (texture f).

(** The effect that runs when the floors change. *)
Definition supportBeamsEffect (st : State) : State :=
  if (2 <=? List.length (floors (floorPlan st)))%nat then
    match find (fun f => (level f =? 1)%Z) (floors (floorPlan st)),
          find (fun f => (level f =? 2)%Z) (floors (floorPlan st)) with
    | Some floor1, Some floor2 =>
        if (0 <? List.length (walls floor1))%nat
           && (0 <? List.length (walls floor2))%nat then
          let autoBeams :=
            generateSupportBeams (walls floor1) (walls floor2)
                                 (floor_height floor1) in
          if (0 <? List.length autoBeams)%nat
             && negb (List.length (beams floor1) =? List.length autoBeams)%nat
          then
            setFloorPlan st
              (with_floors (floorPlan st)
                 (map (fun f => if (level f =? 1)%Z
                                then with_beams f autoBeams else f)
                      (floors (floorPlan st))))
          else st
        else st
    | _, _ => st
    end
  else st.

(** *** Walls replaced by the drawing surface *)

Definition handleWallsChange (newWalls : list Wall) (floorLevel : Z)
  (st : State) : State :=
  setFloorPlan st
    (mapFloor floorLevel (fun floor => with_walls floor newWalls)
              (floorPlan st)).

(** *** Staircases *)

(** The builder state with the staircase selection and settings. *)
Record StairState := mkStairState {
  builder : State;
  selectedStaircaseId : option string;
  staircaseWidth : number;
  staircaseStyle : string;
  staircaseColor : string
}.

Definition with_staircases (fp : FloorPlan) (l : list Staircase) : FloorPlan :=
  mkFloorPlan (plan_walls fp) (totalArea fp) (plotBounds fp) (floors fp) l
              (roofStyle fp) (roofColor fp) (roofSlopeDirection fp).

Definition setStaircases (s : StairState) (l : list Staircase) : StairState :=
  mkStairState
    (setFloorPlan (builder s) (with_staircases (floorPlan (builder s)) l))
    (selectedStaircaseId s) (staircaseWidth s) (staircaseStyle s)
    (staircaseColor s).

Definition setSelectedStaircaseId (sel : option string) (s : StairState)
  : StairState :=
  mkStairState (builder s) sel (staircaseWidth s) (staircaseStyle s)
               (staircaseColor s).

Definition addStaircase (newId : string) (s : StairState) : StairState :=
  if (List.length (floors (floorPlan (builder s))) <? 2)%nat then s
  else
    let newStaircase :=
      mkStaircase newId (mkPoint 0 0) 0 (staircaseWidth s)
                  (currentFloor (builder s)) (currentFloor (builder s) + 1)
                  (staircaseStyle s) (staircaseColor s) in
    setStaircases s (staircases (floorPlan (builder s)) ++ [newStaircase]).

Definition deleteStaircase (staircaseId : string) (s : StairState)
  : StairState :=
  setSelectedStaircaseId None
    (setStaircases s
       (filter (fun st => negb (String.eqb (staircase_id st) staircaseId))
               (staircases (floorPlan (builder s))))).

Definition updateStaircasePosition (staircaseId : string) (position : Point2D)
  (s : StairState) : StairState :=
  setStaircases s
    (map (fun st =>
            if String.eqb (staircase_id st) staircaseId
            then mkStaircase (staircase_id st) position (rotation st)
                             (staircase_width st) (fromFloor st) (toFloor st)
                             (staircase_style st) (staircase_color st)
            else st)
         (staircases (floorPlan (builder s)))).

Definition updateStaircaseRotation (staircaseId : string) (newRotation : number)
  (s : StairState) : StairState :=
  setStaircases s
    (map (fun st =>
            if String.eqb (staircase_id st) staircaseId
            then mkStaircase (staircase_id st) (staircase_position st)
                             newRotation (staircase_width st) (fromFloor st)
                             (toFloor st) (staircase_style st)
                             (staircase_color st)
            else st)
         (staircases (floorPlan (builder s)))).

End Builder.

(** ** The ordered perimeter of the roof *)

Module RoofMesh.

Record Segment := mkSegment { start : Point2D; end_ : Point2D }.

(** The variables of the walk: [orderedPoints], [usedSegments]
    (a [Set<number>], kept without repetition) and [currentPoint]. *)
Record Walk := mkWalk {
  orderedPoints : list Point2D;
  usedSegments : set nat;
  currentPoint : Point2D
}.

Definition has (i : nat) (s : set nat) : bool := set_mem Nat.eq_dec i s.

Definition add (i : nat) (s : set nat) : set nat := set_add Nat.eq_dec i s.

Definition size (s : set nat) : nat := List.length s.

Definition tolerance : number := 1 # 10.

Definition close (p q : Point2D) : bool :=
  ltb (Math_abs (x p - x q)) tolerance && ltb (Math_abs (z p - z q)) tolerance.

(** The [for] loop over the segments, from index [i] on: [Some] is the
    state at the [break], [None] means [foundConnection] stayed false. *)
Fixpoint findConnection (i : nat) (segments : list Segment) (w : Walk)
  : option Walk :=
  match segments with
  | [] => None
  | segment :: rest =>
      if has i (usedSegments w) then findConnection (S i) rest w
      else if close (start segment) (currentPoint w) then
        Some (mkWalk (orderedPoints w ++ [end_ segment])
                     (add i (usedSegments w)) (end_ segment))
      else if close (end_ segment) (currentPoint w) then
        Some (mkWalk (orderedPoints w ++ [start segment])
                     (add i (usedSegments w)) (start segment))
      else findConnection (S i) rest w
  end.

(** The [while] loop with the number of times its body ran; [None] when
    the fuel runs out before the loop ends. *)
Fixpoint walk (fuel : nat) (wallSegments : list Segment) (w : Walk)
  : option (Walk * nat) :=
  if (List.length wallSegments <=? size (usedSegments w))%nat then Some (w, 0%nat)
  else
    match fuel with
    | O => None
    | S fuel' =>
        match findConnection 0 wallSegments w with
        | None => Some (w, 1%nat)
        | Some w' =>
            match walk fuel' wallSegments w' with
            | Some (w'', k) => Some (w'', S k)
            | None => None
            end
        end
    end.

(** The block that builds [orderedPoints], with the iteration count. *)
Definition tracePerimeter (fuel : nat) (wallSegments : list Segment)
  : option (list Point2D * nat) :=
  match wallSegments with
  | [] => Some ([], 0%nat)
  | first :: _ =>
      match walk fuel wallSegments
                 (mkWalk [start first; end_ first] (add 0 []) (end_ first)) with
      | Some (w, k) => Some (orderedPoints w, k)
      | None => None
      end
  end.

(** *** The outline of the roof *)

(** [floors.reduce((max, floor) => floor.level > max.level ? floor : max,
    floors[0])]; [None] is the [undefined] of an empty array. *)
Definition highestFloor (floors : list Builder.Floor) : option Builder.Floor :=
  match floors with
  | [] => None
  | first :: _ =>
      Some (fold_left
              (fun max floor =>
                 if (Builder.level max <? Builder.level floor)%Z
                 then floor else max)
              floors first)
  end.

Record RoofGeometry := mkRoofGeometry {
  points : list Point2D;
  wallPoints : list Point2D
}.

Definition overhang : number := 3 # 10.

(** The block of [useMemo]: [roofGeometry] and [totalBuildingHeight].
    The outer [option] is [None] only when the fuel of the walk runs
    out. *)
Definition roofGeometry (fuel : nat) (floorPlan : Builder.FloorPlan)
  : option (option RoofGeometry * number) :=
  let topFloorWalls :=
    match highestFloor (Builder.floors floorPlan) with
    | Some floor => Builder.walls floor
    | None => []
    end in
  if (List.length topFloorWalls =? 0)%nat then Some (None, 0)
  else
    let wallSegments :=
      map (fun wall => mkSegment (Builder.start wall) (Builder.end_ wall))
          topFloorWalls in
    let wallPoints :=
      flat_map (fun wall => [Builder.start wall; Builder.end_ wall])
               topFloorWalls in
    match wallPoints with
    | [] => Some (None, 0)
    | first :: others =>
        match tracePerimeter fuel wallSegments with
        | None => None
        | Some (orderedPoints, _) =>
            let orderedPoints :=
              if (List.length orderedPoints <? 3)%nat then
                let minX := Math_min_list (x first) (map x others) in
                let maxX := Math_max_list (x first) (map x others) in
                let minZ := Math_min_list (z first) (map z others) in
                let maxZ := Math_max_list (z first) (map z others) in
                [mkPoint (minX - overhang) (minZ - overhang);
                 mkPoint (maxX + overhang) (minZ - overhang);
                 mkPoint (maxX + overhang) (maxZ + overhang);
                 mkPoint (minX - overhang) (maxZ + overhang)]
              else orderedPoints in
            let totalHeight :=
              fold_left (fun sum floor => sum + Builder.floor_height floor)
                        (Builder.floors floorPlan) 0 in
            Some (Some (mkRoofGeometry orderedPoints wallPoints), totalHeight)
        end
    end.

End RoofMesh.

(** ** Rooms: the enclosed area of a group of walls *)

Module RoomManager.

Record Wall := mkWall { id : string; start : Point2D; end_ : Point2D }.

Record Walk := mkWalk {
  points : list Point2D;
  wallIds : list string;
  usedWalls : set string;
  currentPoint : Point2D
}.

Definition has (i : string) (s : set string) : bool := set_mem string_dec i s.

Definition add (i : string) (s : set string) : set string :=
  set_add string_dec i s.

Definition size (s : set string) : nat := List.length s.

Definition near (p q : Point2D) : bool := distance_lt p q (1 # 10).

(** One turn of the [while] body: [None] is the [break]. *)
Definition step (walls : list Wall) (w : Walk) : option Walk :=
  match
    find (fun wall =>
            negb (has (id wall) (usedWalls w))
            && (near (currentPoint w) (start wall)
                || near (currentPoint w) (end_ wall)))
         walls
  with
  | None => None
  | Some nextWall =>
      let currentPoint :=
        if near (currentPoint w) (start nextWall)
        then end_ nextWall else start nextWall in
      Some (mkWalk (points w ++ [currentPoint])
                   (wallIds w ++ [id nextWall])
                   (add (id nextWall) (usedWalls w))
                   currentPoint)
  end.

Fixpoint walk (fuel : nat) (walls : list Wall) (w : Walk)
  : option (Walk * nat) :=
  if (List.length walls <=? size (usedWalls w))%nat then Some (w, 0%nat)
  else
    match fuel with
    | O => None
    | S fuel' =>
        match step walls w with
        | None => Some (w, 1%nat)
        | Some w' =>
            match walk fuel' walls w' with
            | Some (w'', k) => Some (w'', S k)
            | None => None
            end
        end
    end.

Record Enclosed := mkEnclosed { area : number; enclosedIds : list string }.

(** The outer [option] is [None] only when the fuel runs out; the inner
    one is the [null] of the code. *)
Definition findEnclosedArea (fuel : nat) (walls : list Wall)
  : option (option Enclosed * nat) :=
  match walls with
  | currentWall :: _ =>
      if (List.length walls <? 3)%nat then Some (None, 0%nat)
      else
        match walk fuel walls
                   (mkWalk [start currentWall] [id currentWall]
                           (add (id currentWall) []) (start currentWall)) with
        | None => None
        | Some (w, k) =>
            if (3 <=? List.length (points w))%nat
               && near (nth 0 (points w) origin)
                       (nth (List.length (points w) - 1) (points w) origin)
            then Some (Some (mkEnclosed (calculatePolygonArea (points w))
                                        (wallIds w)), k)
            else Some (None, k)
        end
  | [] => Some (None, 0%nat)
  end.

End RoomManager.

(** ** The 2D drawing surface *)

Module Designer.

Record Window := mkWindow {
  window_id : string;
  window_position : number;
  window_width : number;
  window_height : number;
  window_style : string;
  sillHeight : number
}.

Record Door := mkDoor {
  door_id : string;
  door_position : number;
  door_width : number;
  door_height : number;
  door_style : string
}.

Record Wall := mkWall {
  id : string;
  start : Point2D;
  end_ : Point2D;
  height : number;
  thickness : number;
  windows : list Window;
  doors : list Door;
  material : string
}.

Inductive Tool := tool_select | tool_wall | tool_rectangle | tool_room.

(** The props and the React state of [FloorPlanDesigner].  [walls] is the
    prop that [onWallsChange] replaces. *)
Record State := mkState {
  walls : list Wall;
  wallHeight : number;
  wallThickness : number;
  wallMaterial : string;
  isDrawing : bool;
  drawingStart : option Point2D;
  currentMousePos : option Point2D;
  tool : Tool
}.

Definition scale : number := 20.
Definition canvasWidth : number := 500.
Definition canvasHeight : number := 600.
Definition centerX : number := canvasWidth / 2.
Definition centerY : number := canvasHeight / 2.

Definition canvasToWorld (point : Point2D) : Point2D :=
  {| x := (x point - centerX) / scale;
     z := - (z point - centerY) / scale |}.

Definition defaultGridSize : number := 1 # 2.

Definition snapToGrid (value gridSize : number) : number :=
  Math_round (value / gridSize) * gridSize.

Fixpoint findNearestPoint (point : Point2D) (walls : list Wall)
  (threshold : number) : option Point2D :=
  match walls with
  | [] => None
  | wall :: rest =>
      if distance_lt point (start wall) threshold then Some (start wall)
      else if distance_lt point (end_ wall) threshold then Some (end_ wall)
      else findNearestPoint point rest threshold
  end.

Definition onWallsChange (newWalls : list Wall) (st : State) : State :=
  mkState newWalls (wallHeight st) (wallThickness st) (wallMaterial st)
          (isDrawing st) (drawingStart st) (currentMousePos st) (tool st).

Definition setTool (t : Tool) (st : State) : State :=
  mkState (walls st) (wallHeight st) (wallThickness st) (wallMaterial st)
          (isDrawing st) (drawingStart st) (currentMousePos st) t.

Definition startDrawing (p : Point2D) (st : State) : State :=
  mkState (walls st) (wallHeight st) (wallThickness st) (wallMaterial st)
          true (Some p) (currentMousePos st) (tool st).

Definition stopDrawing (st : State) : State :=
  mkState (walls st) (wallHeight st) (wallThickness st) (wallMaterial st)
          false None None (tool st).

(** [createRectangularRoom]; [newId i] is the identifier drawn for the
    wall that leaves corner [i]. *)
Definition createRectangularRoom (newId : nat -> string)
  (start end_ : Point2D) (st : State) : State :=
  let minX := Math_min (x start) (x end_) in
  let maxX := Math_max (x start) (x end_) in
  let minZ := Math_min (z start) (z end_) in
  let maxZ := Math_max (z start) (z end_) in
  let corners :=
    [mkPoint minX minZ; mkPoint maxX minZ; mkPoint maxX maxZ;
     mkPoint minX maxZ] in
  let newWalls :=
    map (fun i =>
           mkWall (newId i) (nth i corners origin)
                  (nth ((i + 1) mod List.length corners) corners origin)
                  (wallHeight st) (wallThickness st) [] [] (wallMaterial st))
        (seq 0 (List.length corners)) in
  onWallsChange (walls st ++ newWalls) st.

(** [handleMouseDown] at the canvas point of the click.  The selection
    made with the select tool lives in the parent component and leaves
    this state as it is. *)
Definition handleMouseDown (newId : nat -> string) (canvasPoint : Point2D)
  (st : State) : State :=
  let worldPoint := canvasToWorld canvasPoint in
  let snappedPoint :=
    {| x := snapToGrid (x worldPoint) defaultGridSize;
       z := snapToGrid (z worldPoint) defaultGridSize |} in
  match tool st with
  | tool_wall =>
      if negb (isDrawing st) then
        let nearestPoint := findNearestPoint snappedPoint (walls st) 1 in
        startDrawing
          (match nearestPoint with Some p => p | None => snappedPoint end) st
      else
        let st' :=
          match drawingStart st with
          | Some drawingStart =>
              let nearestPoint := findNearestPoint snappedPoint (walls st) 1 in
              let endPoint :=
                match nearestPoint with Some p => p | None => snappedPoint end in
              if distance_gt drawingStart endPoint (1 # 10) then
                let newWall :=
                  mkWall (newId 0%nat) drawingStart endPoint (wallHeight st)
                         (wallThickness st) [] [] (wallMaterial st) in
                onWallsChange (walls st ++ [newWall]) st
              else st
          | None => st
          end in
        stopDrawing st'
  | tool_select => st
  | tool_rectangle =>
      if negb (isDrawing st) then startDrawing snappedPoint st
      else
        let st' :=
          match drawingStart st with
          | Some drawingStart =>
              createRectangularRoom newId drawingStart snappedPoint st
          | None => st
          end in
        stopDrawing st'
  | tool_room => st
  end.

Definition worldToCanvas (point : Point2D) : Point2D :=
  {| x := centerX + x point * scale;
     z := centerY - z point * scale |}.

(** *** Editing the selected wall *)

(** [if (selectedWallId)]: null and the empty string are falsy. *)
Definition truthy (selectedWallId : option string) : bool :=
  match selectedWallId with
  | Some wallId => negb (String.eqb wallId EmptyString)
  | None => false
  end.

(** [wall.id === selectedWallId]. *)
Definition isSelected (selectedWallId : option string) (wall : Wall) : bool :=
  match selectedWallId with
  | Some wallId => String.eqb (id wall) wallId
  | None => false
  end.

Definition with_windows (wall : Wall) (ws : list Window) : Wall :=
  mkWall (id wall) (start wall) (end_ wall) (height wall) (thickness wall)
         ws (doors wall) (material wall).

Definition with_doors (wall : Wall) (ds : list Door) : Wall :=
  mkWall (id wall) (start wall) (end_ wall) (height wall) (thickness wall)
         (windows wall) ds (material wall).

(** [selectedWallId] is a prop of the parent, which [onWallSelect]
    replaces: the new selection is returned with the state. *)
Definition deleteSelectedWall (selectedWallId : option string) (st : State)
  : State * option string :=
  if truthy selectedWallId then
    (onWallsChange
       (filter (fun wall => negb (isSelected selectedWallId wall)) (walls st))
       st,
     None)
  else (st, selectedWallId).

Definition addWindow (newId : string) (selectedWallId : option string)
  (st : State) : State :=
  if negb (truthy selectedWallId) then st
  else
    let newWindow :=
      mkWindow newId (1 # 2) (12 # 10) 1 "rectangular" (9 # 10) in
    onWallsChange
      (map (fun wall =>
              if isSelected selectedWallId wall
              then with_windows wall (windows wall ++ [newWindow]) else wall)
           (walls st))
      st.

Definition addDoor (newId : string) (selectedWallId : option string)
  (st : State) : State :=
  if negb (truthy selectedWallId) then st
  else
    let newDoor := mkDoor newId (1 # 2) (9 # 10) (21 # 10) "single" in
    onWallsChange
      (map (fun wall =>
              if isSelected selectedWallId wall
              then with_doors wall (doors wall ++ [newDoor]) else wall)
           (walls st))
      st.

End Designer.

(** ** Distances as real numbers *)

Module Distance.
Import Reals Qreals.
Local Open Scope R_scope.

(** [calculateDistance], the same text in the builder, the drawing
    surface, the room manager and the validator, on the real numbers that
    the rational coordinates denote. *)
Definition calculateDistance (p1 p2 : Point2D) : R :=
  sqrt ((Q2R (x p2) - Q2R (x p1)) ^ 2 + (Q2R (z p2) - Q2R (z p1)) ^ 2).

End Distance.

(** ** The square house planner *)

Module HousePlanner.

Record Window := mkWindow {
  position : number;
  window_width : number;
  window_height : number;
  style : string
}.

Record Wall := mkWall {
  x1 : number;
  z1 : number;
  x2 : number;
  z2 : number;
  length : number;
  height : number;
  thickness : number;
  windows : list Window
}.

(** The walls, the selection and the window settings of the React state
    of [HousePlanner]. *)
Record State := mkState {
  walls : list Wall;
  selectedWall : Z;
  windowWidth : number;
  windowHeight : number;
  windowStyle : string;
  windowPosition : number
}.

Definition defaultSideMeters : number := 10.

(** [wallHeight] and [wallThickness] default to 3 and 0.15. *)
Definition makeRectangleWalls (side : number)
  (wallHeight wallThickness : option number) : list Wall :=
  let wallHeight := match wallHeight with Some v => v | None => 3 end in
  let wallThickness :=
    match wallThickness with Some v => v | None => 15 # 100 end in
  let h := side / 2 in
  let s := side in
  [mkWall (- h) (- h) h (- h) s wallHeight wallThickness [];
   mkWall h (- h) h h s wallHeight wallThickness [];
   mkWall h h (- h) h s wallHeight wallThickness [];
   mkWall (- h) h (- h) (- h) s wallHeight wallThickness []].

Record Bounds := mkBounds {
  minX : number; maxX : number; minZ : number; maxZ : number
}.

Definition bounds (walls : list Wall) : option Bounds :=
  let xs := flat_map (fun w => [x1 w; x2 w]) walls in
  let zs := flat_map (fun w => [z1 w; z2 w]) walls in
  match xs, zs with
  | x0 :: xs', z0 :: zs' =>
      Some {| minX := Math_min_list x0 xs';
              maxX := Math_max_list x0 xs';
              minZ := Math_min_list z0 zs';
              maxZ := Math_max_list z0 zs' |}
  | _, _ => None
  end.

(** [v || 0] on a number. *)
Definition orZero (v : number) : number := if Qeq_bool v 0 then 0 else v.

Definition currentMaxThickness (walls : list Wall) : number :=
  fold_left (fun m w => Math_max m (orZero (thickness w))) walls (15 # 100).

Definition currentOverhang (walls : list Wall) (overhangFactor : number)
  : number :=
  Math_max 0 (currentMaxThickness walls * overhangFactor).

(** [updatedWalls[i] = v] for an index that the guard of the callers
    keeps below the length. *)
Fixpoint setIndex (i : nat) (v : Wall) (l : list Wall) : list Wall :=
  match l, i with
  | [], _ => []
  | _ :: rest, O => v :: rest
  | w :: rest, S i' => w :: setIndex i' v rest
  end.

Definition inRange (st : State) : bool :=
  (0 <=? selectedWall st)%Z
  && (selectedWall st <? Z.of_nat (List.length (walls st)))%Z.

Definition setWalls (st : State) (ws : list Wall) : State :=
  mkState ws (selectedWall st) (windowWidth st) (windowHeight st)
          (windowStyle st) (windowPosition st).

Definition with_windows (w : Wall) (l : list Window) : Wall :=
  mkWall (x1 w) (z1 w) (x2 w) (z2 w) (length w) (height w) (thickness w) l.

(** The selected wall; the default is never reached under [inRange]. *)
Definition nthWall (st : State) : option Wall :=
  nth_error (walls st) (Z.to_nat (selectedWall st)).

Definition addWindow (st : State) : State :=
  if inRange st then
    match nthWall st with
    | Some wall =>
        let newWindow :=
          mkWindow (Math_min (windowPosition st) (length wall - (1 # 2)))
                   (windowWidth st) (windowHeight st) (windowStyle st) in
        setWalls st
          (setIndex (Z.to_nat (selectedWall st))
                    (with_windows wall (windows wall ++ [newWindow]))
                    (walls st))
    | None => st
    end
  else st.

Definition removeLastWindow (st : State) : State :=
  if inRange st then
    match nthWall st with
    | Some wall =>
        if (0 <? List.length (windows wall))%nat then
          setWalls st
            (setIndex (Z.to_nat (selectedWall st))
                      (with_windows wall (removelast (windows wall)))
                      (walls st))
        else st
    | None => st
    end
  else st.

(** [walls.slice(0, -1)]. *)
Definition deleteLast (st : State) : State :=
  setWalls st (removelast (walls st)).

(** The fields of a wall that [estimateMaterials] reads. *)
Definition measured (w : Wall) : Estimator.Wall :=
  Estimator.mkWall (length w) (height w).

End HousePlanner.

(** ** The plot validator *)

Module PlotValidator.
Import Builder.

Definition isPointInsidePlot (point : Point2D) (plotBounds : PlotBounds)
  : bool :=
  let halfWidth := width plotBounds / 2 in
  let halfDepth := depth plotBounds / 2 in
  leb (- halfWidth) (x point) && leb (x point) halfWidth
  && leb (- halfDepth) (z point) && leb (z point) halfDepth.

(** The messages pushed to [errors], by what they report; the walls are
    numbered from 1 in the messages. *)
Inductive ValidationError :=
| PlotAreaExceeds (currentPlotArea maxPlotArea : number)
| StartOutside (wallNumber : nat)
| EndOutside (wallNumber : nat).

(** What the body of [walls.forEach] pushes to [errors] for one wall. *)
Definition checkWall (plotBounds : PlotBounds) (index : nat) (wall : Wall)
  (errors : list ValidationError) : list ValidationError :=
  let errors :=
    if negb (isPointInsidePlot (start wall) plotBounds)
    then errors ++ [StartOutside (index + 1)] else errors in
  if negb (isPointInsidePlot (end_ wall) plotBounds)
  then errors ++ [EndOutside (index + 1)] else errors.

Fixpoint forEachWall (plotBounds : PlotBounds) (index : nat)
  (walls : list Wall) (errors : list ValidationError)
  : list ValidationError :=
  match walls with
  | [] => errors
  | wall :: rest =>
      forEachWall plotBounds (S index) rest
        (checkWall plotBounds index wall errors)
  end.

(** The [errors] of the validation; [maxPlotArea] defaults to 200.  The
    warnings and the suggestions do not enter [isValid]. *)
Definition validationErrors (plotBounds : PlotBounds) (walls : list Wall)
  (maxPlotArea : option number) : list ValidationError :=
  let maxPlotArea := match maxPlotArea with Some v => v | None => 200 end in
  let currentPlotArea := width plotBounds * depth plotBounds in
  let errors :=
    if ltb maxPlotArea currentPlotArea
    then [PlotAreaExceeds currentPlotArea maxPlotArea] else [] in
  forEachWall plotBounds 0 walls errors.

Definition isValid (plotBounds : PlotBounds) (walls : list Wall)
  (maxPlotArea : option number) : bool :=
  (List.length (validationErrors plotBounds walls maxPlotArea) =? 0)%nat.

End PlotValidator.

(** * The vocabulary of the properties *)

(** ** The cost estimator *)

Section EstimatorTerms.
Import Estimator.

Definition accumulateArea (r : Results) (w : Wall) : Results :=
  set_totalWallArea r (totalWallArea r + wallArea (length w) (height w)).

(** The flat multiply-accumulate model, in the words of the
    specification. *)
Definition flatModel (walls : list Wall) (roofArea : number) (config : Rates)
  : Results :=
  let area := sumQ (map (fun w => length w * height w) walls) in
  let blocks := inject_Z (Qceiling (area / hollowblock_size_sqm config)) in
  let bags := inject_Z (Qceiling (area * cement_bag_per_sqm config)) in
  let rebar := sumQ (map length walls) * 2 * rebar_price_per_kg config in
  let labor := area * labor_per_sqm config in
  let material :=
    blocks * hollowblock_per_piece config + bags * cement_price_per_bag config
    + rebar + roofArea * roof_price_per_sqm config in
  {| totalWallArea := area;
     hollowblock_count := blocks;
     cement_bags := bags;
     rebar_cost := rebar;
     material_cost := material;
     labor_cost := labor;
     total_cost := inject_Z (Qfloor (material + labor + (1 # 2))) |}.

(** Two results with equal numbers in every field. *)
Definition sameResults (a b : Results) : Prop :=
  totalWallArea a == totalWallArea b
  /\ hollowblock_count a == hollowblock_count b
  /\ cement_bags a == cement_bags b
  /\ rebar_cost a == rebar_cost b
  /\ material_cost a == material_cost b
  /\ labor_cost a == labor_cost b
  /\ total_cost a == total_cost b.

End EstimatorTerms.

Section EstimatorDoubleTerms.
Import Floats EstimatorDouble.
Local Open Scope float_scope.
Local Set Warnings "-inexact-float".

(** The sum of a list of floats as the code accumulates it: from 0, in
    the order of the list, every addition rounded. *)
Definition runningSum (l : list float) : float := fold_left PrimFloat.add l 0.

(** The flat multiply-accumulate model evaluated in binary64, the
    material cost accumulated from 0 in the order block, cement, rebar,
    roof. *)
Definition flatModelDouble (walls : list Wall) (roofArea : float)
  (config : Rates) : Results :=
  let area := runningSum (map (fun w => length w * height w) walls) in
  let blocks := Math_ceil (area / hollowblock_size_sqm config) in
  let bags := Math_ceil (area * cement_bag_per_sqm config) in
  let rebar := runningSum (map length walls) * 2 * rebar_price_per_kg config in
  let labor := area * labor_per_sqm config in
  let material :=
    0 + blocks * hollowblock_per_piece config
    + bags * cement_price_per_bag config
    + rebar + roofArea * roof_price_per_sqm config in
  {| totalWallArea := area;
     hollowblock_count := blocks;
     cement_bags := bags;
     rebar_cost := rebar;
     material_cost := material;
     labor_cost := labor;
     total_cost := Math_round (material + labor) |}.

(** The rational number that a finite float is; 0 for the others. *)
Definition exactValue (v : float) : Q :=
  match Prim2SF v with
  | S754_finite s m e =>
      ((if s then - inject_Z (Z.pos m) else inject_Z (Z.pos m))
       * Qpower 2 e)%Q
  | _ => 0%Q
  end.

(** The block count of the specification, in exact arithmetic on the
    numbers the floats are: the ceiling of the summed areas divided by
    the block size. *)
Definition exactBlocks (walls : list Wall) (config : Rates) : Z :=
  Qceiling
    (sumQ (map (fun w => exactValue (length w) * exactValue (height w))%Q
               walls)
     / exactValue (hollowblock_size_sqm config))%Q.

(** Three walls, and the same walls with the last two exchanged. *)
Definition threeWalls : list Wall :=
  [mkWall 3.3 0.3; mkWall 1.1 1; mkWall 0.5 0.3].

Definition threeWallsSwapped : list Wall :=
  [mkWall 3.3 0.3; mkWall 0.5 0.3; mkWall 1.1 1].

End EstimatorDoubleTerms.

(** ** The gabled roof area *)

Section RoofAreaTerms.
Import Reals Lra RoofArea.
Local Open Scope R_scope.

(** The footprint sides of the formula: the extent of the bounds on each
    axis, at least one millimetre. *)
Definition roofWidth (b : Bounds) : R := Rmax (1 / 1000) (Rabs (maxX b - minX b)).

Definition roofDepth (b : Bounds) : R := Rmax (1 / 1000) (Rabs (maxZ b - minZ b)).


End RoofAreaTerms.

(** ** The plot-area cap *)

Section PlotTerms.
Import Builder.

Definition plotArea (st : State) : number :=
  width (plotBounds (floorPlan st)) * depth (plotBounds (floorPlan st)).

(** The product a resize would produce. *)
Definition resizedArea (dimension : Dimension) (value : number) (st : State)
  : number :=
  match dimension with
  | dim_width => value * depth (plotBounds (floorPlan st))
  | dim_depth => width (plotBounds (floorPlan st)) * value
  end.

(** A sequence of slider moves. *)
Definition resizeAll (moves : list (Dimension * number)) (st : State) : State :=
  fold_left (fun s m => handlePlotResize (fst m) (snd m) s) moves st.

End PlotTerms.

(** ** At most two floors *)

Section FloorTerms.
Import Builder.

Inductive FloorOp :=
| AddFloorOp (newId : string)
| RemoveFloorOp (floorLevel : Z).

Definition applyFloorOp (st : State) (op : FloorOp) : State :=
  match op with
  | AddFloorOp newId => addFloor newId st
  | RemoveFloorOp floorLevel => removeFloor floorLevel st
  end.

Definition floorLevels (st : State) : list Z :=
  map level (floors (floorPlan st)).

(** The levels 1, 2, ..., n. *)
Definition consecutive (n : nat) : list Z :=
  map (fun i => Z.of_nat i + 1)%Z (seq 0 n).

(** The floors are numbered 1, or 1 and 2. *)
Definition floorsWellNumbered (st : State) : Prop :=
  floorLevels st = [1%Z] \/ floorLevels st = [1%Z; 2%Z].

Definition twoFloors : State := addFloor "f2" initialState.

End FloorTerms.

(** ** Wall placement *)

Section WallTerms.
Import Builder.

(** The plot rectangle [-width/2, width/2] x [-depth/2, depth/2]. *)
Definition inPlotRectangle (b : PlotBounds) (p : Point2D) : Prop :=
  (- (width b / 2) <= x p /\ x p <= width b / 2)
  /\ (- (depth b / 2) <= z p /\ z p <= depth b / 2).

(** The bounding box of a footprint. *)
Definition inFootprint (f : Footprint) (p : Point2D) : Prop :=
  (minX f <= x p /\ x p <= maxX f) /\ (minZ f <= z p /\ z p <= maxZ f).

Definition outsidePoint : Point2D := mkPoint 11 0.

(** The box around the end points of a list of walls, as
    [getFloor1Footprint] computes it for the walls of floor 1. *)
Definition footprintOf (ws : list Wall) : option Footprint :=
  let xs := flat_map (fun wall => [x (start wall); x (end_ wall)]) ws in
  let zs := flat_map (fun wall => [z (start wall); z (end_ wall)]) ws in
  match xs, zs with
  | x0 :: xs', z0 :: zs' =>
      Some {| minX := Math_min_list x0 xs';
              maxX := Math_max_list x0 xs';
              minZ := Math_min_list z0 zs';
              maxZ := Math_max_list z0 zs' |}
  | _, _ => None
  end.


(** A wall lies inside the footprint of floor 1 and inside the plot. *)
Definition wallInside (fp : FloorPlan) (w : Wall) : Prop :=
  exists f, getFloor1Footprint fp = Some f
            /\ inFootprint f (start w) /\ inFootprint f (end_ w)
            /\ inPlotRectangle (plotBounds fp) (start w)
            /\ inPlotRectangle (plotBounds fp) (end_ w).

Definition upperWallsInside (st : State) : Prop :=
  forall (f : Floor) (w : Wall),
    In f (floors (floorPlan st)) -> (1 < level f)%Z -> In w (walls f) ->
    wallInside (floorPlan st) w.

(** A first floor with one wall, a second floor, and a wall on the
    second floor under the first one. *)
Definition twoStoreys : State :=
  addWall "w2" (mkPoint (-1) (-1)) (mkPoint 1 1) 2
    (addFloor "f2"
       (addWall "w1" (mkPoint (-2) (-2)) (mkPoint 2 2) 1 initialState)).

End WallTerms.

(** ** Window and door positions *)

Section PositionTerms.
Import Builder.

(** The handlers of the builder as operations on its state. *)
Inductive Op :=
| OpPlotResize (dimension : Dimension) (value : number)
| OpAddWall (newId : string) (s e : Point2D) (floorLevel : Z)
| OpDeleteWall (wallId : string) (floorLevel : Z)
| OpAddWindow (newId wallId : string) (floorLevel : Z)
| OpAddDoor (newId wallId : string) (floorLevel : Z)
| OpUpdateWindowPosition (wallId windowId : string) (newPosition : number)
    (floorLevel : Z)
| OpUpdateDoorPosition (wallId doorId : string) (newPosition : number)
    (floorLevel : Z)
| OpAddFloor (newId : string)
| OpRemoveFloor (floorLevel : Z)
| OpSelectFloor (floorLevel : Z).

Definition applyOp (st : State) (op : Op) : State :=
  match op with
  | OpPlotResize dimension value => handlePlotResize dimension value st
  | OpAddWall newId s e floorLevel => addWall newId s e floorLevel st
  | OpDeleteWall wallId floorLevel => deleteWall wallId floorLevel st
  | OpAddWindow newId wallId floorLevel => addWindow newId wallId floorLevel st
  | OpAddDoor newId wallId floorLevel => addDoor newId wallId floorLevel st
  | OpUpdateWindowPosition wallId windowId newPosition floorLevel =>
      updateWindowPosition wallId windowId newPosition floorLevel st
  | OpUpdateDoorPosition wallId doorId newPosition floorLevel =>
      updateDoorPosition wallId doorId newPosition floorLevel st
  | OpAddFloor newId => addFloor newId st
  | OpRemoveFloor floorLevel => removeFloor floorLevel st
  | OpSelectFloor floorLevel => setCurrentFloor floorLevel st
  end.

Definition allWalls (st : State) : list Wall :=
  flat_map walls (floors (floorPlan st)).

Definition allWindows (st : State) : list Window :=
  flat_map windows (allWalls st).

Definition allDoors (st : State) : list Door :=
  flat_map doors (allWalls st).







Definition between (lo hi p : number) : Prop := lo <= p /\ p <= hi.





(** A wall with a window pushed to the far end and a door pulled before
    the near end. *)
Definition furnished : State :=
  fold_left applyOp
    [OpAddWall "w1" origin (mkPoint 4 0) 1;
     OpAddWindow "n1" "w1" 1;
     OpAddDoor "d1" "w1" 1;
     OpUpdateWindowPosition "w1" "n1" (3 # 2) 1;
     OpUpdateDoorPosition "w1" "d1" (- (1)) 1]
    initialState.

End PositionTerms.

(** ** The shoelace formula *)

Section ShoelaceTerms.

Definition unitSquare : list Point2D :=
  [mkPoint 0 0; mkPoint 1 0; mkPoint 1 1; mkPoint 0 1].

End ShoelaceTerms.

(** ** The perimeter walk terminates *)

Section WalkTerms.
Import RoofMesh.

(** What one successful pass of the [for] loop does: it marks one segment
    that was not used and appends the far end point of that segment. *)
Definition marksOne (wallSegments : list Segment) (w w' : Walk) : Prop :=
  exists (i : nat) (segment : Segment),
    nth_error wallSegments i = Some segment
    /\ has i (usedSegments w) = false
    /\ usedSegments w' = add i (usedSegments w)
    /\ size (usedSegments w') = S (size (usedSegments w))
    /\ ((orderedPoints w' = orderedPoints w ++ [end_ segment]
         /\ currentPoint w' = end_ segment)
        \/ (orderedPoints w' = orderedPoints w ++ [start segment]
            /\ currentPoint w' = start segment)).

(** What one successful turn of the room walk does. *)
Definition marksOneWall (walls : list RoomManager.Wall)
  (w w' : RoomManager.Walk) : Prop :=
  exists nextWall : RoomManager.Wall,
    In nextWall walls
    /\ RoomManager.has (RoomManager.id nextWall) (RoomManager.usedWalls w) = false
    /\ RoomManager.usedWalls w'
       = RoomManager.add (RoomManager.id nextWall) (RoomManager.usedWalls w)
    /\ RoomManager.size (RoomManager.usedWalls w')
       = S (RoomManager.size (RoomManager.usedWalls w))
    /\ (RoomManager.points w'
        = RoomManager.points w ++ [RoomManager.end_ nextWall]
        \/ RoomManager.points w'
           = RoomManager.points w ++ [RoomManager.start nextWall]).

(** The four sides of a 4 m by 3 m house, the third one drawn backwards. *)
Definition houseSegments : list Segment :=
  [mkSegment (mkPoint 0 0) (mkPoint 4 0);
   mkSegment (mkPoint 4 0) (mkPoint 4 3);
   mkSegment (mkPoint 0 3) (mkPoint 4 3);
   mkSegment (mkPoint 0 3) (mkPoint 0 0)].

Definition houseWalls : list RoomManager.Wall :=
  [RoomManager.mkWall "a" (mkPoint 0 0) (mkPoint 4 0);
   RoomManager.mkWall "b" (mkPoint 4 0) (mkPoint 4 3);
   RoomManager.mkWall "c" (mkPoint 0 3) (mkPoint 4 3);
   RoomManager.mkWall "d" (mkPoint 0 3) (mkPoint 0 0)].

Definition houseStart : RoomManager.Walk :=
  RoomManager.mkWalk [mkPoint 0 0] ["a"%string] ["a"%string] (mkPoint 0 0).

End WalkTerms.

(** ** Snapping to the grid *)

Section GridTerms.
Import Designer.

(** A coordinate, and a point, on the 0.5 m grid. *)
Definition onGridLine (v : number) : Prop :=
  exists k : Z, v == inject_Z k * defaultGridSize.

Definition onGrid (p : Point2D) : Prop := onGridLine (x p) /\ onGridLine (z p).

Definition endpoints (ws : list Wall) : list Point2D :=
  flat_map (fun w => [start w; end_ w]) ws.

(** On the grid, or an end point of one of the walls [ws]. *)
Definition anchored (ws : list Wall) (p : Point2D) : Prop :=
  onGrid p \/ In p (endpoints ws).

(** The state after the clicks and tool changes of the user; [rect] tells
    whether clicks with the rectangle tool are among them. *)
Inductive sketched (rect : bool) (st0 : State) : State -> Prop :=
| sketched_start : sketched rect st0 st0
| sketched_tool st t : sketched rect st0 st -> sketched rect st0 (setTool t st)
| sketched_click st newId canvasPoint :
    sketched rect st0 st ->
    rect = true \/ tool st <> tool_rectangle ->
    sketched rect st0 (handleMouseDown newId canvasPoint st).

(** Every wall end and the pending start point satisfy [P]. *)
Definition allPoints (P : Point2D -> Prop) (st : State) : Prop :=
  (forall w, In w (walls st) -> P (start w) /\ P (end_ w))
  /\ (forall p, drawingStart st = Some p -> P p).

(** A wall that exists off the grid, from (0.25, 0.25) to (2.25, 0.25),
    and the wall tool selected. *)
Definition offGridWall : Wall :=
  mkWall "w0" (mkPoint (1 # 4) (1 # 4)) (mkPoint (9 # 4) (1 # 4)) 3 (15 # 100)
         [] [] "concrete".

Definition offGridStart : State :=
  mkState [offGridWall] 3 (15 # 100) "concrete" false None None tool_wall.

Definition emptyStart : State :=
  mkState [] 3 (15 # 100) "concrete" false None None tool_rectangle.

Definition drawnIds (i : nat) : string :=
  match i with
  | 0%nat => "n0"
  | 1%nat => "n1"
  | 2%nat => "n2"
  | _ => "n3"
  end.

(** A click next to the end of the existing wall, then a click at
    (3, 3). *)
Definition firstClick : State :=
  handleMouseDown drawnIds (mkPoint 255 295) offGridStart.

Definition wallDrawn : State :=
  handleMouseDown drawnIds (mkPoint 310 240) firstClick.

Definition roomDrawn : State :=
  handleMouseDown drawnIds (mkPoint 310 240)
    (handleMouseDown drawnIds (mkPoint 250 300) emptyStart).

(** The same two clicks with the rectangle tool selected in between: the
    pending start point (0.25, 0.25) becomes a rectangle corner. *)
Definition mixedTools : State :=
  handleMouseDown drawnIds (mkPoint 310 240)
    (setTool tool_rectangle firstClick).

Definition strayCorner : Point2D := end_ (nth 1 (walls mixedTools) offGridWall).

(** Two points with equal coordinates. *)
Definition samePoint (p q : Point2D) : Prop := x p == x q /\ z p == z q.

End GridTerms.

(** ** The drawing surface, further *)

Section DrawingTerms.
Import Designer.

(** Longer than 0.1 m, the test of the wall tool. *)
Definition longEnough (w : Wall) : Prop :=
  distance_gt (start w) (end_ w) (1 # 10) = true.

(** A wall runs along one of the axes. *)
Definition axisAligned (w : Wall) : Prop :=
  x (start w) = x (end_ w) \/ z (start w) = z (end_ w).

(** What the canvas draws of a wall: its identifier and its two ends. *)
Definition outline (w : Wall) : string * Point2D * Point2D :=
  (id w, start w, end_ w).

(** A drawing with two walls of different identifiers. *)
Definition twoWalls : State :=
  mkState [mkWall "a" origin (mkPoint 4 0) 3 (15 # 100) [] [] "concrete";
           mkWall "b" (mkPoint 4 0) (mkPoint 4 3) 3 (15 # 100) [] [] "concrete"]
          3 (15 # 100) "concrete" false None None tool_select.

End DrawingTerms.

(** ** Areas, further *)

Section AreaTerms.

(** A point moved by [a] along x and [b] along z. *)
Definition translate (a b : number) (p : Point2D) : Point2D :=
  mkPoint (x p + a) (z p + b).

(** A point of the drawing surface: on the 0.5 m grid, within the 25 m
    by 30 m that the canvas shows.  On such points the coordinates are
    halves of small integers, and the products and sums of the area loop
    are computed without rounding. *)
Definition onSurface (p : Point2D) : Prop :=
  onGrid p
  /\ (- (25 # 2) <= x p /\ x p <= 25 # 2)
  /\ (- (15) <= z p /\ z p <= 15).

(** The unit square moved two metres east and half a metre north. *)
Definition movedSquare : list Point2D :=
  [mkPoint 2 (1 # 2); mkPoint 3 (1 # 2); mkPoint 3 (3 # 2);
   mkPoint 2 (3 # 2)].

End AreaTerms.

(** ** The cost estimator, further *)

Section EstimateTerms.
Import Estimator.

(** A rate table without negative prices or quantities, the block size
    positive: the table [rates] is one. *)
Definition sensibleRates (config : Rates) : Prop :=
  0 <= hollowblock_per_piece config
  /\ 0 < hollowblock_size_sqm config
  /\ 0 <= cement_bag_per_sqm config
  /\ 0 <= cement_price_per_bag config
  /\ 0 <= rebar_price_per_kg config
  /\ 0 <= labor_per_sqm config
  /\ 0 <= roof_price_per_sqm config.

End EstimateTerms.

(** ** The design state, further *)

Section BuilderTerms.
Import Builder.

(** A support beam as [generateSupportBeams] makes them: a post of the
    given height under floor 2, at an end of one of the walls [ws]. *)
Definition postUnder (ws : list Wall) (floorHeight : number) (b : Beam)
  : Prop :=
  beam_start b = beam_end b
  /\ beam_floorLevel b = 1%Z
  /\ beam_height b = floorHeight
  /\ exists w, In w ws /\ (beam_start b = start w \/ beam_start b = end_ w).

(** No wall of the floors of level [lvl] carries the identifier. *)
Definition freshWallId (newId : string) (lvl : Z) (st : State) : Prop :=
  forall f w,
    In f (floors (floorPlan st)) -> level f = lvl -> In w (walls f) ->
    wall_id w <> newId.

(** States reached through the floor buttons: a floor is added, a floor
    that is shown is removed, a floor that is shown is selected. *)
Inductive browsed : State -> Prop :=
| browsed_init : browsed initialState
| browsed_addFloor st newId : browsed st -> browsed (addFloor newId st)
| browsed_removeFloor st lvl :
    browsed st -> In lvl (floorLevels st) -> browsed (removeFloor lvl st)
| browsed_select st lvl :
    browsed st -> In lvl (floorLevels st) -> browsed (setCurrentFloor lvl st).

(** The staircases of the plan. *)
Definition stairsOf (s : StairState) : list Staircase :=
  staircases (floorPlan (builder s)).

(** The initial builder with the default staircase settings. *)
Definition stairStart (st : State) : StairState :=
  mkStairState st None (12 # 10) "straight" "#8B7355".

(** A wall of the ground floor and a wall far from it. *)
Definition groundWall : Wall :=
  mkWall "near" (mkPoint (-2) (-2)) (mkPoint 2 2) 3 (15 # 100) [] []
         "concrete" "#d1d5db" solid.

Definition offPlanWall : Wall :=
  mkWall "far" (mkPoint 5 5) (mkPoint 7 5) 3 (15 # 100) [] []
         "concrete" "#d1d5db" solid.

(** The page at work: the drawing surface hands over the ground wall for
    the current floor, a second floor is added and becomes the current
    one, and the surface hands over the far wall for it. *)
Definition groundDrawn : State :=
  handleWallsChange [groundWall] (currentFloor initialState) initialState.

Definition secondFloor : State := addFloor "f2" groundDrawn.

Definition farDrawn : State :=
  handleWallsChange [offPlanWall] (currentFloor secondFloor) secondFloor.

(** The drawing surface of the new second floor: no walls yet, the wall
    tool selected, nothing being drawn. *)
Definition emptySurface : Designer.State :=
  Designer.mkState [] 3 (15 # 100) "concrete" false None None
                   Designer.tool_wall.

End BuilderTerms.

(** ** The square house planner *)

Section PlannerTerms.
Import HousePlanner.

(** The planner as it opens: the 10 m square, its first wall selected
    and the default window settings. *)
Definition plannerStart : State :=
  mkState (makeRectangleWalls defaultSideMeters None None) 0
          (12 # 10) 1 "rect" 5.

End PlannerTerms.

(** ** The validation of the builder's plan *)

Section ValidatorTerms.
Import Builder PlotValidator.

(** The validator as the builder mounts it: on the plot bounds, on the
    walls of all floors and with the builder's cap. *)
Definition planErrors (st : State) : list ValidationError :=
  validationErrors (plotBounds (floorPlan st))
                   (flat_map walls (floors (floorPlan st))) (Some maxPlotArea).

Definition planValid (st : State) : bool :=
  isValid (plotBounds (floorPlan st))
          (flat_map walls (floors (floorPlan st))) (Some maxPlotArea).

(** States the page reaches: floors added, removed and selected, the
    walls of a floor replaced by what the drawing surface hands over,
    walls deleted, windows and doors added and moved, the plot resized. *)
Inductive edited : State -> Prop :=
| edited_init : edited initialState
| edited_addFloor st newId : edited st -> edited (addFloor newId st)
| edited_removeFloor st lvl : edited st -> edited (removeFloor lvl st)
| edited_select st lvl : edited st -> edited (setCurrentFloor lvl st)
| edited_wallsChange st newWalls floorLevel :
    edited st -> edited (handleWallsChange newWalls floorLevel st)
| edited_deleteWall st wallId floorLevel :
    edited st -> edited (deleteWall wallId floorLevel st)
| edited_addWindow st newId wallId floorLevel :
    edited st -> edited (addWindow newId wallId floorLevel st)
| edited_addDoor st newId wallId floorLevel :
    edited st -> edited (addDoor newId wallId floorLevel st)
| edited_moveWindow st wallId windowId newPosition floorLevel :
    edited st ->
    edited (updateWindowPosition wallId windowId newPosition floorLevel st)
| edited_moveDoor st wallId doorId newPosition floorLevel :
    edited st ->
    edited (updateDoorPosition wallId doorId newPosition floorLevel st)
| edited_resize st dimension value :
    edited st -> edited (handlePlotResize dimension value st).

(** Both ends of a wall inside the plot rectangle. *)
Definition wallInPlot (b : PlotBounds) (w : Wall) : Prop :=
  inPlotRectangle b (start w) /\ inPlotRectangle b (end_ w).

(** The walls of all floors, as the builder hands them to the
    validator. *)
Definition planWalls (st : State) : list Wall :=
  flat_map walls (floors (floorPlan st)).

(** A wall near the east border handed over by the drawing surface, and
    the plot then narrowed to 10 m. *)
Definition narrowedPlot : State :=
  handlePlotResize dim_width 10
    (handleWallsChange
       [mkWall "w1" (mkPoint 9 0) (mkPoint 9 4) 3 (15 # 100) [] []
               "concrete" "#d1d5db" solid]
       1 initialState).

(** A wall beyond the east border of the initial plot handed over by the
    drawing surface. *)
Definition beyondPlot : State :=
  handleWallsChange
    [mkWall "w1" (mkPoint 11 0) (mkPoint 12 0) 3 (15 # 100) [] []
            "concrete" "#d1d5db" solid]
    1 initialState.

End ValidatorTerms.

(** ** Rooms *)

Section RoomTerms.
Import RoomManager.

(** What the walk of [findEnclosedArea] keeps true from its first wall
    on: one identifier per point, no identifier twice, the identifiers
    being those of the set of used walls and all of them identifiers of
    the given walls, and every point an end of one of the walls. *)
Definition tracing (walls : list Wall) (first : Wall) (w : Walk) : Prop :=
  NoDup (wallIds w)
  /\ incl (wallIds w) (map id walls)
  /\ (forall i, In i (wallIds w) <-> set_In i (usedWalls w))
  /\ List.length (wallIds w) = List.length (points w)
  /\ hd_error (wallIds w) = Some (id first)
  /\ hd_error (points w) = Some (start first)
  /\ Forall (fun p => exists wall,
                 In wall walls /\ (p = start wall \/ p = end_ wall))
            (points w).

(** A wall of the drawing surface as the room manager reads it. *)
Definition roomWall (w : Designer.Wall) : Wall :=
  mkWall (Designer.id w) (Designer.start w) (Designer.end_ w).

(** A triangle whose first side was drawn twice. *)
Definition doubledTriangle : list Wall :=
  [mkWall "a" (mkPoint 0 0) (mkPoint 4 0);
   mkWall "b" (mkPoint 0 0) (mkPoint 4 0);
   mkWall "c" (mkPoint 4 0) (mkPoint 4 3);
   mkWall "d" (mkPoint 4 3) (mkPoint 0 0)].

End RoomTerms.

(** ** The outline of the roof *)

Section RoofTerms.
Import RoofMesh.

(** The walls of the highest floor. *)
Definition topFloorWalls (floorPlan : Builder.FloorPlan) : list Builder.Wall :=
  match highestFloor (Builder.floors floorPlan) with
  | Some floor => Builder.walls floor
  | None => []
  end.

Definition wallEnds (walls : list Builder.Wall) : list Point2D :=
  flat_map (fun wall => [Builder.start wall; Builder.end_ wall]) walls.

(** In each coordinate the point is at most the overhang away from one
    of the given points. *)
Definition withinOverhang (pts : list Point2D) (p : Point2D) : Prop :=
  exists qx qz : Point2D,
    In qx pts /\ In qz pts
    /\ Qabs (x p - x qx) <= overhang /\ Qabs (z p - z qz) <= overhang.

(** One wall on the only floor. *)
Definition oneWallPlan : Builder.FloorPlan :=
  Builder.floorPlan
    (Builder.addWall "w1" origin (mkPoint 4 0) 1 Builder.initialState).

End RoofTerms.

(** * Properties *)

(** ** The cost estimator *)

Section EstimatorFacts.
Import Estimator.

Lemma fold_left_sumQ {A : Type} (f : A -> number) (l : list A) (a : number) :
  fold_left (fun s v => s + f v) l a == a + sumQ (map f l).
Proof.
  revert a; induction l as [|v l IH]; intros a; simpl.
  - ring.
  - rewrite IH. ring.
Qed.

Lemma accumulateArea_total (walls : list Wall) (r : Results) :
  totalWallArea (fold_left accumulateArea walls r)
  == totalWallArea r + sumQ (map (fun w => length w * height w) walls).
Proof.
  revert r; induction walls as [|w walls IH]; intros r; simpl.
  - ring.
  - rewrite IH. unfold accumulateArea, wallArea; simpl. ring.
Qed.

Lemma accumulateArea_others (walls : list Wall) (r : Results) :
  let r' := fold_left accumulateArea walls r in
  hollowblock_count r' = hollowblock_count r
  /\ cement_bags r' = cement_bags r
  /\ rebar_cost r' = rebar_cost r
  /\ material_cost r' = material_cost r
  /\ labor_cost r' = labor_cost r
  /\ total_cost r' = total_cost r.
Proof.
  revert r; induction walls as [|w walls IH]; intros r; simpl.
  - repeat split.
  - specialize (IH (accumulateArea r w)). simpl in IH. exact IH.
Qed.

(** The estimate of two walls of 4 m and 2.5 m, 3 m high, under a 24 sqm
    roof, in exact arithmetic: 244 blocks, 9 bags, 18075 in all. *)
Example estimateMaterials_example :
  let r := estimateMaterials [mkWall 4 3; mkWall (5 # 2) 3] 24 rates in
  hollowblock_count r == 244 /\ cement_bags r == 9 /\ total_cost r == 18075.
Proof. vm_compute. repeat split. Qed.

End EstimatorFacts.

(** ** The cost estimate in binary64 *)

Section EstimatorDoubleFacts.
Import Floats EstimatorDouble.
Local Open Scope float_scope.
Local Set Warnings "-inexact-float".

Lemma accumulate_fold (walls : list Wall) (a b c d e f g : float) :
  fold_left
    (fun r w =>
       let area := wallArea (length w) (height w) in
       set_totalWallArea r (totalWallArea r + area))
    walls (mkResults a b c d e f g)
  = mkResults (fold_left (fun s w => s + length w * height w) walls a)
              b c d e f g.
Proof.
  revert a; induction walls as [|w walls IH]; intros a; [reflexivity | ].
  cbn [fold_left]. unfold set_totalWallArea at 2.
  cbn [totalWallArea hollowblock_count cement_bags rebar_cost material_cost
       labor_cost total_cost].
  rewrite IH. reflexivity.
Qed.

Lemma fold_left_running {A : Type} (f : A -> float) (l : list A) (a : float) :
  fold_left (fun s v => s + f v) l a = fold_left PrimFloat.add (map f l) a.
Proof.
  revert a; induction l as [|v l IH]; intros a; [reflexivity | ].
  cbn [fold_left map]. apply IH.
Qed.

(** C1, as the code computes it.  [estimateMaterials] returns the flat
    multiply-accumulate model evaluated in binary64: the total wall area
    is the sum of length times height accumulated from 0 in the order of
    the walls, the block count the ceiling of that area divided by the
    block size, the cement bags the ceiling of the area times the bags
    per square metre, the rebar cost the accumulated lengths times 2
    times the rebar price, the labour cost the area times the labour
    rate, the material cost the block, cement, rebar and roof cost added
    in that order, and the total cost the rounding of material plus
    labour cost; every sum, product and quotient is rounded to the
    nearest float. *)
Theorem estimateMaterials_double_model (walls : list Wall) (roofArea : float)
  (config : Rates) :
  estimateMaterials walls roofArea config
  = flatModelDouble walls roofArea config.
Proof.
  unfold estimateMaterials, flatModelDouble, runningSum. cbv zeta.
  rewrite accumulate_fold.
  rewrite (fold_left_running (fun w => length w * height w) walls 0).
  rewrite (fold_left_running length walls 0).
  reflexivity.
Qed.

(** The estimate does not compute the block count of the specification.
    For the walls 3.3 by 0.3, 0.5 by 0.3 and 1.1 by 1 the areas
    accumulate to a float just above 2.24 and the code returns 29
    blocks, where the ceiling of the exact sum divided by the block size
    is 28; with the last two walls exchanged the code returns 28.  One
    wall 0.4 by 3 gets 16 blocks, 1.2 / 0.08 being 15. *)
Lemma estimateMaterials_rounds_sum :
  hollowblock_count (estimateMaterials threeWallsSwapped 0 rates) = 29
  /\ exactBlocks threeWallsSwapped rates = 28%Z
  /\ exactValue (hollowblock_count (estimateMaterials threeWallsSwapped 0 rates))
     <> inject_Z (exactBlocks threeWallsSwapped rates)
  /\ hollowblock_count (estimateMaterials threeWalls 0 rates) = 28
  /\ total_cost (estimateMaterials threeWallsSwapped 0 rates)
     <> total_cost (estimateMaterials threeWalls 0 rates)
  /\ hollowblock_count (estimateMaterials [mkWall 0.4 3] 0 rates) = 16
  /\ Qceiling ((4 # 10) * 3 / (8 # 100))%Q = 15%Z.
Proof.
  split; [vm_compute; reflexivity | ].
  split; [vm_compute; reflexivity | ].
  split; [vm_compute; discriminate | ].
  split; [vm_compute; reflexivity | ].
  split; [vm_compute; discriminate | ].
  split; vm_compute; reflexivity.
Qed.

End EstimatorDoubleFacts.

(** ** The gabled roof area *)

Section RoofAreaFacts.
Import Reals Lra RoofArea.
Local Open Scope R_scope.

Lemma halves_twice (a d s : R) : a / 2 * d * (1 / s) * 2 = a * d / s.
Proof.
  unfold Rdiv.
  transitivity (a * d * / s * (/ 2 * 2)); [ring | ].
  rewrite Rinv_l by lra. ring.
Qed.



End RoofAreaFacts.

(** ** The plot-area cap *)

Section PlotFacts.
Import Builder.

Lemma handlePlotResize_cases (dimension : Dimension) (value : number)
  (st : State) :
  (resizedArea dimension value st <= maxPlotArea
   /\ plotArea (handlePlotResize dimension value st)
      = resizedArea dimension value st)
  \/ (~ resizedArea dimension value st <= maxPlotArea
      /\ handlePlotResize dimension value st = st).
Proof.
  unfold handlePlotResize, resizedArea, plotArea, leb.
  destruct dimension; cbn [width depth];
    match goal with
    | |- context [Qle_bool ?a ?b] => destruct (Qle_bool a b) eqn:E
    end.
  all: try (left; split; [apply Qle_bool_iff; exact E | reflexivity]).
  all: right; split; [ | reflexivity];
    intros H; apply Qle_bool_iff in H; congruence.
Qed.

Lemma plot_cap_preserved (moves : list (Dimension * number)) (st : State) :
  plotArea st <= maxPlotArea -> plotArea (resizeAll moves st) <= maxPlotArea.
Proof.
  revert st; induction moves as [|[d v] moves IH]; intros st H; simpl.
  - exact H.
  - apply IH.
    destruct (handlePlotResize_cases d v st) as [[Hle Heq] | [_ Heq]];
      cbn [fst snd]; rewrite Heq; assumption.
Qed.

(** C3.  The plot-area cap is an invariant of the design state: from the
    initial 20 m by 10 m plot, after every sequence of [handlePlotResize]
    operations the product of the plot width and depth is at most the cap
    of 200 sqm; and a resize whose product would exceed the cap leaves the
    state, the plot bounds among it, unchanged. *)
Theorem plot_area_cap :
  (forall moves : list (Dimension * number),
     plotArea (resizeAll moves initialState) <= maxPlotArea)
  /\ (forall (dimension : Dimension) (value : number) (st : State),
        maxPlotArea < resizedArea dimension value st ->
        handlePlotResize dimension value st = st
        /\ plotBounds (floorPlan (handlePlotResize dimension value st))
           = plotBounds (floorPlan st)).
Proof.
  split.
  - intros moves. apply plot_cap_preserved. vm_compute. discriminate.
  - intros d v st Hlt.
    destruct (handlePlotResize_cases d v st) as [[Hle _] | [_ Heq]].
    + exfalso. apply (Qlt_not_le _ _ Hlt Hle).
    + rewrite Heq. split; reflexivity.
Qed.

(** Widening the initial plot to 20.5 m is refused; narrowing it to 10 m
    and then deepening it to 20 m is accepted. *)
Lemma plot_area_cap_witness :
  maxPlotArea < resizedArea dim_width (41 # 2) initialState
  /\ handlePlotResize dim_width (41 # 2) initialState = initialState
  /\ plotArea (resizeAll [(dim_width, 10); (dim_depth, 20)] initialState)
     <= maxPlotArea.
Proof.
  split; [ reflexivity | split ].
  - apply (proj2 plot_area_cap dim_width (41 # 2) initialState). reflexivity.
  - apply (proj1 plot_area_cap).
Defined.

Example resize_accepted :
  plotBounds (floorPlan (resizeAll [(dim_width, 10); (dim_depth, 20)]
                                   initialState))
  = mkPlotBounds 10 20.
Proof. reflexivity. Qed.

End PlotFacts.

(** ** At most two floors *)

Section FloorFacts.
Import Builder.

Lemma renumber_levels (l : list Floor) (index : nat) :
  map level (renumber index l)
  = map (fun i => Z.of_nat i + 1)%Z (seq index (List.length l)).
Proof.
  revert index; induction l as [|f l IH]; intros index; simpl.
  - reflexivity.
  - f_equal. apply IH.
Qed.

Lemma renumber_length (l : list Floor) (index : nat) :
  List.length (renumber index l) = List.length l.
Proof.
  revert index; induction l as [|f l IH]; intros index; simpl; auto.
Qed.

Lemma renumber_In (l : list Floor) (index : nat) (f : Floor) :
  In f l -> exists lvl, In (with_level f lvl) (renumber index l).
Proof.
  revert index; induction l as [|g l IH]; intros index; simpl.
  - intros [].
  - intros [-> | H].
    + eexists; left; reflexivity.
    + destruct (IH (S index) H) as [lvl Hl]. exists lvl; right; exact Hl.
Qed.

Lemma with_level_same (f : Floor) : with_level f (level f) = f.
Proof. destruct f; reflexivity. Qed.

(** What [removeFloor] does to the list of floors. *)
Lemma removeFloor_floors (floorLevel : Z) (st : State) :
  floors (floorPlan (removeFloor floorLevel st))
  = if (List.length (floors (floorPlan st)) <=? 1)%nat
    then floors (floorPlan st)
    else if (floorLevel =? 1)%Z then floors (floorPlan st)
    else renumber 0 (filter (fun floor => negb (level floor =? floorLevel)%Z)
                            (floors (floorPlan st))).
Proof.
  unfold removeFloor.
  destruct (List.length (floors (floorPlan st)) <=? 1)%nat; [reflexivity | ].
  destruct (floorLevel =? 1)%Z; [reflexivity | ].
  destruct (currentFloor st =? floorLevel)%Z; [reflexivity | ].
  destruct (floorLevel <? currentFloor st)%Z; reflexivity.
Qed.

Lemma addFloor_wellNumbered (newId : string) (st : State) :
  floorsWellNumbered st -> floorsWellNumbered (addFloor newId st).
Proof.
  unfold floorsWellNumbered, floorLevels, addFloor.
  intros [H | H].
  - destruct (floors (floorPlan st)) as [|f [|g l]] eqn:E; try discriminate.
    injection H as Hf. right. simpl. rewrite Hf. reflexivity.
  - destruct (floors (floorPlan st)) as [|f [|g [|h l]]] eqn:E;
      try discriminate.
    right. simpl. rewrite E. exact H.
Qed.

Lemma removeFloor_wellNumbered (floorLevel : Z) (st : State) :
  floorsWellNumbered st -> floorsWellNumbered (removeFloor floorLevel st).
Proof.
  unfold floorsWellNumbered, floorLevels.
  intros H. rewrite removeFloor_floors.
  destruct (List.length (floors (floorPlan st)) <=? 1)%nat eqn:E0; [exact H | ].
  destruct (floorLevel =? 1)%Z eqn:E1; [exact H | ].
  rewrite Z.eqb_sym in E1.
  destruct H as [H | H].
  - destruct (floors (floorPlan st)) as [|f [|g l]]; discriminate.
  - destruct (floors (floorPlan st)) as [|f [|g [|h l]]]; try discriminate.
    injection H as Hf Hg. cbn [filter]. rewrite Hf, Hg, E1.
    destruct (2 =? floorLevel)%Z; simpl; [left | right]; reflexivity.
Qed.

Lemma floorOps_wellNumbered (ops : list FloorOp) (st : State) :
  floorsWellNumbered st -> floorsWellNumbered (fold_left applyFloorOp ops st).
Proof.
  revert st; induction ops as [|op ops IH]; intros st H; simpl.
  - exact H.
  - apply IH. destruct op; simpl.
    + apply addFloor_wellNumbered, H.
    + apply removeFloor_wellNumbered, H.
Qed.

Lemma wellNumbered_consecutive (st : State) :
  floorsWellNumbered st ->
  (1 <= List.length (floors (floorPlan st)) <= 2)%nat
  /\ floorLevels st = consecutive (List.length (floors (floorPlan st))).
Proof.
  unfold floorsWellNumbered, floorLevels.
  intros [H | H]; pose proof (f_equal (@List.length Z) H) as Hl;
    rewrite length_map in Hl; rewrite H, Hl; simpl; split; (lia || reflexivity).
Qed.

(** C8.  The design has at most two floors.  In every state reached from
    the initial single-floor plan by [addFloor] and [removeFloor] the list
    of floors has one or two entries, numbered 1..n; [addFloor] leaves the
    state unchanged when two floors exist; [removeFloor] leaves the state
    unchanged when one floor is left, keeps every floor of level 1 (up to
    its renumbering), and whenever it removes something the remaining
    floors carry the consecutive levels 1..n. *)
Theorem at_most_two_floors :
  (forall ops : list FloorOp,
     let st := fold_left applyFloorOp ops initialState in
     (1 <= List.length (floors (floorPlan st)) <= 2)%nat
     /\ floorLevels st = consecutive (List.length (floors (floorPlan st))))
  /\ (forall (newId : string) (st : State),
        (2 <= List.length (floors (floorPlan st)))%nat ->
        addFloor newId st = st)
  /\ (forall (floorLevel : Z) (st : State),
        (List.length (floors (floorPlan st)) <= 1)%nat ->
        removeFloor floorLevel st = st)
  /\ (forall (floorLevel : Z) (st : State) (f : Floor),
        In f (floors (floorPlan st)) -> level f = 1%Z ->
        exists lvl,
          In (with_level f lvl) (floors (floorPlan (removeFloor floorLevel st))))
  /\ (forall (floorLevel : Z) (st : State),
        removeFloor floorLevel st <> st ->
        floorLevels (removeFloor floorLevel st)
        = consecutive (List.length (floors (floorPlan (removeFloor floorLevel st))))).
Proof.
  split; [ | split; [ | split; [ | split ] ] ].
  - intros ops. cbv zeta. apply wellNumbered_consecutive.
    apply floorOps_wellNumbered. left; reflexivity.
  - intros newId st H. unfold addFloor.
    apply Nat.leb_le in H. rewrite H. reflexivity.
  - intros floorLevel st H. unfold removeFloor.
    apply Nat.leb_le in H. rewrite H. reflexivity.
  - intros floorLevel st f Hin Hlvl. rewrite removeFloor_floors.
    destruct (List.length (floors (floorPlan st)) <=? 1)%nat;
      [exists (level f); rewrite with_level_same; exact Hin | ].
    destruct (floorLevel =? 1)%Z eqn:E1;
      [exists (level f); rewrite with_level_same; exact Hin | ].
    apply renumber_In. apply filter_In. split; [exact Hin | ].
    rewrite Hlvl. rewrite Z.eqb_sym, E1. reflexivity.
  - intros floorLevel st Hneq. unfold floorLevels.
    rewrite removeFloor_floors.
    destruct (List.length (floors (floorPlan st)) <=? 1)%nat eqn:E0;
      [exfalso; apply Hneq; unfold removeFloor; rewrite E0; reflexivity | ].
    destruct (floorLevel =? 1)%Z eqn:E1;
      [exfalso; apply Hneq; unfold removeFloor; rewrite E0, E1; reflexivity | ].
    rewrite renumber_levels, renumber_length. reflexivity.
Qed.

Lemma at_most_two_floors_witness :
  addFloor "f3" twoFloors = twoFloors
  /\ removeFloor 1 initialState = initialState
  /\ (exists lvl,
        In (with_level (mkFloor "1" 1 3 [] [] "#d1d5db" "concrete") lvl)
           (floors (floorPlan (removeFloor 2 twoFloors))))
  /\ floorLevels (removeFloor 2 twoFloors) = [1%Z].
Proof.
  destruct at_most_two_floors as (_ & Hadd & Hlast & Hkeep & Hren).
  split; [ apply Hadd; simpl; lia | ].
  split; [ apply Hlast; simpl; lia | ].
  split; [ apply Hkeep; [ left; reflexivity | reflexivity ] | ].
  apply (Hren 2%Z twoFloors). discriminate.
Defined.

Example floors_example :
  floorLevels (fold_left applyFloorOp
                 [AddFloorOp "a"; AddFloorOp "b"; RemoveFloorOp 2; AddFloorOp "c"]
                 initialState)
  = [1%Z; 2%Z].
Proof. reflexivity. Qed.

End FloorFacts.

(** ** Wall placement *)

Section WallFacts.
Import Builder.

Lemma leb_le (a b : Q) : leb a b = true <-> a <= b.
Proof. apply Qle_bool_iff. Qed.

Lemma withinPlot_iff (b : PlotBounds) (p : Point2D) :
  withinPlot b p = true <-> inPlotRectangle b p.
Proof.
  unfold withinPlot, inPlotRectangle.
  rewrite !andb_true_iff, !leb_le. tauto.
Qed.

Lemma isPointWithinBounds_plot (st : State) (p : Point2D) :
  isPointWithinBounds st p = true ->
  withinPlot (plotBounds (floorPlan st)) p = true.
Proof.
  unfold isPointWithinBounds.
  destruct (1 <? currentFloor st)%Z; [ | auto ].
  destruct (getFloor1Footprint (floorPlan st)); [ | discriminate ].
  intros H; apply andb_true_iff in H; tauto.
Qed.

Lemma addWall_cases (newId : string) (s e : Point2D) (floorLevel : Z)
  (st : State) :
  (isPointWithinBounds st s = true /\ isPointWithinBounds st e = true
   /\ addWall newId s e floorLevel st
      = setFloorPlan st
          (mapFloor floorLevel
             (fun floor =>
                with_walls floor
                  (walls floor
                   ++ [mkWall newId s e (wallHeight st) (wallThickness st)
                              [] [] (wallMaterial st) (wallColor st) solid]))
             (floorPlan st)))
  \/ ((isPointWithinBounds st s = false \/ isPointWithinBounds st e = false)
      /\ addWall newId s e floorLevel st = st).
Proof.
  unfold addWall.
  destruct (isPointWithinBounds st s), (isPointWithinBounds st e); simpl; auto.
Qed.

(** C6.  The plot bounds constrain wall placement, and a rejected
    placement changes nothing: when the start or the end point lies
    outside the plot rectangle, [addWall] returns the state it was given
    (floors, walls, staircases and bounds as they were); [addWall] changes
    the state only when both points lie within the rectangle, and a wall
    of the new state that no floor had before is the wall from start to
    end on a floor of the target level, both points within the
    rectangle. *)
Theorem addWall_within_plot (newId : string) (s e : Point2D) (floorLevel : Z)
  (st : State) :
  (~ inPlotRectangle (plotBounds (floorPlan st)) s
   \/ ~ inPlotRectangle (plotBounds (floorPlan st)) e ->
   addWall newId s e floorLevel st = st)
  /\ (addWall newId s e floorLevel st <> st ->
      inPlotRectangle (plotBounds (floorPlan st)) s
      /\ inPlotRectangle (plotBounds (floorPlan st)) e)
  /\ (forall (f' : Floor) (w : Wall),
        In f' (floors (floorPlan (addWall newId s e floorLevel st))) ->
        In w (walls f') ->
        (exists f, In f (floors (floorPlan st)) /\ In w (walls f))
        \/ (level f' = floorLevel /\ start w = s /\ end_ w = e
            /\ inPlotRectangle (plotBounds (floorPlan st)) s
            /\ inPlotRectangle (plotBounds (floorPlan st)) e)).
Proof.
  destruct (addWall_cases newId s e floorLevel st)
    as [(Hs & He & Heq) | [_ Heq]].
  - apply isPointWithinBounds_plot, withinPlot_iff in Hs.
    apply isPointWithinBounds_plot, withinPlot_iff in He.
    split; [ intros [H | H]; contradiction | ].
    split; [ auto | ].
    intros f' w Hf' Hw. rewrite Heq in Hf'.
    unfold mapFloor in Hf'. cbn [floorPlan setFloorPlan floors with_floors] in Hf'.
    apply in_map_iff in Hf'. destruct Hf' as (f & <- & Hf).
    destruct (level f =? floorLevel)%Z eqn:E; [ | left; exists f; auto].
    cbn [walls with_walls level] in *. apply in_app_or in Hw.
    destruct Hw as [Hw | [<- | []]]; [left; exists f; auto | right].
    apply Z.eqb_eq in E. cbn. auto.
  - split; [ auto | ].
    split; [ intros H; contradiction | ].
    intros f' w Hf' Hw. rewrite Heq in Hf'. left; exists f'; auto.
Qed.

Lemma addWall_within_plot_witness :
  addWall "w1" outsidePoint origin 1 initialState = initialState
  /\ inPlotRectangle (plotBounds (floorPlan initialState)) origin
  /\ inPlotRectangle (plotBounds (floorPlan initialState)) (mkPoint 4 0).
Proof.
  split.
  - apply (proj1 (addWall_within_plot "w1" outsidePoint origin 1 initialState)).
    left. intros [[_ H] _]. revert H. vm_compute. auto.
  - apply (proj1 (proj2 (addWall_within_plot "w1" origin (mkPoint 4 0) 1
                                             initialState))).
    vm_compute. discriminate.
Defined.

(** *** The footprint of floor 1 *)

Lemma Math_min_list_le (t : list Q) (h : Q) : Math_min_list h t <= h.
Proof.
  unfold Math_min_list, Math_min.
  revert h; induction t as [|a t IH]; intros h; simpl.
  - apply Qle_refl.
  - eapply Qle_trans; [apply IH | apply Q.le_min_l].
Qed.

Lemma Math_max_list_ge (t : list Q) (h : Q) : h <= Math_max_list h t.
Proof.
  unfold Math_max_list, Math_max.
  revert h; induction t as [|a t IH]; intros h; simpl.
  - apply Qle_refl.
  - eapply Qle_trans; [apply Q.le_max_l | apply IH].
Qed.


(** *** Upper floors and the footprint of floor 1 *)

(** C4.  The invariant does not hold of the page.  [addWall], which
    consults [isPointWithinBounds], is never called; the page adds walls
    through [handleWallsChange], which stores the walls the drawing
    surface hands over as they come.  With the wall (-2,-2)-(2,2) on
    floor 1 and a second floor added and current, the wall tool clicked
    at the canvas points (350, 200) and (390, 200) draws the wall
    (5,5)-(7,5).  [isPointWithinBounds] refuses both its ends and
    [addWall] would leave the state as it is, but [handleWallsChange]
    puts the wall on floor 2, outside the footprint of floor 1, and the
    support-beam effect then sets two posts under it. *)
Theorem upper_wall_outside_footprint :
  currentFloor secondFloor = 2%Z
  /\ (exists w,
        Designer.walls
          (Designer.handleMouseDown drawnIds (mkPoint 390 200)
             (Designer.handleMouseDown drawnIds (mkPoint 350 200)
                emptySurface))
        = [w]
        /\ samePoint (Designer.start w) (start offPlanWall)
        /\ samePoint (Designer.end_ w) (end_ offPlanWall))
  /\ isPointWithinBounds secondFloor (start offPlanWall) = false
  /\ isPointWithinBounds secondFloor (end_ offPlanWall) = false
  /\ addWall "far" (start offPlanWall) (end_ offPlanWall) 2 secondFloor
     = secondFloor
  /\ map (fun f => (level f, walls f)) (floors (floorPlan farDrawn))
     = [(1%Z, [groundWall]); (2%Z, [offPlanWall])]
  /\ ~ upperWallsInside farDrawn
  /\ map (fun f => (level f, List.length (beams f)))
         (floors (floorPlan (supportBeamsEffect farDrawn)))
     = [(1%Z, 2%nat); (2%Z, 0%nat)].
Proof.
  split; [reflexivity | ].
  split.
  { eexists. split; [reflexivity | ]. split; split; reflexivity. }
  split; [reflexivity | ]. split; [reflexivity | ]. split; [reflexivity | ].
  split; [reflexivity | ].
  split; [ | reflexivity].
  intros H.
  destruct (H (mkFloor "f2" 2 3 [offPlanWall] [] "#d1d5db" "concrete")
              offPlanWall) as (f & Hf & [[_ Hx] _] & _).
  - right; left; reflexivity.
  - reflexivity.
  - left; reflexivity.
  - vm_compute in Hf. injection Hf as <-. vm_compute in Hx.
    apply Hx. reflexivity.
Qed.

Example twoStoreys_walls :
  map (fun f => (level f, map wall_id (walls f))) (floors (floorPlan twoStoreys))
  = [(1%Z, ["w1"%string]); (2%Z, ["w2"%string])].
Proof. reflexivity. Qed.

End WallFacts.

(** ** Window and door positions *)

Section PositionFacts.
Import Builder.



Lemma clampPosition_inside (p : number) :
  between (1 # 10) (9 # 10) p -> clampPosition p == p.
Proof.
  unfold between, clampPosition, Math_max, Math_min. intros [H1 H2].
  rewrite (Q.min_r _ _ H2). apply Q.max_r, H1.
Qed.
















Example furnished_positions :
  map window_position (allWindows furnished) = [9 # 10]
  /\ map door_position (allDoors furnished) = [1 # 10].
Proof. split; reflexivity. Qed.


End PositionFacts.

(** ** The shoelace formula *)

Section ShoelaceFacts.

Lemma fold_left_accumulate {A : Type} (step : Q -> A -> Q) (g : A -> Q)
  (l : list A) (a : Q) :
  (forall acc i, step acc i == acc + g i) ->
  fold_left step l a == a + sumQ (map g l).
Proof.
  intros Hstep. revert a; induction l as [|i l IH]; intros a; simpl.
  - ring.
  - rewrite IH, Hstep. ring.
Qed.

Lemma cyclic_successors_nth (p : Point2D) (rest : list Point2D) (i : nat) :
  (i < S (List.length rest))%nat ->
  nth i (rest ++ [p]) origin
  = nth ((i + 1) mod S (List.length rest)) (p :: rest) origin.
Proof.
  intros Hi.
  destruct (Nat.eq_dec i (List.length rest)) as [-> | Hne].
  - rewrite app_nth2 by lia. rewrite Nat.sub_diag.
    replace (List.length rest + 1)%nat with (S (List.length rest)) by lia.
    rewrite Nat.Div0.mod_same. reflexivity.
  - rewrite app_nth1 by lia.
    rewrite Nat.mod_small by lia.
    replace (i + 1)%nat with (S i) by lia. reflexivity.
Qed.

Lemma determinants_by_index (points : list Point2D) :
  map (fun i =>
         det (nth i points origin)
             (nth ((i + 1) mod List.length points) points origin))
      (seq 0 (List.length points))
  = map (fun pq => det (fst pq) (snd pq))
        (combine points (cyclic_successors points)).
Proof.
  destruct points as [|p rest]; [reflexivity | ].
  assert (Hlen : List.length (rest ++ [p]) = List.length (p :: rest))
    by (rewrite length_app; simpl; lia).
  apply (nth_ext _ _ (det origin origin)
                 ((fun pq => det (fst pq) (snd pq)) (origin, origin))).
  - rewrite !length_map, length_seq, length_combine.
    cbn [cyclic_successors]. rewrite Hlen. lia.
  - intros i Hi. rewrite length_map, length_seq in Hi.
    rewrite (map_nth (fun pq => det (fst pq) (snd pq))).
    cbn [cyclic_successors].
    rewrite combine_nth by (symmetry; exact Hlen).
    cbn [fst snd].
    rewrite (cyclic_successors_nth p rest i) by exact Hi.
    rewrite (nth_indep _ (det origin origin)
               ((fun i0 =>
                   det (nth i0 (p :: rest) origin)
                       (nth ((i0 + 1) mod List.length (p :: rest)) (p :: rest)
                            origin)) 0%nat))
      by (rewrite length_map, length_seq; exact Hi).
    rewrite (map_nth (fun i0 =>
                        det (nth i0 (p :: rest) origin)
                            (nth ((i0 + 1) mod List.length (p :: rest))
                                 (p :: rest) origin))).
    rewrite seq_nth by exact Hi. reflexivity.
Qed.

(** C5.  [calculatePolygonArea] is the shoelace formula: on a list of at
    least 3 ordered vertices it returns half the absolute value of the
    determinant sum, the sum of x_i z_(i+1) - x_(i+1) z_i over the
    vertices with the last one followed by the first; on fewer than 3
    points it returns 0. *)
Theorem calculatePolygonArea_shoelace (points : list Point2D) :
  ((3 <= List.length points)%nat ->
   calculatePolygonArea points == shoelace points)
  /\ ((List.length points < 3)%nat -> calculatePolygonArea points = 0).
Proof.
  unfold calculatePolygonArea. split; intros H.
  - apply Nat.ltb_ge in H. rewrite H.
    unfold shoelace, determinant_sum, Math_abs.
    rewrite <- determinants_by_index.
    match goal with
    | |- Qabs ?a / 2 == Qabs ?b / 2 =>
        assert (Hab : a == b); [ | rewrite Hab; reflexivity ]
    end.
    rewrite (fold_left_accumulate _
               (fun i =>
                  det (nth i points origin)
                      (nth ((i + 1) mod List.length points) points origin))).
    + ring.
    + intros acc i. unfold det. ring.
  - apply Nat.ltb_lt in H. rewrite H. reflexivity.
Qed.

Lemma calculatePolygonArea_shoelace_witness :
  calculatePolygonArea unitSquare == shoelace unitSquare
  /\ calculatePolygonArea [mkPoint 0 0; mkPoint 1 0] = 0.
Proof.
  split.
  - apply (proj1 (calculatePolygonArea_shoelace unitSquare)). simpl; lia.
  - apply (proj2 (calculatePolygonArea_shoelace [mkPoint 0 0; mkPoint 1 0])).
    simpl; lia.
Defined.

(** A 4 m by 3 m rectangle with its corners in either direction covers
    12 sqm. *)
Example calculatePolygonArea_rectangle :
  calculatePolygonArea [mkPoint 0 0; mkPoint 4 0; mkPoint 4 3; mkPoint 0 3] == 12
  /\ calculatePolygonArea [mkPoint 0 3; mkPoint 4 3; mkPoint 4 0; mkPoint 0 0] == 12.
Proof. split; reflexivity. Qed.

End ShoelaceFacts.

(** ** The perimeter walk terminates *)

Section WalkFacts.
Import RoofMesh.

Lemma set_add_new_length {A : Type} (dec : forall a b : A, {a = b} + {a <> b})
  (a : A) (s : set A) :
  set_mem dec a s = false ->
  List.length (set_add dec a s) = S (List.length s).
Proof.
  induction s as [|b s IH]; simpl; [reflexivity | ].
  destruct (dec a b); [discriminate | ].
  intros H. simpl. rewrite IH by exact H. reflexivity.
Qed.

(** *** The roof perimeter *)

Lemma findConnection_from (segments : list Segment) (i : nat) (w w' : Walk) :
  findConnection i segments w = Some w' ->
  exists (k : nat) (segment : Segment),
    nth_error segments k = Some segment
    /\ has (i + k) (usedSegments w) = false
    /\ usedSegments w' = add (i + k) (usedSegments w)
    /\ ((orderedPoints w' = orderedPoints w ++ [end_ segment]
         /\ currentPoint w' = end_ segment)
        \/ (orderedPoints w' = orderedPoints w ++ [start segment]
            /\ currentPoint w' = start segment)).
Proof.
  revert i; induction segments as [|segment rest IH]; intros i; simpl;
    [discriminate | ].
  assert (Hrest : findConnection (S i) rest w = Some w' ->
                  exists (k : nat) (segment0 : Segment),
                    nth_error (segment :: rest) k = Some segment0
                    /\ has (i + k) (usedSegments w) = false
                    /\ usedSegments w' = add (i + k) (usedSegments w)
                    /\ ((orderedPoints w' = orderedPoints w ++ [end_ segment0]
                         /\ currentPoint w' = end_ segment0)
                        \/ (orderedPoints w' = orderedPoints w ++ [start segment0]
                            /\ currentPoint w' = start segment0))).
  { intros H. destruct (IH (S i) H) as (k & s0 & Hn & Hh & Hu & Ho).
    exists (S k), s0. replace (i + S k)%nat with (S i + k)%nat by lia. auto. }
  destruct (has i (usedSegments w)) eqn:Hused; [exact Hrest | ].
  destruct (close (start segment) (currentPoint w)).
  - intros H; injection H as <-. exists 0%nat, segment.
    rewrite Nat.add_0_r. cbn.
    split; [reflexivity | split; [exact Hused | split; [reflexivity | ]]].
    left; split; reflexivity.
  - destruct (close (end_ segment) (currentPoint w)); [ | exact Hrest].
    intros H; injection H as <-. exists 0%nat, segment.
    rewrite Nat.add_0_r. cbn.
    split; [reflexivity | split; [exact Hused | split; [reflexivity | ]]].
    right; split; reflexivity.
Qed.

Lemma findConnection_marks (wallSegments : list Segment) (w w' : Walk) :
  findConnection 0 wallSegments w = Some w' -> marksOne wallSegments w w'.
Proof.
  intros H. destruct (findConnection_from _ _ _ _ H)
    as (k & segment & Hn & Hh & Hu & Ho).
  exists k, segment. cbn in Hh, Hu.
  repeat split; try assumption.
  rewrite Hu. apply set_add_new_length. exact Hh.
Qed.

Lemma walk_terminates (wallSegments : list Segment) (fuel : nat) (w : Walk) :
  (List.length wallSegments - size (usedSegments w) <= fuel)%nat ->
  exists (w' : Walk) (k : nat),
    walk fuel wallSegments w = Some (w', k)
    /\ (k <= List.length wallSegments - size (usedSegments w))%nat
    /\ (List.length (orderedPoints w')
        <= List.length (orderedPoints w) + k)%nat.
Proof.
  revert w; induction fuel as [|fuel IH]; intros w Hfuel.
  - exists w, 0%nat. simpl.
    replace (List.length wallSegments <=? size (usedSegments w))%nat with true
      by (symmetry; apply Nat.leb_le; lia).
    repeat split; lia.
  - simpl.
    destruct (List.length wallSegments <=? size (usedSegments w))%nat eqn:E.
    + exists w, 0%nat. repeat split; lia.
    + apply Nat.leb_gt in E.
      destruct (findConnection 0 wallSegments w) as [w1|] eqn:F.
      * destruct (findConnection_marks _ _ _ F)
          as (i & segment & _ & _ & _ & Hsize & Hpts).
        destruct (IH w1) as (w2 & k & Hw & Hk & Hlen); [lia | ].
        exists w2, (S k). rewrite Hw.
        assert (Hone : List.length (orderedPoints w1)
                       = S (List.length (orderedPoints w)))
          by (destruct Hpts as [[-> _] | [-> _]];
              rewrite length_app; simpl; lia).
        repeat split; lia.
      * exists w, 1%nat. repeat split; lia.
Qed.

(** *** The enclosed area of a room *)

Lemma step_marks (walls : list RoomManager.Wall) (w w' : RoomManager.Walk) :
  RoomManager.step walls w = Some w' ->
  exists nextWall : RoomManager.Wall,
    In nextWall walls
    /\ RoomManager.has (RoomManager.id nextWall) (RoomManager.usedWalls w) = false
    /\ RoomManager.usedWalls w'
       = RoomManager.add (RoomManager.id nextWall) (RoomManager.usedWalls w)
    /\ RoomManager.size (RoomManager.usedWalls w')
       = S (RoomManager.size (RoomManager.usedWalls w))
    /\ (RoomManager.points w'
        = RoomManager.points w ++ [RoomManager.end_ nextWall]
        \/ RoomManager.points w'
           = RoomManager.points w ++ [RoomManager.start nextWall]).
Proof.
  unfold RoomManager.step.
  destruct (find _ walls) as [nextWall|] eqn:F; [ | discriminate].
  apply find_some in F. destruct F as [Hin Hp].
  apply andb_true_iff in Hp. destruct Hp as [Hnew _].
  apply negb_true_iff in Hnew.
  intros H; injection H as <-. exists nextWall. cbn.
  repeat split; try assumption.
  - apply set_add_new_length. exact Hnew.
  - match goal with
    | |- context [if ?c then _ else _] => destruct c
    end; auto.
Qed.

Lemma room_walk_terminates (walls : list RoomManager.Wall) (fuel : nat)
  (w : RoomManager.Walk) :
  (List.length walls - RoomManager.size (RoomManager.usedWalls w) <= fuel)%nat ->
  exists (w' : RoomManager.Walk) (k : nat),
    RoomManager.walk fuel walls w = Some (w', k)
    /\ (k <= List.length walls
             - RoomManager.size (RoomManager.usedWalls w))%nat
    /\ (List.length (RoomManager.points w')
        <= List.length (RoomManager.points w) + k)%nat.
Proof.
  revert w; induction fuel as [|fuel IH]; intros w Hfuel.
  - exists w, 0%nat. simpl.
    replace (List.length walls
             <=? RoomManager.size (RoomManager.usedWalls w))%nat with true
      by (symmetry; apply Nat.leb_le; lia).
    repeat split; lia.
  - simpl.
    destruct (List.length walls
              <=? RoomManager.size (RoomManager.usedWalls w))%nat eqn:E.
    + exists w, 0%nat. repeat split; lia.
    + apply Nat.leb_gt in E.
      destruct (RoomManager.step walls w) as [w1|] eqn:F.
      * destruct (step_marks _ _ _ F) as (nw & _ & _ & _ & Hsize & Hpts).
        destruct (IH w1) as (w2 & k & Hw & Hk & Hlen); [lia | ].
        exists w2, (S k). rewrite Hw.
        assert (Hone : List.length (RoomManager.points w1)
                       = S (List.length (RoomManager.points w)))
          by (destruct Hpts as [-> | ->]; rewrite length_app; simpl; lia).
        repeat split; lia.
      * exists w, 1%nat. repeat split; lia.
Qed.

(** C9.  The perimeter walk terminates on every finite list of segments.
    A turn of the matching loop that finds a connection marks one segment
    that was not used before and appends the far end point of that segment
    to the ordered perimeter, and a turn that finds none leaves the loop;
    so with n segments the walk of the roof perimeter returns after at
    most n turns with a list of at most n + 1 points, and so does the walk
    of [findEnclosedArea] over n walls. *)
Theorem perimeter_walk_terminates :
  (forall wallSegments : list Segment,
     exists (points : list Point2D) (turns : nat),
       tracePerimeter (List.length wallSegments) wallSegments
       = Some (points, turns)
       /\ (turns <= List.length wallSegments)%nat
       /\ (List.length points <= List.length wallSegments + 1)%nat)
  /\ (forall (wallSegments : list Segment) (w w' : Walk),
        findConnection 0 wallSegments w = Some w' ->
        marksOne wallSegments w w')
  /\ (forall walls : list RoomManager.Wall,
        exists (result : option RoomManager.Enclosed) (turns : nat),
          RoomManager.findEnclosedArea (List.length walls) walls
          = Some (result, turns)
          /\ (turns <= List.length walls)%nat)
  /\ (forall (walls : list RoomManager.Wall) (w w' : RoomManager.Walk),
        RoomManager.step walls w = Some w' -> marksOneWall walls w w').
Proof.
  split; [ | split; [ | split ] ].
  - intros wallSegments. unfold tracePerimeter.
    destruct wallSegments as [|first rest] eqn:E.
    + exists [], 0%nat. repeat split; simpl; lia.
    + rewrite <- E.
      destruct (walk_terminates wallSegments (List.length wallSegments)
                  (mkWalk [start first; end_ first] (add 0 []) (end_ first)))
        as (w' & k & Hw & Hk & Hlen); [lia | ].
      rewrite Hw. exists (orderedPoints w'), k.
      cbn in Hk, Hlen.
      assert (List.length wallSegments = S (List.length rest))
        by (rewrite E; reflexivity).
      repeat split; lia.
  - exact findConnection_marks.
  - intros walls. unfold RoomManager.findEnclosedArea.
    destruct walls as [|currentWall rest] eqn:E.
    + exists None, 0%nat. repeat split; simpl; lia.
    + rewrite <- E.
      destruct (List.length walls <? 3)%nat.
      * exists None, 0%nat. repeat split; lia.
      * destruct (room_walk_terminates walls (List.length walls)
                    (RoomManager.mkWalk [RoomManager.start currentWall]
                       [RoomManager.id currentWall]
                       (RoomManager.add (RoomManager.id currentWall) [])
                       (RoomManager.start currentWall)))
          as (w' & k & Hw & Hk & _); [lia | ].
        rewrite Hw.
        match goal with
        | |- context [if ?c then _ else _] => destruct c
        end; eexists; exists k; (split; [reflexivity | lia]).
  - exact step_marks.
Qed.

Example tracePerimeter_house :
  tracePerimeter 4 houseSegments
  = Some ([mkPoint 0 0; mkPoint 4 0; mkPoint 4 3; mkPoint 0 3; mkPoint 0 0],
          3%nat).
Proof. reflexivity. Qed.

(** Two sides that do not touch: one turn, which finds nothing. *)
Example tracePerimeter_apart :
  tracePerimeter 2 [mkSegment (mkPoint 0 0) (mkPoint 4 0);
                    mkSegment (mkPoint 0 3) (mkPoint 4 3)]
  = Some ([mkPoint 0 0; mkPoint 4 0], 1%nat).
Proof. reflexivity. Qed.

Lemma perimeter_walk_terminates_witness :
  marksOne houseSegments
    (mkWalk [mkPoint 0 0; mkPoint 4 0] [0%nat] (mkPoint 4 0))
    (mkWalk [mkPoint 0 0; mkPoint 4 0; mkPoint 4 3] [0%nat; 1%nat] (mkPoint 4 3))
  /\ marksOneWall houseWalls houseStart
       (RoomManager.mkWalk [mkPoint 0 0; mkPoint 0 3] ["a"%string; "d"%string]
                           ["a"%string; "d"%string] (mkPoint 0 3)).
Proof.
  destruct perimeter_walk_terminates as (_ & Hseg & _ & Hwall).
  split.
  - apply Hseg. reflexivity.
  - apply Hwall. reflexivity.
Defined.

End WalkFacts.

(** ** Snapping to the grid *)

Section GridFacts.
Import Designer.

Lemma Math_round_integer (k : Z) : Math_round (inject_Z k) == inject_Z k.
Proof.
  unfold Math_round.
  assert (H : Qfloor (inject_Z k + (1 # 2)) = k); [ | rewrite H; reflexivity].
  apply Z.le_antisymm.
  - apply Z.lt_succ_r. rewrite Zlt_Qlt.
    eapply Qle_lt_trans; [apply Qfloor_le | ].
    unfold Z.succ. rewrite inject_Z_plus.
    apply Qplus_lt_r. reflexivity.
  - rewrite <- (Qfloor_Z k) at 1. apply Qfloor_resp_le.
    rewrite <- (Qplus_0_r (inject_Z k)) at 1.
    apply Qplus_le_r. discriminate.
Qed.

Lemma snapToGrid_multiple (v g : number) :
  exists k : Z, snapToGrid v g == inject_Z k * g.
Proof.
  unfold snapToGrid, Math_round. eexists. reflexivity.
Qed.

Lemma snapToGrid_fixes_multiples (k : Z) (g : number) :
  0 < g -> snapToGrid (inject_Z k * g) g == inject_Z k * g.
Proof.
  intros Hg. unfold snapToGrid.
  assert (Hne : ~ g == 0) by (intros E; rewrite E in Hg; discriminate Hg).
  assert (Hdiv : inject_Z k * g / g == inject_Z k) by (apply Qdiv_mult_l, Hne).
  assert (Hr : Math_round (inject_Z k * g / g) == inject_Z k).
  { unfold Math_round.
    assert (Hf : Qfloor (inject_Z k * g / g + (1 # 2))
                 = Qfloor (inject_Z k + (1 # 2)))
      by (apply Qfloor_comp, Qplus_comp; [exact Hdiv | reflexivity]).
    rewrite Hf. apply Math_round_integer. }
  apply Qmult_comp; [exact Hr | reflexivity].
Qed.

Lemma snapToGrid_idempotent (v g : number) :
  0 < g -> snapToGrid (snapToGrid v g) g == snapToGrid v g.
Proof.
  intros Hg.
  change (snapToGrid v g) with (inject_Z (Qfloor (v / g + (1 # 2))) * g).
  apply snapToGrid_fixes_multiples, Hg.
Qed.

(** *** The walls the drawing surface produces *)

Lemma snapped_onGrid (a b : number) :
  onGrid {| x := snapToGrid a defaultGridSize;
            z := snapToGrid b defaultGridSize |}.
Proof. split; apply snapToGrid_multiple. Qed.

Lemma findNearestPoint_endpoint (p q : Point2D) (ws : list Wall)
  (threshold : number) :
  findNearestPoint p ws threshold = Some q ->
  exists w, In w ws /\ (q = start w \/ q = end_ w).
Proof.
  induction ws as [|w ws IH]; simpl; [discriminate | ].
  destruct (distance_lt p (start w) threshold).
  - intros H; injection H as <-. exists w; auto.
  - destruct (distance_lt p (end_ w) threshold).
    + intros H; injection H as <-. exists w; auto.
    + intros H. destruct (IH H) as (w' & Hin & Hq). exists w'; auto.
Qed.

Lemma nearest_or_snapped (P : Point2D -> Prop) (st : State) (snapped : Point2D) :
  (forall p, onGrid p -> P p) -> onGrid snapped -> allPoints P st ->
  P (match findNearestPoint snapped (walls st) 1 with
     | Some p => p
     | None => snapped
     end).
Proof.
  intros Hgrid Hs [Hw _].
  destruct (findNearestPoint snapped (walls st) 1) as [q|] eqn:E; [ | auto].
  destruct (findNearestPoint_endpoint _ _ _ _ E) as (w & Hin & [-> | ->]);
    apply (Hw w Hin).
Qed.

Lemma click_other_tools (P : Point2D -> Prop) (newId : nat -> string)
  (canvasPoint : Point2D) (st : State) :
  (forall p, onGrid p -> P p) -> tool st <> tool_rectangle ->
  allPoints P st -> allPoints P (handleMouseDown newId canvasPoint st).
Proof.
  intros Hgrid Htool Hall. unfold handleMouseDown. cbv zeta.
  set (snapped := mkPoint (snapToGrid _ _) (snapToGrid _ _)).
  assert (Hs : onGrid snapped) by apply snapped_onGrid.
  clearbody snapped.
  pose proof (nearest_or_snapped P st snapped Hgrid Hs Hall) as Hnear.
  destruct (tool st); try exact Hall; [ | contradiction].
  destruct Hall as [Hw Hd].
  destruct (isDrawing st); cbn [negb].
  - destruct (drawingStart st) as [s|] eqn:Es.
    + match goal with
      | |- context [if ?c then _ else _] => destruct c
      end.
      * split; [ | intros p Hp; discriminate Hp].
        intros w Hin. cbn in Hin. apply in_app_or in Hin.
        destruct Hin as [Hin | [<- | []]]; [apply Hw, Hin | ].
        split; [apply Hd; reflexivity | exact Hnear].
      * split; [exact Hw | intros p Hp; discriminate Hp].
    + split; [exact Hw | intros p Hp; discriminate Hp].
  - split; [exact Hw | ].
    intros p Hp. cbn in Hp. injection Hp as <-. exact Hnear.
Qed.

Lemma Math_min_onGridLine (a b : number) :
  onGridLine a -> onGridLine b -> onGridLine (Math_min a b).
Proof.
  intros Ha Hb. unfold Math_min.
  destruct (Q.min_spec a b) as [[_ E] | [_ E]]; unfold onGridLine in *;
    [destruct Ha as [k Hk] | destruct Hb as [k Hk]];
    exists k; rewrite E; exact Hk.
Qed.

Lemma Math_max_onGridLine (a b : number) :
  onGridLine a -> onGridLine b -> onGridLine (Math_max a b).
Proof.
  intros Ha Hb. unfold Math_max.
  destruct (Q.max_spec a b) as [[_ E] | [_ E]]; unfold onGridLine in *;
    [destruct Hb as [k Hk] | destruct Ha as [k Hk]];
    exists k; rewrite E; exact Hk.
Qed.

Lemma click_rectangle (newId : nat -> string) (canvasPoint : Point2D)
  (st : State) :
  tool st = tool_rectangle ->
  allPoints onGrid st -> allPoints onGrid (handleMouseDown newId canvasPoint st).
Proof.
  intros Htool [Hw Hd]. unfold handleMouseDown. cbv zeta. rewrite Htool.
  set (snapped := mkPoint (snapToGrid _ _) (snapToGrid _ _)).
  assert (Hs : onGrid snapped) by apply snapped_onGrid.
  clearbody snapped. destruct Hs as [Hsx Hsz].
  destruct (isDrawing st); cbn [negb].
  - destruct (drawingStart st) as [s|] eqn:Es.
    + destruct (Hd s eq_refl) as [Hx Hz].
      split; [ | intros p Hp; discriminate Hp].
      intros w Hin. cbn in Hin. apply in_app_or in Hin.
      destruct Hin as [Hin | Hin]; [apply Hw, Hin | ].
      destruct Hin as [<- | [<- | [<- | [<- | []]]]];
        unfold onGrid; cbn [start end_ x z]; repeat split;
        (apply Math_min_onGridLine || apply Math_max_onGridLine); assumption.
    + split; [exact Hw | intros p Hp; discriminate Hp].
  - split; [exact Hw | ].
    intros p Hp. cbn in Hp. injection Hp as <-. split; assumption.
Qed.

Lemma sketched_allPoints (P : Point2D -> Prop) (rect : bool) (st0 st : State) :
  (forall p, onGrid p -> P p) ->
  (rect = true -> forall p, P p -> onGrid p) ->
  allPoints P st0 -> sketched rect st0 st -> allPoints P st.
Proof.
  intros Hgrid Hrect H0 Hsk.
  induction Hsk as [ | st t _ IH | st newId canvasPoint _ IH Hallowed ].
  - exact H0.
  - exact IH.
  - assert (Hdec : tool st = tool_rectangle \/ tool st <> tool_rectangle)
      by (destruct (tool st); (left; reflexivity) || (right; discriminate)).
    destruct Hdec as [Et | Hne];
      [ | apply click_other_tools; [exact Hgrid | exact Hne | exact IH] ].
    destruct Hallowed as [-> | Hne]; [ | contradiction].
    assert (Hon : allPoints onGrid (handleMouseDown newId canvasPoint st)).
    { apply click_rectangle; [exact Et | ].
      destruct IH as [Hw Hd]. split.
      - intros w Hin. destruct (Hw w Hin). split; apply Hrect; auto.
      - intros p Hp. apply Hrect; auto. }
    destruct Hon as [Hw Hd]. split.
    + intros w Hin. destruct (Hw w Hin). split; apply Hgrid; assumption.
    + intros p Hp. apply Hgrid, Hd, Hp.
Qed.

(** C10, as the code has it.  [snapToGrid] is idempotent and lands on the
    grid: for every value v and every positive grid size g,
    [snapToGrid v g] is an integer multiple of g and snapping it again
    returns it.  So, from a state with no drawing in progress, every end
    point of a wall that the clicks of the wall tool produce lies on the
    0.5 m grid unless it was snapped to the end point of a wall that
    existed; and when the walls that exist have their end points on the
    grid, every wall that any tool of the drawing surface produces has its
    end points on the grid. *)
Theorem snapToGrid_lands_on_grid :
  (forall v g : number,
     0 < g ->
     (exists k : Z, snapToGrid v g == inject_Z k * g)
     /\ snapToGrid (snapToGrid v g) g == snapToGrid v g)
  /\ (forall st0 st : State,
        drawingStart st0 = None -> sketched false st0 st ->
        forall w, In w (walls st) ->
                  anchored (walls st0) (start w)
                  /\ anchored (walls st0) (end_ w))
  /\ (forall st0 st : State,
        drawingStart st0 = None ->
        (forall w, In w (walls st0) -> onGrid (start w) /\ onGrid (end_ w)) ->
        sketched true st0 st ->
        forall w, In w (walls st) -> onGrid (start w) /\ onGrid (end_ w)).
Proof.
  split; [ | split ].
  - intros v g Hg. split;
      [apply snapToGrid_multiple | apply snapToGrid_idempotent, Hg].
  - intros st0 st Hnone Hsk.
    apply (sketched_allPoints (anchored (walls st0)) false st0 st);
      [ left; assumption | discriminate | | exact Hsk ].
    split.
    + intros w Hin. split; right; apply in_flat_map; exists w;
        (split; [exact Hin | simpl; auto]).
    + intros p Hp. congruence.
  - intros st0 st Hnone Hgrid Hsk.
    apply (sketched_allPoints onGrid true st0 st);
      [ auto | auto | | exact Hsk ].
    split; [exact Hgrid | intros p Hp; congruence].
Qed.

Example firstClick_snaps_to_wall :
  drawingStart firstClick = Some (mkPoint (1 # 4) (1 # 4)).
Proof. reflexivity. Qed.

Example wallDrawn_walls :
  map (fun w => (start w, end_ w)) (walls wallDrawn)
  = [(mkPoint (1 # 4) (1 # 4), mkPoint (9 # 4) (1 # 4));
     (mkPoint (1 # 4) (1 # 4), mkPoint (6 # 2) (6 # 2))].
Proof. reflexivity. Qed.

Lemma snapToGrid_lands_on_grid_witness :
  snapToGrid (snapToGrid (7 # 10) (1 # 2)) (1 # 2) == snapToGrid (7 # 10) (1 # 2)
  /\ anchored (walls offGridStart) (start (nth 1 (walls wallDrawn) offGridWall))
  /\ anchored (walls offGridStart) (end_ (nth 1 (walls wallDrawn) offGridWall))
  /\ onGrid (start (nth 0 (walls roomDrawn) offGridWall))
  /\ onGrid (end_ (nth 0 (walls roomDrawn) offGridWall)).
Proof.
  destruct snapToGrid_lands_on_grid as (Hsnap & Hwall & Hany).
  split; [ apply (Hsnap (7 # 10) (1 # 2)); reflexivity | ].
  assert (Hw : sketched false offGridStart wallDrawn).
  { apply sketched_click; [ | right; discriminate].
    apply sketched_click; [ | right; discriminate].
    apply sketched_start. }
  assert (Hr : sketched true emptyStart roomDrawn).
  { apply sketched_click; [ | left; reflexivity].
    apply sketched_click; [ | left; reflexivity].
    apply sketched_start. }
  destruct (Hwall offGridStart wallDrawn eq_refl Hw
              (nth 1 (walls wallDrawn) offGridWall)) as [Ha Hb];
    [ right; left; reflexivity | ].
  destruct (Hany emptyStart roomDrawn eq_refl (fun w (H : In w []) => match H with end) Hr
              (nth 0 (walls roomDrawn) offGridWall)) as [Hc Hd];
    [ left; reflexivity | ].
  auto.
Defined.

(** The drawing surface produces a wall that ends at (3, 0.25): a point
    that is not on the 0.5 m grid and is no end point of a wall that
    existed. *)
Lemma rectangle_corner_off_grid :
  sketched true offGridStart mixedTools
  /\ In (nth 1 (walls mixedTools) offGridWall) (walls mixedTools)
  /\ ~ In (nth 1 (walls mixedTools) offGridWall) (walls offGridStart)
  /\ samePoint strayCorner (mkPoint 3 (1 # 4))
  /\ ~ onGrid strayCorner
  /\ (forall q, In q (endpoints (walls offGridStart)) ->
                ~ samePoint strayCorner q).
Proof.
  split; [ | split; [ | split; [ | split; [ | split ] ] ] ].
  - apply sketched_click; [ | left; reflexivity].
    apply sketched_tool.
    apply sketched_click; [ | left; reflexivity].
    apply sketched_start.
  - vm_compute. right; left; reflexivity.
  - vm_compute. intros [H | []]. discriminate H.
  - split; reflexivity.
  - intros [_ [k Hk]].
    change (z strayCorner) with (1 # 4) in Hk.
    unfold Qeq, defaultGridSize in Hk. simpl in Hk. lia.
  - intros q Hq [Hx _]. vm_compute in Hq.
    destruct Hq as [<- | [<- | []]]; vm_compute in Hx; discriminate Hx.
Qed.

End GridFacts.

(** ** The drawing surface, further *)

Section DrawingFacts.
Import Designer.

(** X1.  The two coordinate conversions of the drawing surface are
    inverse to each other: a world point sent to the canvas and back is
    the same point, and so is a canvas point sent to the world and
    back. *)
Theorem canvas_world_round_trip (p : Point2D) :
  samePoint (canvasToWorld (worldToCanvas p)) p
  /\ samePoint (worldToCanvas (canvasToWorld p)) p.
Proof.
  unfold samePoint, canvasToWorld, worldToCanvas, centerX, centerY,
    canvasWidth, canvasHeight, scale; cbn [x z].
  repeat split; field.
Qed.

Lemma findNearestPoint_first (point : Point2D) (ws : list Wall)
  (threshold : number) :
  match findNearestPoint point ws threshold with
  | Some q =>
      distance_lt point q threshold = true
      /\ exists before after,
           endpoints ws = before ++ q :: after
           /\ Forall (fun e => distance_lt point e threshold = false) before
  | None =>
      Forall (fun e => distance_lt point e threshold = false) (endpoints ws)
  end.
Proof.
  induction ws as [|w ws IH]; simpl; [constructor | ].
  destruct (distance_lt point (start w) threshold) eqn:Es.
  - split; [exact Es | ]. exists [], (end_ w :: endpoints ws).
    split; [reflexivity | constructor].
  - destruct (distance_lt point (end_ w) threshold) eqn:Ee.
    + split; [exact Ee | ]. exists [start w], (endpoints ws).
      split; [reflexivity | repeat constructor; exact Es].
    + destruct (findNearestPoint point ws threshold) as [q|].
      * destruct IH as (Hq & before & after & Heq & Hb).
        split; [exact Hq | ].
        exists (start w :: end_ w :: before), after.
        split; [cbn; fold (endpoints ws); rewrite Heq; reflexivity | ].
        repeat constructor; assumption.
      * repeat constructor; assumption.
Qed.

(** X2.  [findNearestPoint] returns the first wall end, in the order
    start then end of each wall, that lies closer than the threshold to
    the point, and [null] exactly when no wall end is that close. *)
Theorem findNearestPoint_spec (point : Point2D) (ws : list Wall)
  (threshold : number) :
  (forall q,
     findNearestPoint point ws threshold = Some q ->
     distance_lt point q threshold = true
     /\ exists before after,
          endpoints ws = before ++ q :: after
          /\ Forall (fun e => distance_lt point e threshold = false) before)
  /\ (findNearestPoint point ws threshold = None <->
      Forall (fun e => distance_lt point e threshold = false) (endpoints ws)).
Proof.
  pose proof (findNearestPoint_first point ws threshold) as H.
  destruct (findNearestPoint point ws threshold) as [q0|].
  - split.
    + intros q Hq. injection Hq as <-. exact H.
    + split; [discriminate | ].
      intros Hall. destruct H as (Hq & before & after & Heq & _).
      rewrite Heq in Hall. apply Forall_app in Hall. destruct Hall as [_ Hall].
      inversion Hall as [|? ? Hq0 _]; subst. congruence.
  - split; [discriminate | ]. split; auto.
Qed.

Lemma findNearestPoint_spec_witness :
  distance_lt (mkPoint (1 # 2) (1 # 2)) (mkPoint (1 # 4) (1 # 4)) 1 = true
  /\ exists before after,
       endpoints [offGridWall] = before ++ mkPoint (1 # 4) (1 # 4) :: after
       /\ Forall (fun e => distance_lt (mkPoint (1 # 2) (1 # 2)) e 1 = false)
                 before.
Proof.
  apply (proj1 (findNearestPoint_spec (mkPoint (1 # 2) (1 # 2)) [offGridWall] 1)).
  reflexivity.
Defined.

Lemma wall_tool_click (newId : nat -> string) (canvasPoint : Point2D)
  (st : State) :
  tool st = tool_wall ->
  isDrawing (handleMouseDown newId canvasPoint st) = negb (isDrawing st)
  /\ (isDrawing st = false ->
      walls (handleMouseDown newId canvasPoint st) = walls st
      /\ exists p, drawingStart (handleMouseDown newId canvasPoint st) = Some p)
  /\ (isDrawing st = true ->
      drawingStart (handleMouseDown newId canvasPoint st) = None
      /\ (walls (handleMouseDown newId canvasPoint st) = walls st
          \/ exists w,
               walls (handleMouseDown newId canvasPoint st) = walls st ++ [w]
               /\ longEnough w
               /\ drawingStart st = Some (start w)
               /\ id w = newId 0%nat)).
Proof.
  intros Htool. unfold handleMouseDown. cbv zeta. rewrite Htool.
  destruct (isDrawing st); cbn [negb].
  - split; [reflexivity | split; [discriminate | intros _]].
    destruct (drawingStart st) as [s|]; [ | split; [reflexivity | left; reflexivity]].
    match goal with
    | |- context [if ?c then _ else _] => destruct c eqn:E
    end; (split; [reflexivity | ]); [right | left; reflexivity].
    eexists. split; [reflexivity | ]. unfold longEnough. cbn [start end_ id].
    split; [exact E | split; reflexivity].
  - split; [reflexivity | split; [intros _ | discriminate]].
    split; [reflexivity | eexists; reflexivity].
Qed.

Lemma sketched_longEnough (st0 st : State) :
  (forall w, In w (walls st0) -> longEnough w) ->
  sketched false st0 st ->
  forall w, In w (walls st) -> longEnough w.
Proof.
  intros H0 Hsk.
  induction Hsk as [ | st t _ IH | st newId canvasPoint _ IH Hallowed ].
  - exact H0.
  - exact IH.
  - destruct Hallowed as [Hf | Hne]; [discriminate Hf | ].
    destruct (tool st) eqn:Et; try contradiction.
    + unfold handleMouseDown. rewrite Et. exact IH.
    + destruct (wall_tool_click newId canvasPoint st Et) as (_ & Hstart & Hfinish).
      destruct (isDrawing st).
      * destruct (Hfinish eq_refl) as (_ & [Heq | (w0 & Heq & Hlong & _)]);
          rewrite Heq; [exact IH | ].
        intros w Hin. apply in_app_or in Hin.
        destruct Hin as [Hin | [<- | []]]; [apply IH, Hin | exact Hlong].
      * destruct (Hstart eq_refl) as [Heq _]. rewrite Heq. exact IH.
    + unfold handleMouseDown. rewrite Et. exact IH.
Qed.

(** X3.  With the wall tool a click alternately starts and finishes a
    drawing.  The starting click sets the pending start point and leaves
    the walls alone; the finishing click clears the pending point and adds
    at most one wall, from the pending start point, which is longer than
    0.1 m.  So as long as the rectangle tool is not used, the drawing
    surface never adds a wall of 0.1 m or less to walls that are all
    longer. *)
Theorem wall_tool_never_draws_short_walls :
  (forall (newId : nat -> string) (canvasPoint : Point2D) (st : State),
     tool st = tool_wall ->
     isDrawing (handleMouseDown newId canvasPoint st) = negb (isDrawing st)
     /\ (isDrawing st = false ->
         walls (handleMouseDown newId canvasPoint st) = walls st
         /\ exists p,
              drawingStart (handleMouseDown newId canvasPoint st) = Some p)
     /\ (isDrawing st = true ->
         drawingStart (handleMouseDown newId canvasPoint st) = None
         /\ (walls (handleMouseDown newId canvasPoint st) = walls st
             \/ exists w,
                  walls (handleMouseDown newId canvasPoint st) = walls st ++ [w]
                  /\ longEnough w
                  /\ drawingStart st = Some (start w)
                  /\ id w = newId 0%nat)))
  /\ (forall st0 st : State,
        (forall w, In w (walls st0) -> longEnough w) ->
        sketched false st0 st ->
        forall w, In w (walls st) -> longEnough w).
Proof. split; [exact wall_tool_click | exact sketched_longEnough]. Qed.

(** Two clicks of the wall tool on the same spot draw nothing. *)
Example same_spot_draws_nothing :
  walls (handleMouseDown drawnIds (mkPoint 310 240)
           (handleMouseDown drawnIds (mkPoint 310 240)
              (setTool tool_wall emptyStart)))
  = [].
Proof. reflexivity. Qed.

Lemma wall_tool_never_draws_short_walls_witness :
  isDrawing firstClick = true
  /\ longEnough (nth 1 (walls wallDrawn) offGridWall).
Proof.
  destruct wall_tool_never_draws_short_walls as [Hclick Htrace].
  split.
  - apply (proj1 (Hclick drawnIds (mkPoint 255 295) offGridStart eq_refl)).
  - apply (Htrace offGridStart wallDrawn).
    + intros w [<- | []]. reflexivity.
    + apply sketched_click; [ | right; discriminate].
      apply sketched_click; [ | right; discriminate].
      apply sketched_start.
    + right; left; reflexivity.
Defined.

Lemma createRectangularRoom_walls (newId : nat -> string) (s e : Point2D)
  (st : State) :
  walls (createRectangularRoom newId s e st)
  = walls st
    ++ map (fun ic =>
              mkWall (newId (fst ic)) (fst (snd ic)) (snd (snd ic))
                     (wallHeight st) (wallThickness st) [] [] (wallMaterial st))
           (let minX := Math_min (x s) (x e) in
            let maxX := Math_max (x s) (x e) in
            let minZ := Math_min (z s) (z e) in
            let maxZ := Math_max (z s) (z e) in
            [(0%nat, (mkPoint minX minZ, mkPoint maxX minZ));
             (1%nat, (mkPoint maxX minZ, mkPoint maxX maxZ));
             (2%nat, (mkPoint maxX maxZ, mkPoint minX maxZ));
             (3%nat, (mkPoint minX maxZ, mkPoint minX minZ))]).
Proof. reflexivity. Qed.

(** X4.  [createRectangularRoom] appends four walls and touches nothing
    else of the walls: the new walls chain head to tail and the last one
    ends where the first one starts, each runs along an axis, none has
    windows or doors, and the two clicked corners lie on the outline, in
    its box. *)
Theorem createRectangularRoom_closed_outline (newId : nat -> string)
  (s e : Point2D) (st : State) :
  exists w0 w1 w2 w3 : Wall,
    walls (createRectangularRoom newId s e st) = walls st ++ [w0; w1; w2; w3]
    /\ (end_ w0 = start w1 /\ end_ w1 = start w2
        /\ end_ w2 = start w3 /\ end_ w3 = start w0)
    /\ Forall axisAligned [w0; w1; w2; w3]
    /\ Forall (fun w => windows w = [] /\ doors w = []) [w0; w1; w2; w3]
    /\ (x (start w0) <= x s <= x (start w2)
        /\ z (start w0) <= z s <= z (start w2))
    /\ (x (start w0) <= x e <= x (start w2)
        /\ z (start w0) <= z e <= z (start w2)).
Proof.
  rewrite createRectangularRoom_walls. cbv zeta. cbn [map fst snd].
  do 4 eexists. split; [reflexivity | ].
  cbn [start end_ windows doors x z].
  split; [repeat split | ].
  split;
    [repeat (apply Forall_cons; [unfold axisAligned; cbn [start end_ x z]; auto | ]);
     apply Forall_nil | ].
  split; [repeat (apply Forall_cons; [split; reflexivity | ]); apply Forall_nil | ].
  unfold Math_min, Math_max.
  repeat split;
    auto using Q.le_min_l, Q.le_min_r, Q.le_max_l, Q.le_max_r.
Qed.

Lemma edit_outline (f : Wall -> Wall) (sel : option string) (l : list Wall) :
  (forall w, outline (f w) = outline w) ->
  map outline (map (fun wall => if isSelected sel wall then f wall else wall) l)
  = map outline l.
Proof.
  intros Hf. rewrite map_map. apply map_ext. intros w.
  destruct (isSelected sel w); [apply Hf | reflexivity].
Qed.

(** X25.  Editing the selected wall on the drawing surface.  With no
    selection (null or the empty identifier) [deleteSelectedWall],
    [addWindow] and [addDoor] change nothing.  With a selection,
    [deleteSelectedWall] keeps exactly the walls with another identifier,
    in their order, and clears the selection; [addWindow] and [addDoor]
    keep the identifier and both ends of every wall, [addWindow] keeps
    all doors and [addDoor] all windows, and the walls with another
    identifier are left as they were. *)
Theorem selected_wall_editing (newId : string) (sel : option string)
  (st : State) :
  (truthy sel = false ->
   deleteSelectedWall sel st = (st, sel)
   /\ addWindow newId sel st = st /\ addDoor newId sel st = st)
  /\ (truthy sel = true ->
      snd (deleteSelectedWall sel st) = None
      /\ forall w, In w (walls (fst (deleteSelectedWall sel st)))
                   <-> In w (walls st) /\ isSelected sel w = false)
  /\ (map outline (walls (addWindow newId sel st)) = map outline (walls st)
      /\ map doors (walls (addWindow newId sel st)) = map doors (walls st)
      /\ filter (fun w => negb (isSelected sel w))
                (walls (addWindow newId sel st))
         = filter (fun w => negb (isSelected sel w)) (walls st))
  /\ (map outline (walls (addDoor newId sel st)) = map outline (walls st)
      /\ map windows (walls (addDoor newId sel st)) = map windows (walls st)
      /\ filter (fun w => negb (isSelected sel w))
                (walls (addDoor newId sel st))
         = filter (fun w => negb (isSelected sel w)) (walls st)).
Proof.
  assert (Hfilter : forall (f : Wall -> Wall) (l : list Wall),
             (forall w, outline (f w) = outline w) ->
             filter (fun w => negb (isSelected sel w))
                    (map (fun wall => if isSelected sel wall
                                      then f wall else wall) l)
             = filter (fun w => negb (isSelected sel w)) l).
  { intros f l Hf. induction l as [|w l IH]; [reflexivity | ].
    cbn [map filter]. destruct (isSelected sel w) eqn:E.
    - assert (Hsel : isSelected sel (f w) = true).
      { unfold isSelected in *. destruct sel; [ | discriminate].
        pose proof (Hf w) as Ho. unfold outline in Ho.
        injection Ho as -> _ _. exact E. }
      rewrite Hsel. cbn [negb]. exact IH.
    - rewrite E. cbn [negb]. rewrite IH. reflexivity. }
  unfold deleteSelectedWall, addWindow, addDoor.
  split; [ | split; [ | split ] ].
  - intros ->. cbn [negb]. auto.
  - intros ->. cbn [fst snd walls onWallsChange].
    split; [reflexivity | ].
    intros w. rewrite filter_In, negb_true_iff. reflexivity.
  - destruct (truthy sel); cbn [negb];
      [ | split; [reflexivity | split; reflexivity] ].
    cbn [walls onWallsChange].
    split; [apply edit_outline; reflexivity | ].
    split; [ | apply Hfilter; reflexivity].
    rewrite map_map. apply map_ext. intros w.
    destruct (isSelected sel w); reflexivity.
  - destruct (truthy sel); cbn [negb];
      [ | split; [reflexivity | split; reflexivity] ].
    cbn [walls onWallsChange].
    split; [apply edit_outline; reflexivity | ].
    split; [ | apply Hfilter; reflexivity].
    rewrite map_map. apply map_ext. intros w.
    destruct (isSelected sel w); reflexivity.
Qed.

Lemma selected_wall_editing_witness :
  map id (walls (fst (deleteSelectedWall (Some "a"%string) twoWalls)))
  = ["b"%string]
  /\ deleteSelectedWall (Some EmptyString) twoWalls
     = (twoWalls, Some EmptyString).
Proof.
  split; [reflexivity | ].
  apply (proj1 (selected_wall_editing EmptyString (Some EmptyString) twoWalls)).
  reflexivity.
Defined.

End DrawingFacts.

(** ** Distances and areas *)

Section DistanceFacts.
Import Reals.
Local Open Scope Q_scope.

Lemma ltb_lt (a b : Q) : ltb a b = true <-> a < b.
Proof.
  unfold ltb. rewrite negb_true_iff. split.
  - intros H. apply Qnot_le_lt. intros Hle.
    apply Qle_bool_iff in Hle. congruence.
  - intros H. destruct (Qle_bool b a) eqn:E; [ | reflexivity].
    apply Qle_bool_iff in E. exfalso. apply (Qlt_not_le _ _ H E).
Qed.

Lemma sqDistance_real (p1 p2 : Point2D) :
  (Q2R (sqDistance p1 p2)
   = (Q2R (x p2) - Q2R (x p1)) ^ 2
     + (Q2R (z p2) - Q2R (z p1)) ^ 2)%R.
Proof.
  unfold sqDistance.
  rewrite Qreals.Q2R_plus, !Qreals.Q2R_mult, !Qreals.Q2R_minus.
  simpl. ring.
Qed.

Lemma sqrt_lt_iff (d t : R) :
  (0 <= d)%R -> (sqrt d < t <-> 0 < t /\ d < t * t)%R.
Proof.
  intros Hd. split.
  - intros H. pose proof (sqrt_pos d) as Hs.
    split; [apply (Rle_lt_trans _ _ _ Hs H) | ].
    rewrite <- (sqrt_sqrt d Hd) at 1.
    apply Rmult_le_0_lt_compat; assumption.
  - intros [Ht H].
    rewrite <- (sqrt_square t) by (apply Rlt_le, Ht).
    apply sqrt_lt_1; [exact Hd | | exact H].
    apply Rmult_le_pos; apply Rlt_le, Ht.
Qed.

Lemma lt_sqrt_iff (d t : R) :
  (0 <= d)%R -> (0 <= t)%R -> (t < sqrt d <-> t * t < d)%R.
Proof.
  intros Hd Ht. split.
  - intros H. rewrite <- (sqrt_sqrt d Hd).
    apply Rmult_le_0_lt_compat; assumption.
  - intros H. rewrite <- (sqrt_square t) by exact Ht.
    apply sqrt_lt_1; [ | exact Hd | exact H].
    apply Rmult_le_pos; exact Ht.
Qed.

Lemma sqDistance_nonneg (p1 p2 : Point2D) :
  (0 <= Q2R (sqDistance p1 p2))%R.
Proof.
  rewrite sqDistance_real. apply Rplus_le_le_0_compat; apply pow2_ge_0.
Qed.

(** X5.  Comparing [calculateDistance] with a threshold is a comparison
    of the squared distance: the distance is below t exactly when t is
    positive and the squared distance is below t squared, and for t not
    negative it is above t exactly when the squared distance is above t
    squared.  These are the tests the walks, the nearest-point search and
    the wall tool make. *)
Theorem calculateDistance_thresholds (p1 p2 : Point2D) (t : Q) :
  ((Distance.calculateDistance p1 p2 < Q2R t)%R
   <-> distance_lt p1 p2 t = true)
  /\ (0 <= t ->
      ((Q2R t < Distance.calculateDistance p1 p2)%R
       <-> distance_gt p1 p2 t = true)).
Proof.
  unfold Distance.calculateDistance. rewrite <- sqDistance_real.
  pose proof (sqDistance_nonneg p1 p2) as Hd.
  split.
  - rewrite (sqrt_lt_iff _ _ Hd).
    unfold distance_lt. rewrite andb_true_iff, !ltb_lt.
    rewrite <- Qreals.Q2R_mult, <- RMicromega.Q2R_0.
    split; intros [H1 H2]; split;
      auto using Qreals.Rlt_Qlt, Qreals.Qlt_Rlt.
  - intros Ht.
    assert (Ht' : (0 <= Q2R t)%R)
      by (rewrite <- RMicromega.Q2R_0; apply Qreals.Qle_Rle, Ht).
    rewrite (lt_sqrt_iff _ _ Hd Ht').
    unfold distance_gt. rewrite ltb_lt, <- Qreals.Q2R_mult.
    split; auto using Qreals.Rlt_Qlt, Qreals.Qlt_Rlt.
Qed.

Lemma calculateDistance_thresholds_witness :
  0 <= 1 # 10
  /\ (Q2R (1 # 10)
      < Distance.calculateDistance (mkPoint 0 0) (mkPoint 3 4))%R.
Proof.
  split; [discriminate | ].
  apply (proj2 (calculateDistance_thresholds (mkPoint 0 0) (mkPoint 3 4) (1 # 10)));
    [discriminate | reflexivity].
Defined.

End DistanceFacts.

Section AreaFacts.

Lemma sumQ_app (l l' : list Q) : sumQ (l ++ l') == sumQ l + sumQ l'.
Proof.
  induction l as [|a l IH]; simpl; [ring | rewrite IH; ring].
Qed.

Lemma sumQ_rev (l : list Q) : sumQ (rev l) == sumQ l.
Proof.
  induction l as [|a l IH]; simpl; [reflexivity | ].
  rewrite sumQ_app, IH. simpl. ring.
Qed.

Lemma sumQ_map_ext {A : Type} (f g : A -> Q) (l : list A) :
  (forall a, f a == g a) -> sumQ (map f l) == sumQ (map g l).
Proof.
  intros H; induction l as [|a l IH]; simpl; [reflexivity | ].
  rewrite IH, H. reflexivity.
Qed.

Lemma sumQ_map_plus {A : Type} (f g : A -> Q) (l : list A) :
  sumQ (map (fun a => f a + g a) l) == sumQ (map f l) + sumQ (map g l).
Proof.
  induction l as [|a l IH]; simpl; [ring | rewrite IH; ring].
Qed.

Lemma sumQ_map_scale {A : Type} (c : Q) (f : A -> Q) (l : list A) :
  sumQ (map (fun a => c * f a) l) == c * sumQ (map f l).
Proof.
  induction l as [|a l IH]; simpl; [ring | rewrite IH; ring].
Qed.

Lemma sumQ_map_opp {A : Type} (f : A -> Q) (l : list A) :
  sumQ (map (fun a => - f a) l) == - sumQ (map f l).
Proof.
  induction l as [|a l IH]; simpl; [ring | rewrite IH; ring].
Qed.

Lemma combine_snoc {A B : Type} (l : list A) (l' : list B) (a : A) (b : B) :
  List.length l = List.length l' ->
  combine (l ++ [a]) (l' ++ [b]) = combine l l' ++ [(a, b)].
Proof.
  revert l'; induction l as [|h l IH]; intros [|h' l'] H; simpl in *;
    try discriminate; [reflexivity | ].
  f_equal. apply IH. lia.
Qed.

Lemma combine_rev {A B : Type} (l : list A) (l' : list B) :
  List.length l = List.length l' ->
  combine (rev l) (rev l') = rev (combine l l').
Proof.
  revert l'; induction l as [|h l IH]; intros [|h' l'] H; simpl in *;
    try discriminate; [reflexivity | ].
  rewrite combine_snoc by (rewrite !length_rev; lia).
  rewrite IH by lia. reflexivity.
Qed.

Lemma combine_map_both {A B : Type} (f : A -> B) (l l' : list A) :
  combine (map f l) (map f l')
  = map (fun pq => (f (fst pq), f (snd pq))) (combine l l').
Proof.
  revert l'; induction l as [|h l IH]; intros [|h' l']; simpl;
    try reflexivity.
  f_equal. apply IH.
Qed.

Lemma combine_swap {A : Type} (l l' : list A) :
  combine l' l = map (fun pq => (snd pq, fst pq)) (combine l l').
Proof.
  revert l'; induction l as [|h l IH]; intros [|h' l']; simpl;
    try reflexivity.
  f_equal. apply IH.
Qed.

Lemma cyclic_successors_length (points : list Point2D) :
  List.length (cyclic_successors points) = List.length points.
Proof.
  destruct points as [|p rest]; simpl; [reflexivity | ].
  rewrite length_app. simpl. lia.
Qed.

Lemma sum_of_differences (f : Point2D -> Q) (l l' : list Point2D) :
  List.length l = List.length l' ->
  sumQ (map (fun pq => f (snd pq) - f (fst pq)) (combine l l'))
  == sumQ (map f l') - sumQ (map f l).
Proof.
  revert l'; induction l as [|h l IH]; intros [|h' l'] H; simpl in *;
    try discriminate; [ring | ].
  rewrite IH by lia. ring.
Qed.

Lemma cyclic_differences (f : Point2D -> Q) (points : list Point2D) :
  sumQ (map (fun pq => f (snd pq) - f (fst pq))
            (combine points (cyclic_successors points)))
  == 0.
Proof.
  rewrite sum_of_differences by (symmetry; apply cyclic_successors_length).
  destruct points as [|p rest]; simpl; [ring | ].
  rewrite map_app, sumQ_app. simpl. ring.
Qed.

(** The area in terms of the determinant sum, for every list. *)
Lemma calculatePolygonArea_sum (points : list Point2D) :
  calculatePolygonArea points
  == if (List.length points <? 3)%nat then 0 else shoelace points.
Proof.
  unfold calculatePolygonArea.
  destruct (List.length points <? 3)%nat; [reflexivity | ].
  unfold shoelace, determinant_sum, Math_abs.
  rewrite <- determinants_by_index.
  match goal with
  | |- Qabs ?a / 2 == Qabs ?b / 2 =>
      assert (Hab : a == b); [ | rewrite Hab; reflexivity ]
  end.
  rewrite (fold_left_accumulate _
             (fun i =>
                det (nth i points origin)
                    (nth ((i + 1) mod List.length points) points origin))).
  - ring.
  - intros acc i. unfold det. ring.
Qed.

Lemma determinant_sum_translate (a b : Q) (points : list Point2D) :
  determinant_sum (map (translate a b) points) == determinant_sum points.
Proof.
  unfold determinant_sum.
  assert (Hs : cyclic_successors (map (translate a b) points)
               = map (translate a b) (cyclic_successors points))
    by (destruct points; simpl; [reflexivity | rewrite map_app; reflexivity]).
  rewrite Hs, combine_map_both, map_map. cbn [fst snd].
  rewrite (sumQ_map_ext _
             (fun pq =>
                det (fst pq) (snd pq)
                + (a * (z (snd pq) - z (fst pq))
                   + (- b) * (x (snd pq) - x (fst pq))))).
  - rewrite sumQ_map_plus, sumQ_map_plus, !sumQ_map_scale.
    rewrite (cyclic_differences z), (cyclic_differences x). ring.
  - intros [p q]. unfold det, translate. cbn [fst snd x z]. ring.
Qed.

Lemma determinant_sum_shift (p : Point2D) (rest : list Point2D) :
  determinant_sum (rest ++ [p]) == determinant_sum (p :: rest).
Proof.
  destruct rest as [|r rest]; [reflexivity | ].
  unfold determinant_sum. cbn [cyclic_successors app].
  change (combine (r :: rest ++ [p]) ((rest ++ [p]) ++ [r]))
    with (combine ((r :: rest) ++ [p]) ((rest ++ [p]) ++ [r])).
  rewrite combine_snoc by (rewrite length_app; simpl; lia).
  rewrite map_app, sumQ_app. cbn [combine map fst snd sumQ fold_right].
  ring.
Qed.

Lemma determinant_sum_rev (points : list Point2D) :
  determinant_sum (rev points) == - determinant_sum points.
Proof.
  destruct points as [|p rest]; [reflexivity | ].
  cbn [rev]. rewrite determinant_sum_shift.
  unfold determinant_sum. cbn [cyclic_successors].
  replace (combine (p :: rev rest) (rev rest ++ [p]))
    with (rev (combine (rest ++ [p]) (p :: rest))).
  - rewrite (combine_swap (p :: rest) (rest ++ [p])).
    rewrite map_rev, sumQ_rev, map_map. cbn [fst snd].
    rewrite <- sumQ_map_opp.
    apply sumQ_map_ext. intros [u v]. unfold det. cbn [fst snd]. ring.
  - rewrite <- combine_rev by (rewrite length_app; simpl; lia).
    rewrite rev_app_distr. reflexivity.
Qed.

Lemma shoelace_comp (l l' : list Point2D) :
  determinant_sum l == determinant_sum l' -> shoelace l == shoelace l'.
Proof. intros H. unfold shoelace, Math_abs. rewrite H. reflexivity. Qed.

Lemma onSurface_half (p : Point2D) (i j : Z) :
  x p == inject_Z i * (1 # 2) -> z p == inject_Z j * (1 # 2) ->
  (-25 <= i <= 25)%Z -> (-30 <= j <= 30)%Z ->
  onSurface p.
Proof.
  intros Hx Hz Hi Hj. unfold onSurface, onGrid, onGridLine.
  split; [split; [exists i; exact Hx | exists j; exact Hz] | ].
  rewrite Hx, Hz. unfold Qle; cbn; lia.
Qed.

(** X6.  On the drawing surface the area of a polygon does not depend on
    where it lies: when the vertices are grid points of the surface and
    the polygon is moved, every vertex by the same offset, to grid points
    of the surface, [calculatePolygonArea] returns the same area. *)
Theorem calculatePolygonArea_translate (a b : Q) (points : list Point2D) :
  Forall onSurface points ->
  Forall onSurface (map (translate a b) points) ->
  calculatePolygonArea (map (translate a b) points)
  == calculatePolygonArea points.
Proof.
  intros _ _.
  rewrite !calculatePolygonArea_sum, length_map.
  destruct (List.length points <? 3)%nat; [reflexivity | ].
  apply shoelace_comp, determinant_sum_translate.
Qed.

Lemma unitSquare_onSurface : Forall onSurface unitSquare.
Proof.
  repeat (apply Forall_cons; [ | ]); [ | | | | apply Forall_nil].
  - apply (onSurface_half _ 0 0); [reflexivity | reflexivity | lia | lia].
  - apply (onSurface_half _ 2 0); [reflexivity | reflexivity | lia | lia].
  - apply (onSurface_half _ 2 2); [reflexivity | reflexivity | lia | lia].
  - apply (onSurface_half _ 0 2); [reflexivity | reflexivity | lia | lia].
Qed.

Lemma movedSquare_onSurface : Forall onSurface movedSquare.
Proof.
  repeat (apply Forall_cons; [ | ]); [ | | | | apply Forall_nil].
  - apply (onSurface_half _ 4 1); [reflexivity | reflexivity | lia | lia].
  - apply (onSurface_half _ 6 1); [reflexivity | reflexivity | lia | lia].
  - apply (onSurface_half _ 6 3); [reflexivity | reflexivity | lia | lia].
  - apply (onSurface_half _ 4 3); [reflexivity | reflexivity | lia | lia].
Qed.

Lemma calculatePolygonArea_translate_witness :
  calculatePolygonArea (map (translate 2 (1 # 2)) unitSquare)
  == calculatePolygonArea unitSquare.
Proof.
  apply (calculatePolygonArea_translate 2 (1 # 2) unitSquare).
  - exact unitSquare_onSurface.
  - exact movedSquare_onSurface.
Defined.

(** X7.  On the drawing surface the area of a polygon does not depend on
    how its outline is listed: for vertices that are grid points of the
    surface, starting the list at the next vertex, or listing the
    vertices in the opposite direction, leaves [calculatePolygonArea]
    unchanged. *)
Theorem calculatePolygonArea_vertex_order (p : Point2D) (rest : list Point2D) :
  Forall onSurface (p :: rest) ->
  calculatePolygonArea (rest ++ [p]) == calculatePolygonArea (p :: rest)
  /\ calculatePolygonArea (rev (p :: rest)) == calculatePolygonArea (p :: rest).
Proof.
  intros _.
  rewrite !calculatePolygonArea_sum, length_rev.
  assert (Hl : List.length (rest ++ [p]) = List.length (p :: rest))
    by (rewrite length_app; simpl; lia).
  rewrite Hl.
  destruct (List.length (p :: rest) <? 3)%nat; [split; reflexivity | ].
  split.
  - apply shoelace_comp, determinant_sum_shift.
  - unfold shoelace, Math_abs. rewrite determinant_sum_rev, Qabs_opp.
    reflexivity.
Qed.

Lemma calculatePolygonArea_vertex_order_witness :
  calculatePolygonArea [mkPoint 1 0; mkPoint 1 1; mkPoint 0 1; mkPoint 0 0]
  == calculatePolygonArea unitSquare.
Proof.
  apply (calculatePolygonArea_vertex_order (mkPoint 0 0)
           [mkPoint 1 0; mkPoint 1 1; mkPoint 0 1]).
  exact unitSquare_onSurface.
Defined.

End AreaFacts.

Section RoomOutlineFacts.
Import Designer.

Lemma max_minus_min (a b : Q) :
  0 <= Qmax a b - Qmin a b /\ Qmax a b - Qmin a b == Qabs (b - a).
Proof.
  destruct (Qlt_le_dec a b) as [Hlt | Hle].
  - assert (Hab : a <= b) by (apply Qlt_le_weak, Hlt).
    assert (Hd : 0 <= b - a)
      by (setoid_replace 0 with (a - a) by ring; apply Qplus_le_l, Hab).
    rewrite (Q.max_r a b Hab), (Q.min_l a b Hab), (Qabs_pos _ Hd).
    split; [exact Hd | reflexivity].
  - assert (Hd : 0 <= a - b)
      by (setoid_replace 0 with (b - b) by ring; apply Qplus_le_l, Hle).
    assert (Hn : b - a <= 0)
      by (setoid_replace 0 with (a - a) by ring; apply Qplus_le_l, Hle).
    rewrite (Q.max_l a b Hle), (Q.min_r a b Hle), (Qabs_neg _ Hn).
    split; [exact Hd | ring].
Qed.

Lemma box_area (mX MX mZ MZ : Q) :
  0 <= MX - mX -> 0 <= MZ - mZ ->
  shoelace [mkPoint mX mZ; mkPoint MX mZ; mkPoint MX MZ; mkPoint mX MZ]
  == (MX - mX) * (MZ - mZ).
Proof.
  intros Hx Hz. unfold shoelace, determinant_sum, Math_abs.
  cbn [cyclic_successors app combine map fst snd sumQ fold_right].
  unfold det; cbn [x z].
  assert (Hpos : 0 <= 2 * ((MX - mX) * (MZ - mZ)))
    by (apply Qmult_le_0_compat; [discriminate | ];
        apply Qmult_le_0_compat; assumption).
  assert (Heq : mX * mZ - MX * mZ
                + (MX * MZ - MX * mZ
                   + (MX * MZ - mX * MZ + (mX * mZ - mX * MZ + 0)))
                == 2 * ((MX - mX) * (MZ - mZ))) by ring.
  assert (Habs : Qabs (mX * mZ - MX * mZ
                       + (MX * MZ - MX * mZ
                          + (MX * MZ - mX * MZ + (mX * mZ - mX * MZ + 0))))
                 == 2 * ((MX - mX) * (MZ - mZ)))
    by (rewrite (Qabs_wd _ _ Heq); apply Qabs_pos, Hpos).
  unfold Qdiv.
  etransitivity; [apply (Qmult_comp _ _ Habs (/ 2) (/ 2)); reflexivity | field].
Qed.

(** X8.  The outline that [createRectangularRoom] draws between two
    grid points of the drawing surface encloses the rectangle between
    them: the starts of its four new walls, given to
    [calculatePolygonArea], yield |x2 - x1| times |z2 - z1|, whichever
    corner was clicked first. *)
Theorem createRectangularRoom_area (newId : nat -> string) (s e : Point2D)
  (st : State) :
  onSurface s -> onSurface e ->
  calculatePolygonArea
    (map start
         (skipn (List.length (walls st))
                (walls (createRectangularRoom newId s e st))))
  == Qabs (x e - x s) * Qabs (z e - z s).
Proof.
  intros _ _.
  rewrite createRectangularRoom_walls, skipn_app, skipn_all, Nat.sub_diag.
  cbv zeta. cbn [skipn app map fst snd start].
  rewrite calculatePolygonArea_sum. cbn [List.length Nat.ltb Nat.leb].
  unfold Math_min, Math_max.
  destruct (max_minus_min (x s) (x e)) as [Hx Hax].
  destruct (max_minus_min (z s) (z e)) as [Hz Haz].
  rewrite (box_area _ _ _ _ Hx Hz).
  apply Qmult_comp; assumption.
Qed.

Lemma createRectangularRoom_area_witness :
  calculatePolygonArea
    (map start (walls (createRectangularRoom drawnIds origin (mkPoint 4 3)
                         emptyStart)))
  == Qabs (4 - 0) * Qabs (3 - 0).
Proof.
  apply (createRectangularRoom_area drawnIds origin (mkPoint 4 3) emptyStart).
  - apply (onSurface_half _ 0 0); [reflexivity | reflexivity | lia | lia].
  - apply (onSurface_half _ 8 6); [reflexivity | reflexivity | lia | lia].
Defined.

End RoomOutlineFacts.

(** ** The gabled roof area, further *)

Section RoofSlopeFacts.
Import Reals Lra RoofArea.
Local Open Scope R_scope.

Lemma roofWidth_pos (b : Bounds) : 0 < roofWidth b.
Proof.
  unfold roofWidth. eapply Rlt_le_trans; [ | apply Rmax_l]. lra.
Qed.

Lemma roofDepth_pos (b : Bounds) : 0 < roofDepth b.
Proof.
  unfold roofDepth. eapply Rlt_le_trans; [ | apply Rmax_l]. lra.
Qed.

Lemma pitch_cosine (pitch : R) :
  -90 < pitch < 90 -> 0 < cos (pitch * PI / 180) <= 1.
Proof.
  intros [Hlo Hhi]. pose proof PI_RGT_0 as Hpi. split.
  - apply cos_gt_0.
    + replace (- (PI / 2)) with ((-90) * PI / 180) by field.
      unfold Rdiv. apply Rmult_lt_compat_r; [lra | ].
      apply Rmult_lt_compat_r; assumption.
    + replace (PI / 2) with (90 * PI / 180) by field.
      unfold Rdiv. apply Rmult_lt_compat_r; [lra | ].
      apply Rmult_lt_compat_r; assumption.
  - apply COS_bound.
Qed.

(** X9.  For a pitch strictly between -90 and 90 degrees and an overhang
    that is not negative, the roof area is positive and at least the flat
    area under the roof, (width + 2 overhang)(depth + 2 overhang); at pitch
    0 it is exactly that area. *)
Theorem roofAreaFromBounds_covers_footprint (bounds : Bounds)
  (pitch overhang : R) :
  -90 < pitch < 90 -> 0 <= overhang ->
  0 < roofAreaFromBounds (Some bounds) (Some pitch) (Some overhang)
  /\ (roofWidth bounds + 2 * overhang) * (roofDepth bounds + 2 * overhang)
     <= roofAreaFromBounds (Some bounds) (Some pitch) (Some overhang)
  /\ roofAreaFromBounds (Some bounds) (Some 0) (Some overhang)
     = (roofWidth bounds + 2 * overhang) * (roofDepth bounds + 2 * overhang).
Proof.
  intros Hp Ho.
  assert (Hform : forall p,
             roofAreaFromBounds (Some bounds) (Some p) (Some overhang)
             = (roofWidth bounds + 2 * overhang)
               * (roofDepth bounds + 2 * overhang) / cos (p * PI / 180))
    by (intros p; unfold roofAreaFromBounds; apply halves_twice).
  rewrite !Hform.
  pose proof (roofWidth_pos bounds) as Hw.
  pose proof (roofDepth_pos bounds) as Hd.
  destruct (pitch_cosine pitch Hp) as [Hc0 Hc1].
  set (A := (roofWidth bounds + 2 * overhang) * (roofDepth bounds + 2 * overhang)).
  assert (HA : 0 < A) by (apply Rmult_lt_0_compat; lra).
  assert (Hinv : 1 <= / cos (pitch * PI / 180)).
  { rewrite <- Rinv_1. apply Rinv_le_contravar; assumption. }
  split; [ | split ].
  - apply Rdiv_lt_0_compat; assumption.
  - unfold Rdiv. rewrite <- (Rmult_1_r A) at 1.
    apply Rmult_le_compat_l; [lra | exact Hinv].
  - replace (0 * PI / 180) with 0 by field. rewrite cos_0. field.
Qed.

Lemma roofAreaFromBounds_covers_footprint_witness :
  0 < roofAreaFromBounds (Some (mkBounds (-5) 5 (-5) 5)) (Some 30) (Some 0).
Proof.
  apply (roofAreaFromBounds_covers_footprint (mkBounds (-5) 5 (-5) 5) 30 0);
    lra.
Defined.

End RoofSlopeFacts.

(** ** The cost estimator, further *)

Section EstimateFacts.
Import Estimator.

(** The estimate in closed form, for every input. *)
Lemma estimateMaterials_model (walls : list Wall) (roofArea : number)
  (config : Rates) :
  sameResults (estimateMaterials walls roofArea config)
              (flatModel walls roofArea config).
Proof.
  pose proof (fold_left_sumQ length walls 0) as Hp.
  unfold estimateMaterials.
  match goal with
  | |- context [fold_left ?f walls ?i] =>
      match type of i with Results => set (F := fold_left f walls i) end
  end.
  assert (Ht : totalWallArea F
               == 0 + sumQ (map (fun w => length w * height w) walls))
    by exact (accumulateArea_total walls (mkResults 0 0 0 0 0 0 0)).
  assert (Hm : material_cost F = 0)
    by exact (proj1 (proj2 (proj2 (proj2
               (accumulateArea_others walls (mkResults 0 0 0 0 0 0 0)))))).
  clearbody F. destruct F as [a b c d e f g].
  cbv beta iota zeta
      delta [totalWallArea hollowblock_count cement_bags rebar_cost
             material_cost labor_cost total_cost] in Ht, Hm.
  assert (Ha : a == sumQ (map (fun w => length w * height w) walls))
    by (rewrite Ht; ring).
  subst e.
  cbv beta iota zeta
      delta [sameResults flatModel Math_ceil Math_round
             set_total_cost set_material_cost set_labor_cost set_rebar_cost
             set_cement_bags set_hollowblock_count
             totalWallArea hollowblock_count cement_bags rebar_cost
             material_cost labor_cost total_cost].
  assert (Hb : Qceiling (a / hollowblock_size_sqm config)
               = Qceiling (sumQ (map (fun w => length w * height w) walls)
                           / hollowblock_size_sqm config))
    by (apply Qceiling_comp, Qdiv_comp; [exact Ha | reflexivity]).
  assert (Hc : Qceiling (a * cement_bag_per_sqm config)
               = Qceiling (sumQ (map (fun w => length w * height w) walls)
                           * cement_bag_per_sqm config))
    by (apply Qceiling_comp, Qmult_comp; [exact Ha | reflexivity]).
  assert (Hl : a * labor_per_sqm config
               == sumQ (map (fun w => length w * height w) walls)
                  * labor_per_sqm config)
    by (apply Qmult_comp; [exact Ha | reflexivity]).
  rewrite Hb, Hc, Hp.
  split; [exact Ha | ].
  split; [reflexivity | ].
  split; [reflexivity | ].
  split; [ring | ].
  split; [ring | ].
  split; [exact Hl | ].
  apply inject_Z_injective, Qfloor_comp.
  apply Qplus_comp; [ | reflexivity].
  apply Qplus_comp; [ring | exact Hl].
Qed.

Lemma Qle_by_eq (a a' b b' : Q) : a == a' -> b == b' -> a' <= b' -> a <= b.
Proof. intros Ha Hb H. rewrite Ha, Hb. exact H. Qed.

Lemma flatModel_monotone (walls : list Wall) (w : Wall)
  (roofArea roofArea' : number) (config : Rates) :
  sensibleRates config -> 0 <= length w -> 0 <= height w ->
  roofArea <= roofArea' ->
  let r := flatModel walls roofArea config in
  let r' := flatModel (w :: walls) roofArea' config in
  totalWallArea r <= totalWallArea r'
  /\ hollowblock_count r <= hollowblock_count r'
  /\ cement_bags r <= cement_bags r'
  /\ rebar_cost r <= rebar_cost r'
  /\ material_cost r <= material_cost r'
  /\ labor_cost r <= labor_cost r'
  /\ total_cost r <= total_cost r'.
Proof.
  intros (Hpp & Hs & Hbag & Hcp & Hrp & Hlp & Hroof) Hl Hh Hr.
  unfold flatModel.
  cbv beta iota zeta
      delta [totalWallArea hollowblock_count cement_bags rebar_cost
             material_cost labor_cost total_cost].
  cbn [map sumQ fold_right].
  fold (sumQ (map (fun w0 => length w0 * height w0) walls)).
  fold (sumQ (map length walls)).
  set (A := sumQ (map (fun w0 => length w0 * height w0) walls)).
  set (P := sumQ (map length walls)).
  assert (HA : A <= length w * height w + A).
  { rewrite <- (Qplus_0_l A) at 1. apply Qplus_le_l.
    apply Qmult_le_0_compat; assumption. }
  assert (HP : P <= length w + P).
  { rewrite <- (Qplus_0_l P) at 1. apply Qplus_le_l. exact Hl. }
  assert (Hblocks : inject_Z (Qceiling (A / hollowblock_size_sqm config))
                    <= inject_Z (Qceiling ((length w * height w + A)
                                           / hollowblock_size_sqm config))).
  { rewrite <- Zle_Qle. apply Qceiling_resp_le. unfold Qdiv.
    apply Qmult_le_compat_r; [exact HA | ].
    apply Qinv_le_0_compat, Qlt_le_weak, Hs. }
  assert (Hbags : inject_Z (Qceiling (A * cement_bag_per_sqm config))
                  <= inject_Z (Qceiling ((length w * height w + A)
                                         * cement_bag_per_sqm config))).
  { rewrite <- Zle_Qle. apply Qceiling_resp_le.
    apply Qmult_le_compat_r; assumption. }
  assert (Hrebar : P * 2 * rebar_price_per_kg config
                   <= (length w + P) * 2 * rebar_price_per_kg config).
  { apply Qmult_le_compat_r; [ | exact Hrp].
    apply Qmult_le_compat_r; [exact HP | discriminate]. }
  assert (Hlabor : A * labor_per_sqm config
                   <= (length w * height w + A) * labor_per_sqm config)
    by (apply Qmult_le_compat_r; assumption).
  assert (Hmat : inject_Z (Qceiling (A / hollowblock_size_sqm config))
                 * hollowblock_per_piece config
                 + inject_Z (Qceiling (A * cement_bag_per_sqm config))
                   * cement_price_per_bag config
                 + P * 2 * rebar_price_per_kg config
                 + roofArea * roof_price_per_sqm config
                 <= inject_Z (Qceiling ((length w * height w + A)
                                        / hollowblock_size_sqm config))
                    * hollowblock_per_piece config
                    + inject_Z (Qceiling ((length w * height w + A)
                                          * cement_bag_per_sqm config))
                      * cement_price_per_bag config
                    + (length w + P) * 2 * rebar_price_per_kg config
                    + roofArea' * roof_price_per_sqm config).
  { repeat apply Qplus_le_compat;
      try (apply Qmult_le_compat_r; assumption); assumption. }
  split; [exact HA | ].
  split; [exact Hblocks | ].
  split; [exact Hbags | ].
  split; [exact Hrebar | ].
  split; [exact Hmat | ].
  split; [exact Hlabor | ].
  rewrite <- Zle_Qle. apply Qfloor_resp_le.
  apply Qplus_le_compat; [ | apply Qle_refl].
  apply Qplus_le_compat; assumption.
Qed.

(** X11.  More wall or more roof never costs less: under a rate table
    without negative entries, adding a wall of non-negative length and
    height, or enlarging the roof area, lowers no field of the estimate,
    the total cost among them. *)
Theorem estimateMaterials_monotone (walls : list Wall) (w : Wall)
  (roofArea roofArea' : number) (config : Rates) :
  sensibleRates config -> 0 <= length w -> 0 <= height w ->
  roofArea <= roofArea' ->
  let r := estimateMaterials walls roofArea config in
  let r' := estimateMaterials (w :: walls) roofArea' config in
  totalWallArea r <= totalWallArea r'
  /\ hollowblock_count r <= hollowblock_count r'
  /\ cement_bags r <= cement_bags r'
  /\ rebar_cost r <= rebar_cost r'
  /\ material_cost r <= material_cost r'
  /\ labor_cost r <= labor_cost r'
  /\ total_cost r <= total_cost r'.
Proof.
  intros Hrates Hl Hh Hr. cbv zeta.
  destruct (estimateMaterials_model walls roofArea config)
    as (A1 & A2 & A3 & A4 & A5 & A6 & A7).
  destruct (estimateMaterials_model (w :: walls) roofArea' config)
    as (B1 & B2 & B3 & B4 & B5 & B6 & B7).
  destruct (flatModel_monotone walls w roofArea roofArea' config
              Hrates Hl Hh Hr) as (C1 & C2 & C3 & C4 & C5 & C6 & C7).
  repeat split; eapply Qle_by_eq; eassumption.
Qed.

Lemma estimateMaterials_monotone_witness :
  total_cost (estimateMaterials [mkWall 4 3] 24 rates)
  <= total_cost (estimateMaterials [mkWall (5 # 2) 3; mkWall 4 3] 30 rates).
Proof.
  apply (estimateMaterials_monotone [mkWall 4 3] (mkWall (5 # 2) 3) 24 30 rates);
    try discriminate.
  repeat split; discriminate.
Defined.

End EstimateFacts.

(** ** The square house planner *)

Section PlannerFacts.
Import HousePlanner.

Lemma Math_min_list_lower (t : list Q) (h y : Q) :
  In y (h :: t) -> Math_min_list h t <= y.
Proof.
  revert h; induction t as [|a t IH]; intros h Hin.
  - destruct Hin as [<- | []]. apply Qle_refl.
  - change (Math_min_list h (a :: t)) with (Math_min_list (Math_min h a) t).
    destruct Hin as [<- | [<- | Hin]].
    + eapply Qle_trans; [apply Math_min_list_le | apply Q.le_min_l].
    + eapply Qle_trans; [apply Math_min_list_le | apply Q.le_min_r].
    + apply IH. right; exact Hin.
Qed.

Lemma Math_max_list_upper (t : list Q) (h y : Q) :
  In y (h :: t) -> y <= Math_max_list h t.
Proof.
  revert h; induction t as [|a t IH]; intros h Hin.
  - destruct Hin as [<- | []]. apply Qle_refl.
  - change (Math_max_list h (a :: t)) with (Math_max_list (Math_max h a) t).
    destruct Hin as [<- | [<- | Hin]].
    + eapply Qle_trans; [apply Q.le_max_l | apply Math_max_list_ge].
    + eapply Qle_trans; [apply Q.le_max_r | apply Math_max_list_ge].
    + apply IH. right; exact Hin.
Qed.

Lemma Math_min_list_attained (t : list Q) (h : Q) :
  exists y, In y (h :: t) /\ Math_min_list h t == y.
Proof.
  revert h; induction t as [|a t IH]; intros h.
  - exists h. split; [left; reflexivity | reflexivity].
  - change (Math_min_list h (a :: t)) with (Math_min_list (Math_min h a) t).
    destruct (IH (Math_min h a)) as (y & [<- | Hin] & Hy).
    + unfold Math_min in Hy |- *.
      destruct (Q.min_spec h a) as [[_ E] | [_ E]].
      * exists h. split; [left; reflexivity | ].
        etransitivity; [exact Hy | exact E].
      * exists a. split; [right; left; reflexivity | ].
        etransitivity; [exact Hy | exact E].
    + exists y. split; [right; right; exact Hin | exact Hy].
Qed.

Lemma Math_max_list_attained (t : list Q) (h : Q) :
  exists y, In y (h :: t) /\ Math_max_list h t == y.
Proof.
  revert h; induction t as [|a t IH]; intros h.
  - exists h. split; [left; reflexivity | reflexivity].
  - change (Math_max_list h (a :: t)) with (Math_max_list (Math_max h a) t).
    destruct (IH (Math_max h a)) as (y & [<- | Hin] & Hy).
    + unfold Math_max in Hy |- *.
      destruct (Q.max_spec h a) as [[_ E] | [_ E]].
      * exists a. split; [right; left; reflexivity | ].
        etransitivity; [exact Hy | exact E].
      * exists h. split; [left; reflexivity | ].
        etransitivity; [exact Hy | exact E].
    + exists y. split; [right; right; exact Hin | exact Hy].
Qed.

Lemma nth_error_setIndex (l : list Wall) (i : nat) (v : Wall) :
  (i < List.length l)%nat -> nth_error (setIndex i v l) i = Some v.
Proof.
  revert i; induction l as [|w l IH]; intros [|i] H; simpl in *;
    try lia; [reflexivity | apply IH; lia].
Qed.

Lemma nth_error_setIndex_other (l : list Wall) (i j : nat) (v : Wall) :
  i <> j -> nth_error (setIndex i v l) j = nth_error l j.
Proof.
  revert i j; induction l as [|w l IH]; intros [|i] [|j] H; simpl;
    try reflexivity; try congruence.
  apply IH. congruence.
Qed.

Lemma setIndex_length (l : list Wall) (i : nat) (v : Wall) :
  List.length (setIndex i v l) = List.length l.
Proof.
  revert i; induction l as [|w l IH]; intros [|i]; simpl; auto.
Qed.

Lemma setIndex_restore (l : list Wall) (i : nat) (v w : Wall) :
  nth_error l i = Some w -> setIndex i w (setIndex i v l) = l.
Proof.
  revert i; induction l as [|u l IH]; intros [|i] H; simpl in *;
    try discriminate.
  - injection H as ->. reflexivity.
  - f_equal. apply IH, H.
Qed.

Lemma inRange_nthWall (st : State) :
  inRange st = true -> exists wall, nthWall st = Some wall.
Proof.
  unfold inRange, nthWall. intros H. apply andb_true_iff in H.
  destruct H as [H0 H1]. apply Z.leb_le in H0. apply Z.ltb_lt in H1.
  destruct (nth_error (walls st) (Z.to_nat (selectedWall st))) eqn:E;
    [eexists; reflexivity | ].
  apply nth_error_None in E. lia.
Qed.

Lemma inRange_index (st : State) :
  inRange st = true ->
  (Z.to_nat (selectedWall st) < List.length (walls st))%nat.
Proof.
  unfold inRange. intros H. apply andb_true_iff in H.
  destruct H as [H0 H1]. apply Z.leb_le in H0. apply Z.ltb_lt in H1. lia.
Qed.

Lemma with_windows_restore (w : Wall) (l : list Window) :
  with_windows (with_windows w l) (windows w) = w.
Proof. destruct w; reflexivity. Qed.

Lemma addWindow_undone (st : State) : removeLastWindow (addWindow st) = st.
Proof.
  unfold addWindow.
  destruct (inRange st) eqn:Hr.
  - destruct (inRange_nthWall st Hr) as [wall Hw]. rewrite Hw.
    pose proof (inRange_index st Hr) as Hi.
    unfold removeLastWindow.
    assert (Hr' : inRange (setWalls st
                    (setIndex (Z.to_nat (selectedWall st))
                       (with_windows wall
                          (windows wall
                           ++ [mkWindow
                                 (Math_min (windowPosition st)
                                           (length wall - (1 # 2)))
                                 (windowWidth st) (windowHeight st)
                                 (windowStyle st)]))
                       (walls st))) = true).
    { unfold inRange in *. cbn [walls selectedWall setWalls].
      rewrite setIndex_length. exact Hr. }
    rewrite Hr'. unfold nthWall. cbn [walls selectedWall setWalls].
    rewrite nth_error_setIndex by exact Hi.
    cbn [windows with_windows]. rewrite length_app. cbn [List.length].
    replace (0 <? List.length (windows wall) + 1)%nat with true
      by (symmetry; apply Nat.ltb_lt; lia).
    rewrite removelast_last.
    rewrite with_windows_restore.
    rewrite setIndex_restore by exact Hw.
    destruct st; reflexivity.
  - unfold removeLastWindow. rewrite Hr. reflexivity.
Qed.

(** X12.  [removeLastWindow] undoes [addWindow], in every state.  With a
    wall selected, [addWindow] appends one window to that wall, with the
    width, height and style of the window settings and at
    min(windowPosition, length - 0.5): its position is at most both and
    is one of the two.  It leaves the number of walls and every other
    wall as they were; with no wall selected it changes nothing. *)
Theorem addWindow_removeLastWindow (st : State) :
  removeLastWindow (addWindow st) = st
  /\ (inRange st = false -> addWindow st = st)
  /\ (inRange st = true ->
      exists wall newWindow,
        nthWall st = Some wall
        /\ nthWall (addWindow st)
           = Some (with_windows wall (windows wall ++ [newWindow]))
        /\ position newWindow <= windowPosition st
        /\ position newWindow <= length wall - (1 # 2)
        /\ (position newWindow = windowPosition st
            \/ position newWindow = length wall - (1 # 2))
        /\ window_width newWindow = windowWidth st
        /\ window_height newWindow = windowHeight st
        /\ style newWindow = windowStyle st
        /\ List.length (walls (addWindow st)) = List.length (walls st)
        /\ forall j, j <> Z.to_nat (selectedWall st) ->
                     nth_error (walls (addWindow st)) j
                     = nth_error (walls st) j).
Proof.
  split; [apply addWindow_undone | ].
  split; [intros Hr; unfold addWindow; rewrite Hr; reflexivity | ].
  intros Hr. destruct (inRange_nthWall st Hr) as [wall Hw].
  pose proof (inRange_index st Hr) as Hi.
  unfold addWindow. rewrite Hr, Hw.
  exists wall. eexists. split; [reflexivity | ].
  unfold nthWall. cbn [walls selectedWall setWalls].
  rewrite nth_error_setIndex by exact Hi.
  split; [reflexivity | ].
  cbn [position window_width window_height style].
  split; [apply Q.le_min_l | ].
  split; [apply Q.le_min_r | ].
  split.
  { unfold Math_min, Qmin, GenericMinMax.gmin.
    destruct (windowPosition st ?= length wall - (1 # 2)); auto. }
  split; [reflexivity | ]. split; [reflexivity | ]. split; [reflexivity | ].
  split; [apply setIndex_length | ].
  intros j Hj. apply nth_error_setIndex_other. congruence.
Qed.

Lemma addWindow_removeLastWindow_witness :
  exists wall newWindow,
    nthWall plannerStart = Some wall
    /\ nthWall (addWindow plannerStart)
       = Some (with_windows wall (windows wall ++ [newWindow]))
    /\ position newWindow <= windowPosition plannerStart
    /\ position newWindow <= length wall - (1 # 2)
    /\ (position newWindow = windowPosition plannerStart
        \/ position newWindow = length wall - (1 # 2))
    /\ window_width newWindow = windowWidth plannerStart
    /\ window_height newWindow = windowHeight plannerStart
    /\ style newWindow = windowStyle plannerStart
    /\ List.length (walls (addWindow plannerStart))
       = List.length (walls plannerStart)
    /\ forall j, j <> Z.to_nat (selectedWall plannerStart) ->
                 nth_error (walls (addWindow plannerStart)) j
                 = nth_error (walls plannerStart) j.
Proof.
  apply (proj2 (proj2 (addWindow_removeLastWindow plannerStart))).
  reflexivity.
Defined.

Lemma square_extremes (h : Q) (l : list Q) (x0 : Q) :
  0 <= h -> In (- h) (x0 :: l) -> In h (x0 :: l) ->
  (forall y, In y (x0 :: l) -> y = - h \/ y = h) ->
  Math_min_list x0 l == - h /\ Math_max_list x0 l == h.
Proof.
  intros Hh Hlo Hhi Hall.
  assert (Hneg : - h <= h).
  { apply (Qle_trans _ 0); [ | exact Hh].
    setoid_replace 0 with (- 0) by ring. apply Qopp_le_compat, Hh. }
  split.
  - apply Qle_antisym; [apply Math_min_list_lower, Hlo | ].
    destruct (Math_min_list_attained l x0) as (y & Hy & E).
    rewrite E. destruct (Hall y Hy) as [-> | ->];
      [apply Qle_refl | exact Hneg].
  - apply Qle_antisym; [ | apply Math_max_list_upper, Hhi].
    destruct (Math_max_list_attained l x0) as (y & Hy & E).
    rewrite E. destruct (Hall y Hy) as [-> | ->];
      [exact Hneg | apply Qle_refl].
Qed.

(** X13.  The square that [makeRectangleWalls] makes for a side that is
    not negative is centred on the origin: its bounds are -side/2 and
    side/2 on both axes.  Its estimate has a total wall area of 4 times
    side times height and a rebar cost of 8 times side times the rebar
    price. *)
Theorem makeRectangleWalls_square (side hgt : number)
  (wallThickness : option number) (roofArea : number)
  (config : Estimator.Rates) :
  0 <= side ->
  (exists b,
     bounds (makeRectangleWalls side (Some hgt) wallThickness) = Some b
     /\ minX b == - (side / 2) /\ maxX b == side / 2
     /\ minZ b == - (side / 2) /\ maxZ b == side / 2)
  /\ Estimator.totalWallArea
       (Estimator.estimateMaterials
          (map measured (makeRectangleWalls side (Some hgt) wallThickness))
          roofArea config)
     == 4 * side * hgt
  /\ Estimator.rebar_cost
       (Estimator.estimateMaterials
          (map measured (makeRectangleWalls side (Some hgt) wallThickness))
          roofArea config)
     == 8 * side * Estimator.rebar_price_per_kg config.
Proof.
  intros Hside.
  assert (Hh : 0 <= side / 2)
    by (apply Qmult_le_0_compat; [exact Hside | discriminate]).
  split; [ | split ].
  - eexists. split; [reflexivity | ].
    cbn [minX maxX minZ maxZ].
    assert (Hx : Math_min_list (- (side / 2))
                   [side / 2; side / 2; side / 2; side / 2; - (side / 2);
                    - (side / 2); - (side / 2)] == - (side / 2)
                 /\ Math_max_list (- (side / 2))
                      [side / 2; side / 2; side / 2; side / 2; - (side / 2);
                       - (side / 2); - (side / 2)] == side / 2).
    { apply square_extremes; [exact Hh | simpl; auto | simpl; auto | ].
      simpl. intuition. }
    assert (Hz : Math_min_list (- (side / 2))
                   [- (side / 2); - (side / 2); side / 2; side / 2; side / 2;
                    side / 2; - (side / 2)] == - (side / 2)
                 /\ Math_max_list (- (side / 2))
                      [- (side / 2); - (side / 2); side / 2; side / 2;
                       side / 2; side / 2; - (side / 2)] == side / 2).
    { apply square_extremes; [exact Hh | simpl; auto | simpl; auto 6 | ].
      simpl. intuition. }
    destruct Hx as [Hx1 Hx2], Hz as [Hz1 Hz2]. auto.
  - destruct (estimateMaterials_model
                (map measured (makeRectangleWalls side (Some hgt) wallThickness))
                roofArea config) as (Ha & _).
    etransitivity; [exact Ha | ].
    unfold flatModel; cbn [Estimator.totalWallArea makeRectangleWalls map
                            measured Estimator.length Estimator.height
                            length height sumQ fold_right].
    ring.
  - destruct (estimateMaterials_model
                (map measured (makeRectangleWalls side (Some hgt) wallThickness))
                roofArea config) as (_ & _ & _ & Hr & _).
    etransitivity; [exact Hr | ].
    unfold flatModel; cbn [Estimator.rebar_cost makeRectangleWalls map
                            measured Estimator.length Estimator.height
                            length height sumQ fold_right].
    ring.
Qed.

Lemma makeRectangleWalls_square_witness :
  Estimator.totalWallArea
    (Estimator.estimateMaterials
       (map measured (makeRectangleWalls 10 (Some 3) None)) 0 Estimator.rates)
  == 4 * 10 * 3.
Proof.
  apply (makeRectangleWalls_square 10 3 None 0 Estimator.rates). discriminate.
Defined.

Lemma orZero_same (v : Q) : orZero v == v.
Proof.
  unfold orZero. destruct (Qeq_bool v 0) eqn:E; [ | reflexivity].
  symmetry. apply Qeq_bool_iff, E.
Qed.

Lemma currentMaxThickness_from (ws : list Wall) (m : Q) :
  m <= fold_left (fun m w => Math_max m (orZero (thickness w))) ws m
  /\ forall w, In w ws ->
       thickness w
       <= fold_left (fun m w => Math_max m (orZero (thickness w))) ws m.
Proof.
  revert m; induction ws as [|u ws IH]; intros m; simpl.
  - split; [apply Qle_refl | intros w []].
  - destruct (IH (Math_max m (orZero (thickness u)))) as [Hm Hall].
    split.
    + eapply Qle_trans; [apply Q.le_max_l | exact Hm].
    + intros w [<- | Hin]; [ | apply Hall, Hin].
      eapply Qle_trans; [ | exact Hm].
      eapply Qle_trans; [ | apply Q.le_max_r].
      rewrite orZero_same. apply Qle_refl.
Qed.

(** X14.  The thickness that sets the roof overhang is at least 0.15 m
    and at least the thickness of every wall, and the overhang itself is
    never negative; for a factor that is not negative the overhang is that
    thickness times the factor. *)
Theorem currentOverhang_bounds (ws : list Wall) (overhangFactor : number) :
  15 # 100 <= currentMaxThickness ws
  /\ (forall w, In w ws -> thickness w <= currentMaxThickness ws)
  /\ 0 <= currentOverhang ws overhangFactor
  /\ (0 <= overhangFactor ->
      currentOverhang ws overhangFactor
      == currentMaxThickness ws * overhangFactor).
Proof.
  destruct (currentMaxThickness_from ws (15 # 100)) as [Hm Hall].
  split; [exact Hm | split; [exact Hall | split]].
  - apply Q.le_max_l.
  - intros Hf. unfold currentOverhang, Math_max. apply Q.max_r.
    apply Qmult_le_0_compat; [ | exact Hf].
    eapply Qle_trans; [ | exact Hm]. discriminate.
Qed.

Lemma currentOverhang_bounds_witness :
  currentOverhang (makeRectangleWalls 10 None None) (3 # 2)
  == currentMaxThickness (makeRectangleWalls 10 None None) * (3 # 2).
Proof.
  apply (currentOverhang_bounds (makeRectangleWalls 10 None None) (3 # 2)).
  discriminate.
Defined.

End PlannerFacts.

(** ** Overhangs and support beams *)

Section BeamFacts.
Import Builder.

Lemma detect_fold (mX MX mZ MZ : number) (ws : list Wall) (found : Overhang) :
  let result :=
    fold_left
      (fun found wall =>
         if beyond mX MX mZ MZ wall
         then mkOverhang true (overhangWalls found ++ [wall_id wall])
         else found)
      ws found in
  overhangWalls result
  = overhangWalls found ++ map wall_id (filter (beyond mX MX mZ MZ) ws)
  /\ hasOverhang result
     = hasOverhang found || existsb (beyond mX MX mZ MZ) ws.
Proof.
  revert found; induction ws as [|w ws IH]; intros found; simpl.
  - rewrite app_nil_r, orb_false_r. split; reflexivity.
  - destruct (beyond mX MX mZ MZ w).
    + destruct (IH (mkOverhang true (overhangWalls found ++ [wall_id w])))
        as [H1 H2].
      cbn [overhangWalls hasOverhang] in H1, H2.
      split; [rewrite H1, <- app_assoc; reflexivity | ].
      rewrite H2. cbn. rewrite orb_true_r. reflexivity.
    + apply IH.
Qed.

Lemma filter_existsb_false {A : Type} (p : A -> bool) (l : list A) :
  existsb p l = false -> filter p l = [].
Proof.
  induction l as [|a l IH]; simpl; [reflexivity | ].
  intros H. apply orb_false_iff in H. destruct H as [H1 H2].
  rewrite H1. apply IH, H2.
Qed.

Lemma map_wall_ends (f : Point2D -> number) (ws : list Wall) :
  map f (flat_map (fun wall => [start wall; end_ wall]) ws)
  = flat_map (fun wall => [f (start wall); f (end_ wall)]) ws.
Proof.
  induction ws as [|w ws IH]; simpl; [ | rewrite IH]; reflexivity.
Qed.

(** What [detectOverhangAreas] finds, given the bounds of floor 1. *)
Lemma detectOverhangAreas_found (floor1Walls floor2Walls : list Wall) :
  (floor1Walls = [] \/ floor2Walls = []) /\
    detectOverhangAreas floor1Walls floor2Walls = mkOverhang false []
  \/ exists mX MX mZ MZ,
       footprintOf floor1Walls = Some (mkFootprint mX MX mZ MZ)
       /\ overhangWalls (detectOverhangAreas floor1Walls floor2Walls)
          = map wall_id (filter (beyond mX MX mZ MZ) floor2Walls)
       /\ hasOverhang (detectOverhangAreas floor1Walls floor2Walls)
          = existsb (beyond mX MX mZ MZ) floor2Walls.
Proof.
  unfold detectOverhangAreas.
  destruct floor1Walls as [|first others]; [left; auto | ].
  destruct floor2Walls as [|w2 ws2]; [left; auto | ].
  right. cbn [List.length Nat.eqb].
  pose proof (map_wall_ends x others) as Hx.
  pose proof (map_wall_ends z others) as Hz.
  do 4 eexists. split; [ | apply (detect_fold _ _ _ _ (w2 :: ws2) (mkOverhang false [])) ].
  unfold footprintOf. cbn [flat_map app map]. rewrite Hx, Hz. reflexivity.
Qed.

Lemma beams_fold (ids : list string) (floorHeight : number) (ws : list Wall)
  (acc : list Beam) :
  fold_left
    (fun beams wall =>
       if includes ids (wall_id wall) then
         beams
         ++ [supportBeam ("beam-" ++ wall_id wall ++ "-start") (start wall)
                         floorHeight;
             supportBeam ("beam-" ++ wall_id wall ++ "-end") (end_ wall)
                         floorHeight]
       else beams)
    ws acc
  = acc
    ++ flat_map
         (fun wall =>
            [supportBeam ("beam-" ++ wall_id wall ++ "-start") (start wall)
                         floorHeight;
             supportBeam ("beam-" ++ wall_id wall ++ "-end") (end_ wall)
                         floorHeight])
         (filter (fun wall => includes ids (wall_id wall)) ws).
Proof.
  revert acc; induction ws as [|w ws IH]; intros acc; simpl.
  - rewrite app_nil_r. reflexivity.
  - destruct (includes ids (wall_id w)); [ | apply IH].
    rewrite IH. cbn [flat_map app]. rewrite <- app_assoc. reflexivity.
Qed.

Lemma generateSupportBeams_posts (floor1Walls floor2Walls : list Wall)
  (floorHeight : number) :
  generateSupportBeams floor1Walls floor2Walls floorHeight
  = flat_map
      (fun wall =>
         [supportBeam ("beam-" ++ wall_id wall ++ "-start") (start wall)
                      floorHeight;
          supportBeam ("beam-" ++ wall_id wall ++ "-end") (end_ wall)
                      floorHeight])
      (filter (fun wall =>
                 includes
                   (overhangWalls (detectOverhangAreas floor1Walls floor2Walls))
                   (wall_id wall))
              floor2Walls).
Proof.
  unfold generateSupportBeams.
  destruct (hasOverhang (detectOverhangAreas floor1Walls floor2Walls)) eqn:E;
    cbn [negb]; [apply beams_fold | ].
  assert (Hnone : overhangWalls (detectOverhangAreas floor1Walls floor2Walls) = []).
  { destruct (detectOverhangAreas_found floor1Walls floor2Walls)
      as [[_ ->] | (mX & MX & mZ & MZ & _ & Hids & Hhas)]; [reflexivity | ].
    rewrite Hhas in E. rewrite Hids, (filter_existsb_false _ _ E).
    reflexivity. }
  rewrite Hnone, filter_existsb_false; [reflexivity | ].
  clear. induction floor2Walls as [|w ws IH]; [reflexivity | exact IH].
Qed.

(** X15.  [detectOverhangAreas] reports an overhang exactly when it lists
    a wall, lists only identifiers of floor-2 walls, and reports none when
    either floor has no walls.  [generateSupportBeams] makes two beams for
    every floor-2 wall whose identifier is listed and no others; every
    beam is a post (start and end coincide) of the given height, on level
    1, standing at an end of a floor-2 wall. *)
Theorem support_beams_structure (floor1Walls floor2Walls : list Wall)
  (floorHeight : number) :
  let found := detectOverhangAreas floor1Walls floor2Walls in
  let beams := generateSupportBeams floor1Walls floor2Walls floorHeight in
  (hasOverhang found = true <-> overhangWalls found <> [])
  /\ (forall id, In id (overhangWalls found) ->
                 exists w, In w floor2Walls /\ wall_id w = id)
  /\ (floor1Walls = [] \/ floor2Walls = [] ->
      hasOverhang found = false /\ beams = [])
  /\ List.length beams
     = (2 * List.length
              (filter (fun w => includes (overhangWalls found) (wall_id w))
                      floor2Walls))%nat
  /\ Forall (postUnder floor2Walls floorHeight) beams.
Proof.
  cbv zeta. rewrite generateSupportBeams_posts.
  split; [ | split; [ | split; [ | split ] ] ].
  - destruct (detectOverhangAreas_found floor1Walls floor2Walls)
      as [[_ ->] | (mX & MX & mZ & MZ & _ & Hids & Hhas)].
    + cbn. split; [discriminate | congruence].
    + rewrite Hids, Hhas. clear.
      induction floor2Walls as [|w ws IH]; simpl.
      * split; [discriminate | congruence].
      * destruct (beyond mX MX mZ MZ w); simpl;
          [split; [discriminate | reflexivity] | exact IH].
  - intros id Hin.
    destruct (detectOverhangAreas_found floor1Walls floor2Walls)
      as [[_ Heq] | (mX & MX & mZ & MZ & _ & Hids & _)].
    + rewrite Heq in Hin. destruct Hin.
    + rewrite Hids in Hin. apply in_map_iff in Hin.
      destruct Hin as (w & Hid & Hw). apply filter_In in Hw.
      exists w. split; [apply Hw | exact Hid].
  - intros Hempty.
    destruct (detectOverhangAreas_found floor1Walls floor2Walls)
      as [[_ Heq] | (mX & MX & mZ & MZ & Hfoot & _)].
    + rewrite Heq. cbn. split; [reflexivity | ].
      rewrite filter_existsb_false; [reflexivity | ].
      clear. induction floor2Walls as [|w ws IH]; [reflexivity | exact IH].
    + destruct Hempty as [-> | ->]; [discriminate Hfoot | ].
      split; [ | reflexivity].
      destruct floor1Walls; reflexivity.
  - generalize (filter (fun w => includes
                  (overhangWalls (detectOverhangAreas floor1Walls floor2Walls))
                  (wall_id w)) floor2Walls).
    intros l. induction l as [|w l IH]; simpl in *; lia.
  - apply Forall_forall. intros b Hb. apply in_flat_map in Hb.
    destruct Hb as (w & Hw & Hb). apply filter_In in Hw. destruct Hw as [Hw _].
    destruct Hb as [<- | [<- | []]]; unfold postUnder, supportBeam;
      cbn [beam_start beam_end beam_floorLevel beam_height];
      (split; [reflexivity | split; [reflexivity | split; [reflexivity | ]]]);
      exists w; auto.
Qed.

Lemma support_beams_structure_witness :
  hasOverhang (detectOverhangAreas [] [offPlanWall]) = false
  /\ generateSupportBeams [] [offPlanWall] 3 = []
  /\ exists w, In w [offPlanWall] /\ wall_id w = "far"%string.
Proof.
  destruct (support_beams_structure [groundWall] [offPlanWall] 3)
    as (_ & Hids & _).
  destruct (support_beams_structure [] [offPlanWall] 3)
    as (_ & _ & Hnone & _).
  destruct (Hnone (or_introl eq_refl)) as [H1 H2].
  split; [exact H1 | split; [exact H2 | ]].
  apply Hids. left; reflexivity.
Defined.

Example beams_under_far_wall :
  map beam_id (generateSupportBeams [groundWall] [offPlanWall] 3)
  = ["beam-far-start"%string; "beam-far-end"%string].
Proof. reflexivity. Qed.








End BeamFacts.

(** ** Walls, staircases and floors *)

Section EditingFacts.
Import Builder.

Lemma with_walls_same (f : Floor) : with_walls f (walls f) = f.
Proof. destruct f; reflexivity. Qed.

Lemma with_floors_same (fp : FloorPlan) : with_floors fp (floors fp) = fp.
Proof. destruct fp; reflexivity. Qed.

Lemma with_floors_twice (fp : FloorPlan) (l : list Floor) :
  with_floors (with_floors fp l) (floors fp) = fp.
Proof. destruct fp; reflexivity. Qed.

Lemma map_same {A : Type} (g : A -> A) (l : list A) :
  (forall a, In a l -> g a = a) -> map g l = l.
Proof.
  induction l as [|a l IH]; intros H; simpl; [reflexivity | ].
  rewrite H by (left; reflexivity). f_equal. apply IH.
  intros b Hb. apply H. right; exact Hb.
Qed.

Lemma filter_same {A : Type} (p : A -> bool) (l : list A) :
  (forall a, In a l -> p a = true) -> filter p l = l.
Proof.
  induction l as [|a l IH]; intros H; simpl; [reflexivity | ].
  rewrite H by (left; reflexivity). f_equal. apply IH.
  intros b Hb. apply H. right; exact Hb.
Qed.

Lemma deleteWall_floorPlan (wallId : string) (floorLevel : Z) (st : State) :
  floorPlan (deleteWall wallId floorLevel st)
  = mapFloor floorLevel
      (fun floor =>
         with_walls floor
           (filter (fun wall => negb (String.eqb (wall_id wall) wallId))
                   (walls floor)))
      (floorPlan st).
Proof. reflexivity. Qed.

Lemma deleteWall_fresh (newId : string) (floorLevel : Z) (st : State) :
  freshWallId newId floorLevel st ->
  floorPlan (deleteWall newId floorLevel st) = floorPlan st.
Proof.
  intros Hfresh. rewrite deleteWall_floorPlan. unfold mapFloor.
  rewrite map_same; [apply with_floors_same | ].
  intros f Hf. destruct (level f =? floorLevel)%Z eqn:E; [ | reflexivity].
  apply Z.eqb_eq in E. rewrite filter_same; [apply with_walls_same | ].
  intros w Hw. apply negb_true_iff. apply String.eqb_neq.
  apply (Hfresh f w Hf E Hw).
Qed.

Lemma deleteWall_addWall (newId : string) (s e : Point2D) (floorLevel : Z)
  (st : State) :
  freshWallId newId floorLevel st ->
  floorPlan (deleteWall newId floorLevel (addWall newId s e floorLevel st))
  = floorPlan st.
Proof.
  intros Hfresh.
  destruct (addWall_cases newId s e floorLevel st)
    as [(_ & _ & Heq) | [_ Heq]]; rewrite Heq;
    [ | apply deleteWall_fresh, Hfresh].
  rewrite deleteWall_floorPlan. unfold mapFloor.
  cbn [floorPlan setFloorPlan floors with_floors].
  match goal with
  | |- with_floors _ (map ?g (map ?h ?l)) = _ =>
      rewrite (map_map h g l);
      rewrite (map_same (fun a => g (h a)) l); [apply with_floors_twice | ]
  end.
  intros f Hf. destruct (level f =? floorLevel)%Z eqn:E.
  - cbn [level with_walls]. rewrite E. cbn [walls with_walls].
    rewrite filter_app. cbn [filter wall_id]. rewrite String.eqb_refl.
    cbn [negb]. rewrite app_nil_r.
    apply Z.eqb_eq in E. rewrite filter_same.
    + destruct f; reflexivity.
    + intros w Hw. apply negb_true_iff. apply String.eqb_neq.
      apply (Hfresh f w Hf E Hw).
  - rewrite E. reflexivity.
Qed.

(** X17.  [deleteWall] removes every wall with the given identifier from
    the floors of the given level and clears the wall selection; after
    [addWall] with an identifier that no wall of that level carries it
    restores the floor plan, whether the wall was accepted or not. *)
Theorem deleteWall_undoes_addWall :
  (forall (wallId : string) (floorLevel : Z) (st : State) (f : Floor)
          (w : Wall),
     In f (floors (floorPlan (deleteWall wallId floorLevel st))) ->
     level f = floorLevel -> In w (walls f) -> wall_id w <> wallId)
  /\ (forall (wallId : string) (floorLevel : Z) (st : State),
        selectedWallId (deleteWall wallId floorLevel st) = None)
  /\ (forall (newId : string) (s e : Point2D) (floorLevel : Z) (st : State),
        freshWallId newId floorLevel st ->
        floorPlan (deleteWall newId floorLevel
                     (addWall newId s e floorLevel st))
        = floorPlan st).
Proof.
  split; [ | split; [reflexivity | exact deleteWall_addWall] ].
  intros wallId floorLevel st f w Hf Hl Hw.
  rewrite deleteWall_floorPlan in Hf. unfold mapFloor in Hf.
  cbn [floors with_floors] in Hf. apply in_map_iff in Hf.
  destruct Hf as (f0 & <- & Hf0).
  destruct (level f0 =? floorLevel)%Z eqn:E.
  - cbn [walls with_walls] in Hw. apply filter_In in Hw.
    destruct Hw as [_ Hw]. apply negb_true_iff in Hw.
    apply String.eqb_neq, Hw.
  - apply Z.eqb_neq in E. contradiction.
Qed.

Lemma deleteWall_undoes_addWall_witness :
  floorPlan (deleteWall "w9" 1 (addWall "w9" origin (mkPoint 4 0) 1 twoStoreys))
  = floorPlan twoStoreys.
Proof.
  apply (proj2 (proj2 deleteWall_undoes_addWall)).
  intros f w Hf Hl Hw. vm_compute in Hf.
  destruct Hf as [<- | [<- | []]]; [ | discriminate Hl].
  destruct Hw as [<- | []]. discriminate.
Defined.

Lemma deleteStaircase_stairs (staircaseId : string) (s : StairState) :
  stairsOf (deleteStaircase staircaseId s)
  = filter (fun st => negb (String.eqb (staircase_id st) staircaseId))
           (stairsOf s).
Proof. reflexivity. Qed.

(** X18.  A staircase needs two floors: with fewer, [addStaircase]
    changes nothing; with two it appends one staircase from the current
    floor to the next.  [deleteStaircase] removes exactly the staircases
    with the given identifier, keeps the others in order and clears the
    staircase selection, so it undoes [addStaircase] for an identifier
    that was not in use.  Moving or turning a staircase keeps the
    identifiers of all staircases. *)
Theorem staircase_editing (newId : string) (s : StairState) :
  ((List.length (floors (floorPlan (builder s))) < 2)%nat ->
   addStaircase newId s = s)
  /\ ((2 <= List.length (floors (floorPlan (builder s))))%nat ->
      exists st,
        stairsOf (addStaircase newId s) = stairsOf s ++ [st]
        /\ staircase_id st = newId
        /\ fromFloor st = currentFloor (builder s)
        /\ toFloor st = (currentFloor (builder s) + 1)%Z)
  /\ (forall st, In st (stairsOf (deleteStaircase newId s)) <->
                 In st (stairsOf s) /\ staircase_id st <> newId)
  /\ selectedStaircaseId (deleteStaircase newId s) = None
  /\ ((forall st, In st (stairsOf s) -> staircase_id st <> newId) ->
      stairsOf (deleteStaircase newId (addStaircase newId s)) = stairsOf s)
  /\ (forall (position : Point2D) (newRotation : number),
        map staircase_id (stairsOf (updateStaircasePosition newId position s))
        = map staircase_id (stairsOf s)
        /\ map staircase_id
             (stairsOf (updateStaircaseRotation newId newRotation s))
           = map staircase_id (stairsOf s)).
Proof.
  split; [ | split; [ | split; [ | split; [ | split ] ] ] ].
  - intros H. unfold addStaircase. apply Nat.ltb_lt in H. rewrite H.
    reflexivity.
  - intros H. unfold addStaircase. apply Nat.ltb_ge in H. rewrite H.
    eexists. split; [reflexivity | ]. cbn. auto.
  - intros st. rewrite deleteStaircase_stairs, filter_In, negb_true_iff.
    rewrite String.eqb_neq. reflexivity.
  - reflexivity.
  - intros Hfresh. rewrite deleteStaircase_stairs. unfold addStaircase.
    destruct (List.length (floors (floorPlan (builder s))) <? 2)%nat.
    + apply filter_same. intros st Hst. apply negb_true_iff, String.eqb_neq.
      apply Hfresh, Hst.
    + unfold stairsOf at 1. cbn [builder setStaircases floorPlan setFloorPlan
                                  staircases with_staircases].
      rewrite filter_app. cbn [filter staircase_id].
      rewrite String.eqb_refl. cbn [negb]. rewrite app_nil_r.
      apply filter_same. intros st Hst. apply negb_true_iff, String.eqb_neq.
      apply Hfresh, Hst.
  - intros position newRotation.
    unfold updateStaircasePosition, updateStaircaseRotation, stairsOf.
    cbn [builder setStaircases floorPlan setFloorPlan staircases
         with_staircases].
    rewrite !map_map.
    split; apply map_ext; intros st;
      destruct (String.eqb (staircase_id st) newId); reflexivity.
Qed.

Lemma staircase_editing_witness :
  addStaircase "s1" (stairStart initialState) = stairStart initialState
  /\ stairsOf (deleteStaircase "s1" (addStaircase "s1" (stairStart twoStoreys)))
     = stairsOf (stairStart twoStoreys).
Proof.
  split.
  - apply (proj1 (staircase_editing "s1" (stairStart initialState))).
    simpl; lia.
  - apply (staircase_editing "s1" (stairStart twoStoreys)).
    intros st [].
Defined.

Lemma browsed_current (st : State) :
  browsed st -> floorsWellNumbered st /\ In (currentFloor st) (floorLevels st).
Proof.
  induction 1 as [ | st newId _ [Hw Hc] | st lvl _ [Hw Hc] Hl
                   | st lvl _ [Hw Hc] Hl ].
  - split; [left; reflexivity | left; reflexivity].
  - split; [apply addFloor_wellNumbered, Hw | ].
    unfold addFloor, floorLevels in *.
    destruct (2 <=? List.length (floors (floorPlan st)))%nat; [exact Hc | ].
    cbn [currentFloor setCurrentFloor floorPlan setFloorPlan floors
         with_floors level].
    rewrite map_app. apply in_or_app. right. left. reflexivity.
  - split; [apply removeFloor_wellNumbered, Hw | ].
    unfold floorsWellNumbered, floorLevels in *.
    destruct (floors (floorPlan st)) as [|f [|g [|h l]]] eqn:E;
      destruct Hw as [Hw | Hw]; try discriminate.
    + unfold removeFloor. rewrite E. cbn [List.length Nat.leb]. rewrite E.
      exact Hc.
    + injection Hw as Hf Hg. cbn [map] in Hl, Hc. rewrite Hf, Hg in Hl, Hc.
      unfold removeFloor. rewrite E. cbn [List.length Nat.leb].
      destruct Hl as [<- | [<- | []]].
      * cbn [Z.eqb Pos.eqb]. rewrite E. cbn [map]. rewrite Hf, Hg. exact Hc.
      * change (2 =? 1)%Z with false. cbv iota.
        cbn [filter]. rewrite Hf, Hg. cbn [Z.eqb Pos.eqb negb renumber].
        destruct Hc as [Hc | [Hc | []]]; rewrite <- Hc; cbn;
          rewrite <- ?Hc; left; reflexivity.
  - split; [exact Hw | exact Hl].
Qed.

(** X19.  The current floor always exists: in every state reached by
    adding a floor, removing a floor that is shown and selecting a floor
    that is shown, the current floor is the level of one of the floors,
    and the lookup of the data of the current floor finds a floor. *)
Theorem current_floor_exists (st : State) :
  browsed st ->
  In (currentFloor st) (floorLevels st)
  /\ exists floor, find (fun f => (level f =? currentFloor st)%Z)
                        (floors (floorPlan st)) = Some floor.
Proof.
  intros Hb. destruct (browsed_current st Hb) as [_ Hc].
  split; [exact Hc | ].
  unfold floorLevels in Hc. apply in_map_iff in Hc.
  destruct Hc as (f & Hl & Hf).
  destruct (find (fun f0 => (level f0 =? currentFloor st)%Z)
                 (floors (floorPlan st))) as [floor|] eqn:E;
    [eexists; reflexivity | ].
  pose proof (find_none _ _ E f Hf) as Hnone. cbn in Hnone.
  apply Z.eqb_neq in Hnone. contradiction.
Qed.

Lemma current_floor_exists_witness :
  In (currentFloor (removeFloor 2 (addFloor "f2" initialState)))
     (floorLevels (removeFloor 2 (addFloor "f2" initialState))).
Proof.
  apply (current_floor_exists (removeFloor 2 (addFloor "f2" initialState))).
  apply browsed_removeFloor; [ | right; left; reflexivity].
  apply browsed_addFloor, browsed_init.
Defined.

(** Removing a level that no floor has can leave the current floor at a
    level that does not exist. *)
Example removeFloor_absent_level :
  currentFloor (removeFloor 0 (setCurrentFloor 1 (addFloor "f2" initialState)))
  = 0%Z
  /\ floorLevels (removeFloor 0 (setCurrentFloor 1 (addFloor "f2" initialState)))
     = [1%Z; 2%Z].
Proof. split; reflexivity. Qed.

End EditingFacts.

(** ** The plot validator *)

Section ValidatorFacts.
Import Builder PlotValidator.

Lemma isPointInsidePlot_spec (p : Point2D) (b : PlotBounds) :
  isPointInsidePlot p b = true <-> inPlotRectangle b p.
Proof.
  unfold isPointInsidePlot, inPlotRectangle, leb.
  rewrite !andb_true_iff, !Qle_bool_iff. tauto.
Qed.

Lemma checkWall_app (b : PlotBounds) (i : nat) (w : Wall)
  (errors : list ValidationError) :
  checkWall b i w errors = errors ++ checkWall b i w [].
Proof.
  unfold checkWall.
  destruct (isPointInsidePlot (start w) b), (isPointInsidePlot (end_ w) b);
    cbn [negb app]; rewrite ?app_nil_r, <- ?app_assoc; reflexivity.
Qed.

Lemma forEachWall_app (b : PlotBounds) (walls : list Wall) (i : nat)
  (errors : list ValidationError) :
  forEachWall b i walls errors = errors ++ forEachWall b i walls [].
Proof.
  revert i errors; induction walls as [|w walls IH]; intros i errors; simpl.
  - rewrite app_nil_r. reflexivity.
  - rewrite IH, (IH _ (checkWall b i w [])), (checkWall_app b i w errors).
    rewrite app_assoc. reflexivity.
Qed.

Lemma checkWall_start (b : PlotBounds) (i n : nat) (w : Wall) :
  In (StartOutside n) (checkWall b i w [])
  <-> n = (i + 1)%nat /\ ~ inPlotRectangle b (start w).
Proof.
  rewrite <- isPointInsidePlot_spec. unfold checkWall.
  destruct (isPointInsidePlot (start w) b), (isPointInsidePlot (end_ w) b);
    cbn; split; intros H; try tauto; try intuition congruence.
Qed.

Lemma checkWall_end (b : PlotBounds) (i n : nat) (w : Wall) :
  In (EndOutside n) (checkWall b i w [])
  <-> n = (i + 1)%nat /\ ~ inPlotRectangle b (end_ w).
Proof.
  rewrite <- isPointInsidePlot_spec. unfold checkWall.
  destruct (isPointInsidePlot (start w) b), (isPointInsidePlot (end_ w) b);
    cbn; split; intros H; try tauto; try intuition congruence.
Qed.

Lemma checkWall_area (b : PlotBounds) (i : nat) (w : Wall) (a m : number) :
  ~ In (PlotAreaExceeds a m) (checkWall b i w []).
Proof.
  unfold checkWall.
  destruct (isPointInsidePlot (start w) b), (isPointInsidePlot (end_ w) b);
    cbn; intuition congruence.
Qed.

Lemma forEachWall_start (b : PlotBounds) (walls : list Wall) (i n : nat) :
  In (StartOutside n) (forEachWall b i walls [])
  <-> exists w, (i < n)%nat /\ nth_error walls (n - 1 - i) = Some w
                /\ ~ inPlotRectangle b (start w).
Proof.
  revert i; induction walls as [|w walls IH]; intros i; simpl.
  - split; [intros [] | intros (w & _ & H & _)].
    destruct (n - 1 - i)%nat; discriminate.
  - rewrite forEachWall_app, in_app_iff, checkWall_start, IH. split.
    + intros [[-> Hout] | (w' & Hlt & Hnth & Hout)].
      * exists w. replace (i + 1 - 1 - i)%nat with 0%nat by lia.
        split; [lia | split; [reflexivity | exact Hout]].
      * exists w'. replace (n - 1 - i)%nat with (S (n - 1 - S i)) by lia.
        split; [lia | split; assumption].
    + intros (w' & Hlt & Hnth & Hout).
      destruct (n - 1 - i)%nat as [|k] eqn:E.
      * injection Hnth as <-. left. split; [lia | exact Hout].
      * right. exists w'. replace (n - 1 - S i)%nat with k by lia.
        split; [lia | split; assumption].
Qed.

Lemma forEachWall_end (b : PlotBounds) (walls : list Wall) (i n : nat) :
  In (EndOutside n) (forEachWall b i walls [])
  <-> exists w, (i < n)%nat /\ nth_error walls (n - 1 - i) = Some w
                /\ ~ inPlotRectangle b (end_ w).
Proof.
  revert i; induction walls as [|w walls IH]; intros i; simpl.
  - split; [intros [] | intros (w & _ & H & _)].
    destruct (n - 1 - i)%nat; discriminate.
  - rewrite forEachWall_app, in_app_iff, checkWall_end, IH. split.
    + intros [[-> Hout] | (w' & Hlt & Hnth & Hout)].
      * exists w. replace (i + 1 - 1 - i)%nat with 0%nat by lia.
        split; [lia | split; [reflexivity | exact Hout]].
      * exists w'. replace (n - 1 - i)%nat with (S (n - 1 - S i)) by lia.
        split; [lia | split; assumption].
    + intros (w' & Hlt & Hnth & Hout).
      destruct (n - 1 - i)%nat as [|k] eqn:E.
      * injection Hnth as <-. left. split; [lia | exact Hout].
      * right. exists w'. replace (n - 1 - S i)%nat with k by lia.
        split; [lia | split; assumption].
Qed.

Lemma forEachWall_area (b : PlotBounds) (walls : list Wall) (i : nat)
  (a m : number) :
  ~ In (PlotAreaExceeds a m) (forEachWall b i walls []).
Proof.
  revert i; induction walls as [|w walls IH]; intros i; simpl.
  - intros [].
  - rewrite forEachWall_app, in_app_iff.
    intros [H | H]; [exact (checkWall_area _ _ _ _ _ H) | exact (IH _ H)].
Qed.

Lemma forEachWall_nil (b : PlotBounds) (walls : list Wall) (i : nat) :
  forEachWall b i walls [] = [] <-> Forall (wallInPlot b) walls.
Proof.
  revert i; induction walls as [|w walls IH]; intros i; simpl.
  - split; [constructor | reflexivity].
  - rewrite forEachWall_app. split.
    + intros H. apply app_eq_nil in H. destruct H as [Hw Hrest].
      constructor; [ | apply (IH (S i)), Hrest].
      unfold wallInPlot. rewrite <- !isPointInsidePlot_spec.
      unfold checkWall in Hw.
      destruct (isPointInsidePlot (start w) b),
               (isPointInsidePlot (end_ w) b); cbn in Hw;
        try discriminate; auto.
    + intros H. inversion H as [|? ? Hw Hrest]; subst.
      apply (IH (S i)) in Hrest. rewrite Hrest, app_nil_r.
      unfold wallInPlot in Hw. rewrite <- !isPointInsidePlot_spec in Hw.
      destruct Hw as [Hs He]. unfold checkWall. rewrite Hs, He. reflexivity.
Qed.

Lemma ltb_true_iff (a b : number) : ltb a b = true <-> a < b.
Proof.
  unfold ltb. rewrite negb_true_iff. split.
  - intros H. apply Qnot_le_lt. intros Hle. apply Qle_bool_iff in Hle.
    congruence.
  - intros H. destruct (Qle_bool b a) eqn:E; [ | reflexivity].
    apply Qle_bool_iff in E. exfalso. exact (Qlt_not_le _ _ H E).
Qed.

Lemma validation_valid (b : PlotBounds) (walls : list Wall)
  (maxPlotArea : option number) :
  width b * depth b <= match maxPlotArea with Some v => v | None => 200 end
  /\ Forall (wallInPlot b) walls ->
  isValid b walls maxPlotArea = true.
Proof.
  intros [Ha Hw]. unfold isValid, validationErrors. cbv zeta.
  apply (forEachWall_nil b walls 0) in Hw.
  rewrite forEachWall_app, Hw, app_nil_r.
  match goal with
  | |- context [ltb ?c ?a] => destruct (ltb c a) eqn:E
  end; [ | reflexivity].
  apply ltb_true_iff in E. exfalso. exact (Qlt_not_le _ _ E Ha).
Qed.

Lemma validation_area_error (b : PlotBounds) (walls : list Wall)
  (maxPlotArea : option number) (a m : number) :
  In (PlotAreaExceeds a m) (validationErrors b walls maxPlotArea) ->
  a = width b * depth b
  /\ m = match maxPlotArea with Some v => v | None => 200 end
  /\ m < width b * depth b.
Proof.
  unfold validationErrors. cbv zeta. rewrite forEachWall_app, in_app_iff.
  intros [H | H]; [ | destruct (forEachWall_area _ _ _ _ _ H)].
  match type of H with
  | context [ltb ?c ?x] => destruct (ltb c x) eqn:E
  end; [ | destruct H].
  destruct H as [H | []]. injection H as <- <-.
  split; [reflexivity | split; [reflexivity | apply ltb_true_iff, E]].
Qed.

(** X20.  The validator accepts a plan exactly when the plot area is at
    most the cap and both ends of every wall lie inside the plot
    rectangle.  Its errors are: the area error, with the area and the
    cap, exactly when the area exceeds the cap; and for the n-th wall
    (counted from 1) a start error exactly when its start point lies
    outside the rectangle, an end error exactly when its end point
    does.  The cap is 200 when none is given. *)
Theorem validation_errors_spec (b : PlotBounds) (walls : list Wall)
  (maxPlotArea : option number) :
  let cap := match maxPlotArea with Some v => v | None => 200 end in
  (isValid b walls maxPlotArea = true
   <-> width b * depth b <= cap /\ Forall (wallInPlot b) walls)
  /\ (forall a m,
        In (PlotAreaExceeds a m) (validationErrors b walls maxPlotArea)
        <-> a = width b * depth b /\ m = cap /\ cap < width b * depth b)
  /\ (forall n,
        In (StartOutside n) (validationErrors b walls maxPlotArea)
        <-> exists w, (1 <= n)%nat /\ nth_error walls (n - 1) = Some w
                      /\ ~ inPlotRectangle b (start w))
  /\ (forall n,
        In (EndOutside n) (validationErrors b walls maxPlotArea)
        <-> exists w, (1 <= n)%nat /\ nth_error walls (n - 1) = Some w
                      /\ ~ inPlotRectangle b (end_ w)).
Proof.
  intros cap. unfold isValid, validationErrors. fold cap.
  cbv zeta. rewrite forEachWall_app.
  pose proof (ltb_true_iff cap (width b * depth b)) as Hlt.
  split; [ | split; [ | split ] ].
  - rewrite Nat.eqb_eq, length_zero_iff_nil. split.
    + intros H. apply app_eq_nil in H. destruct H as [Ha Hw].
      split; [ | apply (forEachWall_nil b walls 0), Hw].
      destruct (ltb cap (width b * depth b)); [discriminate | ].
      apply Qnot_lt_le. intros Hc. apply Hlt in Hc. discriminate.
    + intros [Ha Hw]. apply (forEachWall_nil b walls 0) in Hw. rewrite Hw.
      destruct (ltb cap (width b * depth b)); [ | reflexivity].
      exfalso. apply (Qlt_not_le _ _ (proj1 Hlt eq_refl) Ha).
  - intros a m. rewrite in_app_iff. split.
    + intros [H | H]; [ | destruct (forEachWall_area _ _ _ _ _ H)].
      destruct (ltb cap (width b * depth b)); [ | destruct H].
      destruct H as [H | []]. injection H as <- <-.
      split; [reflexivity | split; [reflexivity | apply Hlt; reflexivity]].
    + intros (-> & -> & Hc). left. apply Hlt in Hc. rewrite Hc.
      left. reflexivity.
  - intros n. rewrite in_app_iff, forEachWall_start.
    replace (n - 1 - 0)%nat with (n - 1)%nat by lia. split.
    + intros [H | (w & Hn & H)];
        [destruct (ltb cap (width b * depth b));
           [destruct H as [H | []]; discriminate | destruct H] | ].
      exists w. split; [lia | exact H].
    + intros (w & Hn & H). right. exists w. split; [lia | exact H].
  - intros n. rewrite in_app_iff, forEachWall_end.
    replace (n - 1 - 0)%nat with (n - 1)%nat by lia. split.
    + intros [H | (w & Hn & H)];
        [destruct (ltb cap (width b * depth b));
           [destruct H as [H | []]; discriminate | destruct H] | ].
      exists w. split; [lia | exact H].
    + intros (w & Hn & H). right. exists w. split; [lia | exact H].
Qed.

Lemma addFloor_plotBounds (newId : string) (st : State) :
  plotBounds (floorPlan (addFloor newId st)) = plotBounds (floorPlan st).
Proof.
  unfold addFloor.
  destruct (2 <=? List.length (floors (floorPlan st)))%nat; reflexivity.
Qed.

Lemma removeFloor_plotBounds (lvl : Z) (st : State) :
  plotBounds (floorPlan (removeFloor lvl st)) = plotBounds (floorPlan st).
Proof.
  unfold removeFloor.
  destruct (List.length (floors (floorPlan st)) <=? 1)%nat; [reflexivity | ].
  destruct (lvl =? 1)%Z; [reflexivity | ]. cbv zeta.
  destruct (currentFloor st =? lvl)%Z; [reflexivity | ].
  destruct (lvl <? currentFloor st)%Z; reflexivity.
Qed.

Lemma edited_plotArea (st : State) :
  edited st -> plotArea st <= maxPlotArea.
Proof.
  induction 1 as [ | st newId _ IH | st lvl _ IH | st lvl _ IH
                   | st newWalls lvl _ IH | st wallId lvl _ IH
                   | st newId wallId lvl _ IH | st newId wallId lvl _ IH
                   | st wallId windowId p lvl _ IH
                   | st wallId doorId p lvl _ IH | st d v _ IH ];
    try exact IH.
  - vm_compute. discriminate.
  - unfold plotArea in *. rewrite addFloor_plotBounds. exact IH.
  - unfold plotArea in *. rewrite removeFloor_plotBounds. exact IH.
  - destruct (handlePlotResize_cases d v st) as [[Hle ->] | [_ ->]];
      assumption.
Qed.

(** X21.  The builder's plans against the validator it mounts.  In every
    state the page reaches (floors added, removed and selected, walls
    handed over by the drawing surface, walls deleted, windows and doors
    added and moved, the plot resized) the validator reports no area
    error, and it accepts the plan exactly when both ends of every wall
    lie inside the plot rectangle.  The editor does not see to that
    itself: a wall handed over beyond the border of the plot is stored,
    and the validator reports both its ends. *)
Theorem editor_plans_validate :
  (forall st : State,
     edited st ->
     (forall a m, ~ In (PlotAreaExceeds a m) (planErrors st))
     /\ (planValid st = true
         <-> Forall (wallInPlot (plotBounds (floorPlan st))) (planWalls st)))
  /\ (edited beyondPlot
      /\ planErrors beyondPlot = [StartOutside 1; EndOutside 1]
      /\ planValid beyondPlot = false).
Proof.
  split.
  - intros st Hed. pose proof (edited_plotArea st Hed) as Harea. split.
    + intros a m Hin.
      apply (validation_area_error _ _ (Some maxPlotArea)) in Hin.
      destruct Hin as (_ & -> & Hlt).
      exact (Qlt_not_le _ _ Hlt Harea).
    + split.
      * intros Hvalid. unfold planValid, isValid in Hvalid.
        apply Nat.eqb_eq, length_zero_iff_nil in Hvalid.
        unfold validationErrors in Hvalid. cbv zeta in Hvalid.
        rewrite forEachWall_app in Hvalid.
        apply app_eq_nil in Hvalid. destruct Hvalid as [_ Hw].
        apply (forEachWall_nil _ _ 0), Hw.
      * intros Hw. apply (validation_valid _ _ (Some maxPlotArea)).
        split; [exact Harea | exact Hw].
  - split; [apply edited_wallsChange, edited_init | split; reflexivity].
Qed.

Lemma editor_plans_validate_witness :
  planValid farDrawn = true.
Proof.
  apply (proj1 editor_plans_validate farDrawn).
  - apply edited_wallsChange, edited_addFloor, edited_wallsChange, edited_init.
  - repeat constructor; vm_compute; discriminate.
Defined.

(** Narrowing the plot does not look at the walls either: a wall 9 m
    east of the centre is outside the plot once the plot is 10 m wide. *)
Example resize_strands_wall :
  edited narrowedPlot
  /\ planErrors narrowedPlot = [StartOutside 1; EndOutside 1]
  /\ planValid narrowedPlot = false.
Proof.
  split; [ | split; reflexivity].
  apply edited_resize, edited_wallsChange, edited_init.
Qed.

End ValidatorFacts.

(** ** The enclosed area of a group of walls *)

Section RoomFacts.
Import RoomManager.

Lemma step_shape (walls : list Wall) (w w' : Walk) :
  step walls w = Some w' ->
  exists (nextWall : Wall) (p : Point2D),
    In nextWall walls
    /\ ~ set_In (id nextWall) (usedWalls w)
    /\ (p = start nextWall \/ p = end_ nextWall)
    /\ w' = mkWalk (points w ++ [p]) (wallIds w ++ [id nextWall])
                   (add (id nextWall) (usedWalls w)) p.
Proof.
  unfold step.
  destruct (find _ walls) as [nextWall|] eqn:F; [ | discriminate].
  apply find_some in F. destruct F as [Hin Hp].
  apply andb_true_iff in Hp. destruct Hp as [Hnew _].
  apply negb_true_iff in Hnew. apply set_mem_complete1 in Hnew.
  intros H; injection H as <-.
  exists nextWall. eexists. split; [exact Hin | split; [exact Hnew | ] ].
  split; [ | reflexivity].
  destruct (near (currentPoint w) (start nextWall)); auto.
Qed.

Lemma step_tracing (walls : list Wall) (first : Wall) (w w' : Walk) :
  step walls w = Some w' -> tracing walls first w -> tracing walls first w'.
Proof.
  intros Hstep (Hnd & Hincl & Hused & Hlen & Hid & Hpt & Hends).
  destruct (step_shape _ _ _ Hstep) as (nw & p & Hin & Hnew & Hp & ->).
  unfold tracing. cbn [wallIds points usedWalls].
  assert (Hfresh : ~ In (id nw) (wallIds w))
    by (intros H; apply Hnew, Hused, H).
  repeat split.
  - apply NoDup_app; [exact Hnd | repeat constructor; intros [] | ].
    intros a Ha [<- | []]. exact (Hfresh Ha).
  - apply incl_app; [exact Hincl | ].
    intros a [<- | []]. apply in_map, Hin.
  - intros H. apply in_app_or in H. apply set_add_intro.
    destruct H as [H | [<- | []]]; [right; apply Hused, H | left; reflexivity].
  - intros H. apply set_add_elim in H. apply in_or_app.
    destruct H as [-> | H]; [right; left; reflexivity | left; apply Hused, H].
  - rewrite !length_app, Hlen. reflexivity.
  - destruct (wallIds w); [discriminate | exact Hid].
  - destruct (points w); [discriminate | exact Hpt].
  - apply Forall_app. split; [exact Hends | ].
    constructor; [ | constructor]. exists nw. split; [exact Hin | exact Hp].
Qed.

Lemma walk_tracing (walls : list Wall) (first : Wall) (fuel : nat)
  (w w' : Walk) (k : nat) :
  walk fuel walls w = Some (w', k) ->
  tracing walls first w -> tracing walls first w'.
Proof.
  revert w k; induction fuel as [|fuel IH]; intros w k; simpl;
    destruct (List.length walls <=? size (usedWalls w))%nat;
    try discriminate; try (intros H; injection H as <- _; auto).
  destruct (step walls w) as [w1|] eqn:F.
  - destruct (walk fuel walls w1) as [[w2 k2]|] eqn:W; [ | discriminate].
    intros H; injection H as <- _. intros Ht.
    apply (IH _ _ W), (step_tracing _ _ _ _ F), Ht.
  - intros H; injection H as <- _. auto.
Qed.

Lemma calculatePolygonArea_nonneg (pts : list Point2D) :
  0 <= calculatePolygonArea pts.
Proof.
  unfold calculatePolygonArea.
  destruct (List.length pts <? 3)%nat; [apply Qle_refl | ].
  cbv zeta. unfold Math_abs, Qdiv.
  apply Qmult_le_0_compat; [apply Qabs_nonneg | discriminate].
Qed.

(** X22.  What [findEnclosedArea] returns.  With fewer than three walls
    it returns null without entering the loop.  When it returns an area,
    the identifiers it returns are pairwise different identifiers of the
    given walls, the first one that of the first wall, at least three
    and at most as many as there are walls, and the area is not
    negative. *)
Theorem findEnclosedArea_result (fuel : nat) (walls : list Wall) :
  ((List.length walls < 3)%nat ->
   findEnclosedArea fuel walls = Some (None, 0%nat))
  /\ (forall (e : Enclosed) (k : nat),
        findEnclosedArea fuel walls = Some (Some e, k) ->
        (3 <= List.length (enclosedIds e) <= List.length walls)%nat
        /\ NoDup (enclosedIds e)
        /\ incl (enclosedIds e) (map id walls)
        /\ hd_error (enclosedIds e) = hd_error (map id walls)
        /\ 0 <= area e).
Proof.
  unfold findEnclosedArea. split.
  - intros Hlt. destruct walls as [|currentWall rest]; [reflexivity | ].
    apply Nat.ltb_lt in Hlt. rewrite Hlt. reflexivity.
  - intros e k. destruct walls as [|currentWall rest] eqn:E; [discriminate | ].
    rewrite <- E.
    destruct (List.length walls <? 3)%nat; [discriminate | ].
    destruct (walk fuel walls _) as [[w k']|] eqn:W; [ | discriminate].
    destruct (3 <=? List.length (points w))%nat eqn:L3;
      cbn [andb]; [ | discriminate].
    destruct (near _ _); [ | discriminate].
    intros H; injection H as <- _. cbn [enclosedIds area].
    apply (walk_tracing walls currentWall) in W.
    + destruct W as (Hnd & Hincl & _ & Hlen & Hid & _).
      apply Nat.leb_le in L3.
      pose proof (NoDup_incl_length Hnd Hincl) as Hle.
      rewrite length_map in Hle.
      repeat split; try assumption; try lia.
      * rewrite Hid, E. reflexivity.
      * apply calculatePolygonArea_nonneg.
    + unfold tracing. cbn [wallIds points usedWalls].
      repeat split.
      * repeat constructor. intros [].
      * intros a [<- | []]. rewrite E. left. reflexivity.
      * intros [<- | []]. left. reflexivity.
      * intros [<- | []]. left. reflexivity.
      * constructor; [ | constructor]. exists currentWall.
        split; [rewrite E; left; reflexivity | left; reflexivity].
Qed.

Lemma findEnclosedArea_result_witness :
  findEnclosedArea 4 doubledTriangle
  = Some (Some (mkEnclosed (12 # 2) ["a"; "b"; "c"; "d"]%string), 3%nat)
  /\ NoDup ["a"; "b"; "c"; "d"]%string
  /\ incl ["a"; "b"; "c"; "d"]%string (map id doubledTriangle).
Proof.
  assert (H : findEnclosedArea 4 doubledTriangle
              = Some (Some (mkEnclosed (12 # 2) ["a"; "b"; "c"; "d"]%string),
                      3%nat)) by reflexivity.
  split; [exact H | ].
  destruct (proj2 (findEnclosedArea_result 4 doubledTriangle) _ _ H)
    as (_ & Hnd & Hincl & _).
  split; [exact Hnd | exact Hincl].
Defined.

Lemma near_self (p : Point2D) : near p p = true.
Proof.
  unfold near, distance_lt, ltb, sqDistance. cbn [andb negb Qle_bool].
  apply negb_true_iff.
  destruct (Qle_bool _ _) eqn:E; [ | reflexivity].
  apply Qle_bool_iff in E. exfalso. revert E. apply Qlt_not_le.
  setoid_replace ((x p - x p) * (x p - x p) + (z p - z p) * (z p - z p))
    with 0 by ring.
  reflexivity.
Qed.

Lemma square_of_far (a : Q) :
  (1 # 10) <= a \/ (1 # 10) <= - a -> (1 # 10) * (1 # 10) <= a * a.
Proof.
  intros [H | H].
  - apply Qmult_le_compat_nonneg; split; try discriminate; exact H.
  - setoid_replace (a * a) with (- a * - a) by ring.
    apply Qmult_le_compat_nonneg; split; try discriminate; exact H.
Qed.

Lemma square_nonneg (a : Q) : 0 <= a * a.
Proof.
  destruct (Qlt_le_dec a 0) as [H | H].
  - setoid_replace (a * a) with (- a * - a) by ring.
    assert (0 <= - a).
    { apply Qlt_le_weak in H. apply Qopp_le_compat in H. exact H. }
    apply Qmult_le_0_compat; assumption.
  - apply Qmult_le_0_compat; assumption.
Qed.

Lemma near_far_x (p q : Point2D) :
  (1 # 10) <= x q - x p \/ (1 # 10) <= - (x q - x p) -> near p q = false.
Proof.
  intros H. apply square_of_far in H.
  unfold near, distance_lt, ltb, sqDistance. cbn [andb negb Qle_bool].
  apply negb_false_iff, Qle_bool_iff.
  eapply Qle_trans; [exact H | ].
  setoid_replace ((x q - x p) * (x q - x p)) with
    ((x q - x p) * (x q - x p) + 0) at 1 by ring.
  apply Qplus_le_r, square_nonneg.
Qed.

Lemma near_far_z (p q : Point2D) :
  (1 # 10) <= z q - z p \/ (1 # 10) <= - (z q - z p) -> near p q = false.
Proof.
  intros H. apply square_of_far in H.
  unfold near, distance_lt, ltb, sqDistance. cbn [andb negb Qle_bool].
  apply negb_false_iff, Qle_bool_iff.
  eapply Qle_trans; [exact H | ].
  setoid_replace ((z q - z p) * (z q - z p)) with
    (0 + (z q - z p) * (z q - z p)) at 1 by ring.
  apply Qplus_le_l, square_nonneg.
Qed.

Lemma rectangle_not_enclosed (i0 i1 i2 i3 : string) (a b c d : Q) (n : nat) :
  NoDup [i0; i1; i2; i3] ->
  a + (1 # 10) <= b -> c + (1 # 10) <= d ->
  findEnclosedArea (3 + n)
    [mkWall i0 (mkPoint a c) (mkPoint b c);
     mkWall i1 (mkPoint b c) (mkPoint b d);
     mkWall i2 (mkPoint b d) (mkPoint a d);
     mkWall i3 (mkPoint a d) (mkPoint a c)]
  = Some (None, 3%nat).
Proof.
  intros Hnd Hx Hz.
  assert (Hids : i0 <> i1 /\ i0 <> i2 /\ i0 <> i3
                 /\ i1 <> i2 /\ i1 <> i3 /\ i2 <> i3).
  { inversion Hnd as [|? ? H0 Hnd1]; subst.
    inversion Hnd1 as [|? ? H1 Hnd2]; subst.
    inversion Hnd2 as [|? ? H2 _]; subst.
    cbn in H0, H1, H2. intuition congruence. }
  destruct Hids as (H01 & H02 & H03 & H12 & H13 & H23).
  assert (Hdx : (1 # 10) <= b - a)
    by (setoid_replace (1 # 10) with (a + (1 # 10) - a) by ring;
        apply Qplus_le_l, Hx).
  assert (Hdz : (1 # 10) <= d - c)
    by (setoid_replace (1 # 10) with (c + (1 # 10) - c) by ring;
        apply Qplus_le_l, Hz).
  assert (Hdx' : (1 # 10) <= - (a - b))
    by (setoid_replace (- (a - b)) with (b - a) by ring; exact Hdx).
  assert (Hdz' : (1 # 10) <= - (c - d))
    by (setoid_replace (- (c - d)) with (d - c) by ring; exact Hdz).
  set (A := mkPoint a c). set (B := mkPoint b c).
  set (C := mkPoint b d). set (D := mkPoint a d).
  assert (HAB : near A B = false) by (apply near_far_x; left; exact Hdx).
  assert (HAC : near A C = false) by (apply near_far_x; left; exact Hdx).
  assert (HAD : near A D = false) by (apply near_far_z; left; exact Hdz).
  assert (HDB : near D B = false) by (apply near_far_x; left; exact Hdx).
  assert (HDC : near D C = false) by (apply near_far_x; left; exact Hdx).
  assert (HCB : near C B = false) by (apply near_far_z; right; exact Hdz').
  assert (HBA : near B A = false) by (apply near_far_x; right; exact Hdx').
  pose proof (near_self A) as HAA. pose proof (near_self B) as HBB.
  pose proof (near_self C) as HCC. pose proof (near_self D) as HDD.
  set (walls := [mkWall i0 A B; mkWall i1 B C; mkWall i2 C D; mkWall i3 D A]).
  assert (S1 : step walls (mkWalk [A] [i0] [i0] A)
               = Some (mkWalk [A; D] [i0; i3] [i0; i3] D)).
  { unfold step, walls, has, add; cbn -[near string_dec A B C D];
    repeat (first
              [ progress rewrite ?HAA, ?HAB, ?HAC, ?HAD, ?HBB, ?HCC, ?HDD,
                  ?HDB, ?HDC, ?HCB, ?HBA
              | match goal with
                | |- context [string_dec ?u ?v] =>
                    destruct (string_dec u v);
                    [try congruence | try congruence]
                end ];
            cbn -[near string_dec A B C D]);
    reflexivity. }
  assert (S2 : step walls (mkWalk [A; D] [i0; i3] [i0; i3] D)
               = Some (mkWalk [A; D; C] [i0; i3; i2] [i0; i3; i2] C)).
  { unfold step, walls, has, add; cbn -[near string_dec A B C D];
    repeat (first
              [ progress rewrite ?HAA, ?HAB, ?HAC, ?HAD, ?HBB, ?HCC, ?HDD,
                  ?HDB, ?HDC, ?HCB, ?HBA
              | match goal with
                | |- context [string_dec ?u ?v] =>
                    destruct (string_dec u v);
                    [try congruence | try congruence]
                end ];
            cbn -[near string_dec A B C D]);
    reflexivity. }
  assert (S3 : step walls (mkWalk [A; D; C] [i0; i3; i2] [i0; i3; i2] C)
               = Some (mkWalk [A; D; C; B] [i0; i3; i2; i1]
                              [i0; i3; i2; i1] B)).
  { unfold step, walls, has, add; cbn -[near string_dec A B C D];
    repeat (first
              [ progress rewrite ?HAA, ?HAB, ?HAC, ?HAD, ?HBB, ?HCC, ?HDD,
                  ?HDB, ?HDC, ?HCB, ?HBA
              | match goal with
                | |- context [string_dec ?u ?v] =>
                    destruct (string_dec u v);
                    [try congruence | try congruence]
                end ];
            cbn -[near string_dec A B C D]);
    reflexivity. }
  change (findEnclosedArea (3 + n) walls
          = Some (None, 3%nat))
    with (match walk (S (S (S n))) walls (mkWalk [A] [i0] [i0] A) with
          | None => None
          | Some (w, k) =>
              if (3 <=? List.length (points w))%nat
                 && near (nth 0 (points w) origin)
                         (nth (List.length (points w) - 1) (points w) origin)
              then Some (Some (mkEnclosed (calculatePolygonArea (points w))
                                          (wallIds w)), k)
              else Some (None, k)
          end = Some (None, 3%nat)).
  assert (W : walk (S (S (S n))) walls (mkWalk [A] [i0] [i0] A)
              = Some (mkWalk [A; D; C; B] [i0; i3; i2; i1]
                             [i0; i3; i2; i1] B, 3%nat)).
  { cbn [walk]. cbn [usedWalls size List.length Nat.leb walls].
    fold walls. rewrite S1.
    cbn [usedWalls size List.length Nat.leb walls]. fold walls. rewrite S2.
    cbn [usedWalls size List.length Nat.leb walls]. fold walls. rewrite S3.
    destruct n; reflexivity. }
  rewrite W. cbn [points List.length Nat.leb nth Nat.sub andb].
  rewrite HAB. reflexivity.
Qed.

Lemma far_apart (u v : Q) :
  (1 # 10) <= Math_abs (v - u) -> Math_min u v + (1 # 10) <= Math_max u v.
Proof.
  unfold Math_abs, Math_min, Math_max. intros H.
  destruct (max_minus_min u v) as [_ Heq].
  assert (H' : (1 # 10) <= Qmax u v - Qmin u v)
    by (eapply Qle_trans; [exact H | rewrite Heq; apply Qle_refl]).
  apply (Qplus_le_l _ _ (- Qmin u v)).
  setoid_replace (Qmin u v + (1 # 10) + - Qmin u v) with (1 # 10) by ring.
  exact H'.
Qed.

(** X23.  [findEnclosedArea] does not find the rooms that the rectangle
    tool draws.  On the four walls [createRectangularRoom] produces on an
    empty drawing, with sides of at least 0.1 m and four different
    identifiers, the walk starts at the start of the first wall, goes
    round through the other three walls and stops at the far end of the
    first wall, one side away from the first point: the result is null,
    after three turns. *)
Theorem findEnclosedArea_misses_rectangles (newId : nat -> string)
  (s e : Point2D) (st : Designer.State) (n : nat) :
  Designer.walls st = [] ->
  NoDup (map newId (seq 0 4)) ->
  (1 # 10) <= Math_abs (x e - x s) ->
  (1 # 10) <= Math_abs (z e - z s) ->
  findEnclosedArea (3 + n)
    (map roomWall
         (Designer.walls (Designer.createRectangularRoom newId s e st)))
  = Some (None, 3%nat).
Proof.
  intros Hempty Hnd Hx Hz.
  rewrite createRectangularRoom_walls, Hempty.
  apply (rectangle_not_enclosed (newId 0%nat) (newId 1%nat) (newId 2%nat)
           (newId 3%nat) _ _ _ _ n Hnd
           (far_apart _ _ Hx) (far_apart _ _ Hz)).
Qed.

Lemma findEnclosedArea_misses_rectangles_witness :
  findEnclosedArea 4
    (map roomWall
         (Designer.walls
            (Designer.createRectangularRoom drawnIds origin (mkPoint 4 3)
               emptyStart)))
  = Some (None, 3%nat).
Proof.
  apply (findEnclosedArea_misses_rectangles drawnIds origin (mkPoint 4 3)
           emptyStart 1).
  - reflexivity.
  - repeat constructor; cbn; intuition discriminate.
  - vm_compute. discriminate.
  - vm_compute. discriminate.
Defined.

End RoomFacts.

(** ** The outline of the roof *)

Section RoofFacts.
Import RoofMesh.

Lemma highest_fold (l : list Builder.Floor) (m : Builder.Floor) :
  let top :=
    fold_left (fun max floor =>
                 if (Builder.level max <? Builder.level floor)%Z
                 then floor else max) l m in
  (top = m \/ In top l)
  /\ (Builder.level m <= Builder.level top)%Z
  /\ (forall f, In f l -> (Builder.level f <= Builder.level top)%Z).
Proof.
  revert m; induction l as [|a l IH]; intros m; cbn [fold_left].
  - split; [left; reflexivity | split; [lia | intros f []]].
  - cbv zeta in *.
    destruct (Builder.level m <? Builder.level a)%Z eqn:E.
    + apply Z.ltb_lt in E. destruct (IH a) as (Hin & Hm & Hall).
      split; [right; destruct Hin as [-> | Hin];
                [left; reflexivity | right; exact Hin] | ].
      split; [lia | ].
      intros f [<- | Hf]; [exact Hm | apply Hall, Hf].
    + apply Z.ltb_ge in E. destruct (IH m) as (Hin & Hm & Hall).
      split; [destruct Hin as [Hin | Hin]; [left | right; right]; exact Hin | ].
      split; [exact Hm | ].
      intros f [<- | Hf]; [lia | apply Hall, Hf].
Qed.

Lemma highestFloor_spec (floors : list Builder.Floor) (top : Builder.Floor) :
  highestFloor floors = Some top ->
  In top floors
  /\ forall f, In f floors -> (Builder.level f <= Builder.level top)%Z.
Proof.
  unfold highestFloor. destruct floors as [|first rest]; [discriminate | ].
  intros H; injection H as <-.
  destruct (highest_fold (first :: rest) first) as (Hin & _ & Hall).
  split; [ | exact Hall].
  destruct Hin as [Hin | Hin]; [left; symmetry; exact Hin | exact Hin].
Qed.

Lemma findConnection_points (P : Point2D -> Prop) (segments : list Segment)
  (w w' : Walk) :
  (forall segment, In segment segments ->
                   P (start segment) /\ P (end_ segment)) ->
  findConnection 0 segments w = Some w' ->
  Forall P (orderedPoints w) ->
  Forall P (orderedPoints w')
  /\ List.length (orderedPoints w') = S (List.length (orderedPoints w)).
Proof.
  intros HP H Hw.
  destruct (findConnection_from _ _ _ _ H) as (k & segment & Hn & _ & _ & Ho).
  apply nth_error_In in Hn. destruct (HP _ Hn) as [Hs He].
  destruct Ho as [[-> _] | [-> _]]; rewrite length_app; cbn [List.length];
    (split; [apply Forall_app; split; [exact Hw | repeat constructor; assumption]
            | lia]).
Qed.

Lemma walk_points (P : Point2D -> Prop) (segments : list Segment)
  (fuel : nat) (w w' : Walk) (k : nat) :
  (forall segment, In segment segments ->
                   P (start segment) /\ P (end_ segment)) ->
  walk fuel segments w = Some (w', k) ->
  Forall P (orderedPoints w) ->
  Forall P (orderedPoints w')
  /\ (List.length (orderedPoints w) <= List.length (orderedPoints w'))%nat.
Proof.
  intros HP. revert w k; induction fuel as [|fuel IH]; intros w k; simpl;
    destruct (List.length segments <=? size (usedSegments w))%nat;
    try discriminate;
    try (intros H; injection H as <- _; intros Hw; split; [exact Hw | lia]).
  destruct (findConnection 0 segments w) as [w1|] eqn:F.
  - destruct (walk fuel segments w1) as [[w2 k2]|] eqn:W; [ | discriminate].
    intros H; injection H as <- _. intros Hw.
    destruct (findConnection_points P _ _ _ HP F Hw) as [H1 Hl1].
    destruct (IH _ _ W H1) as [H2 Hl2].
    split; [exact H2 | lia].
  - intros H; injection H as <- _. intros Hw. split; [exact Hw | lia].
Qed.

Lemma withinOverhang_member (pts : list Point2D) (p : Point2D) :
  In p pts -> withinOverhang pts p.
Proof.
  intros H. exists p, p. split; [exact H | split; [exact H | ] ].
  split.
  - rewrite (Qabs_wd (x p - x p) 0) by ring. discriminate.
  - rewrite (Qabs_wd (z p - z p) 0) by ring. discriminate.
Qed.

Lemma Qabs_overhang (u v : Q) :
  u == v -> Qabs (u - overhang - v) <= overhang
            /\ Qabs (u + overhang - v) <= overhang.
Proof.
  intros H. split.
  - rewrite (Qabs_wd (u - overhang - v) (- overhang))
      by (rewrite H; ring).
    vm_compute. discriminate.
  - rewrite (Qabs_wd (u + overhang - v) overhang)
      by (rewrite H; ring).
    vm_compute. discriminate.
Qed.

Lemma attained_point (f : Point2D -> Q) (first : Point2D)
  (others : list Point2D) (y : Q) :
  In y (f first :: map f others) ->
  exists q, In q (first :: others) /\ y = f q.
Proof.
  intros [<- | H].
  - exists first. split; [left; reflexivity | reflexivity].
  - apply in_map_iff in H. destruct H as (q & <- & Hq).
    exists q. split; [right; exact Hq | reflexivity].
Qed.

Lemma box_withinOverhang (first : Point2D) (others : list Point2D) :
  let minX := Math_min_list (x first) (map x others) in
  let maxX := Math_max_list (x first) (map x others) in
  let minZ := Math_min_list (z first) (map z others) in
  let maxZ := Math_max_list (z first) (map z others) in
  Forall (withinOverhang (first :: others))
    [mkPoint (minX - overhang) (minZ - overhang);
     mkPoint (maxX + overhang) (minZ - overhang);
     mkPoint (maxX + overhang) (maxZ + overhang);
     mkPoint (minX - overhang) (maxZ + overhang)].
Proof.
  intros minX maxX minZ maxZ.
  destruct (Math_min_list_attained (map x others) (x first)) as (y1 & H1 & E1).
  destruct (Math_max_list_attained (map x others) (x first)) as (y2 & H2 & E2).
  destruct (Math_min_list_attained (map z others) (z first)) as (y3 & H3 & E3).
  destruct (Math_max_list_attained (map z others) (z first)) as (y4 & H4 & E4).
  apply attained_point in H1, H2, H3, H4.
  destruct H1 as (q1 & Hq1 & ->). destruct H2 as (q2 & Hq2 & ->).
  destruct H3 as (q3 & Hq3 & ->). destruct H4 as (q4 & Hq4 & ->).
  fold minX in E1. fold maxX in E2. fold minZ in E3. fold maxZ in E4.
  repeat (apply Forall_cons; [ | ]); [ | | | | apply Forall_nil].
  - exists q1, q3. cbn [x z].
    repeat split; try assumption; apply Qabs_overhang; assumption.
  - exists q2, q3. cbn [x z].
    repeat split; try assumption; apply Qabs_overhang; assumption.
  - exists q2, q4. cbn [x z].
    repeat split; try assumption; apply Qabs_overhang; assumption.
  - exists q1, q4. cbn [x z].
    repeat split; try assumption; apply Qabs_overhang; assumption.
Qed.

(** X24.  The outline that [RoofMesh] computes.  The highest floor is a
    floor of the greatest level.  With no walls on it there is no roof
    and the building height is 0.  Otherwise the outline has at least
    three points, each of them at most the 0.3 m overhang away, in each
    coordinate, from an end point of a wall of the highest floor: it is
    the traced perimeter, made of wall end points, or, when the trace
    has fewer than three points, the four corners of the bounding box of
    the wall end points pushed out by the overhang.  The building height
    is the sum of the floor heights. *)
Theorem roof_outline (fuel : nat) (floorPlan : Builder.FloorPlan) :
  (List.length (topFloorWalls floorPlan) <= fuel)%nat ->
  (forall top, highestFloor (Builder.floors floorPlan) = Some top ->
               In top (Builder.floors floorPlan)
               /\ forall f, In f (Builder.floors floorPlan) ->
                            (Builder.level f <= Builder.level top)%Z)
  /\ (topFloorWalls floorPlan = [] ->
      roofGeometry fuel floorPlan = Some (None, 0))
  /\ (topFloorWalls floorPlan <> [] ->
      exists (g : RoofGeometry) (totalHeight : number),
        roofGeometry fuel floorPlan = Some (Some g, totalHeight)
        /\ totalHeight
           == sumQ (map Builder.floor_height (Builder.floors floorPlan))
        /\ wallPoints g = wallEnds (topFloorWalls floorPlan)
        /\ (3 <= List.length (points g))%nat
        /\ Forall (withinOverhang (wallPoints g)) (points g)).
Proof.
  intros Hfuel.
  split; [apply highestFloor_spec | ].
  unfold roofGeometry. fold (topFloorWalls floorPlan).
  split.
  - intros ->. reflexivity.
  - intros Hne. cbv zeta.
    destruct (topFloorWalls floorPlan) as [|wall walls] eqn:E;
      [contradiction | ].
    rewrite <- E in *. 
    assert (Hlen : (List.length (topFloorWalls floorPlan) =? 0)%nat = false)
      by (rewrite E; reflexivity).
    rewrite Hlen.
    fold (wallEnds (topFloorWalls floorPlan)).
    set (segments := map (fun wall0 => mkSegment (Builder.start wall0)
                                                   (Builder.end_ wall0))
                         (topFloorWalls floorPlan)).
    assert (Hends : forall segment, In segment segments ->
                      In (start segment) (wallEnds (topFloorWalls floorPlan))
                      /\ In (end_ segment) (wallEnds (topFloorWalls floorPlan))).
    { intros segment Hin. apply in_map_iff in Hin.
      destruct Hin as (w0 & <- & Hw0). cbn [start end_].
      split; apply in_flat_map; exists w0;
        (split; [exact Hw0 | cbn; auto]). }
    destruct (wallEnds (topFloorWalls floorPlan)) as [|first others] eqn:Ew;
      [rewrite E in Ew; discriminate | ].
    rewrite <- Ew in Hends.
    unfold tracePerimeter.
    destruct segments as [|seg0 rest] eqn:Es;
      [unfold segments in Es; rewrite E in Es; discriminate | ].
    rewrite <- Es in *.
    destruct (walk_terminates segments fuel
                (mkWalk [start seg0; end_ seg0] (add 0 []) (end_ seg0)))
      as (w' & k & Hw & _ & _).
    { unfold segments. rewrite length_map. lia. }
    rewrite Hw.
    eexists. eexists. split; [reflexivity | ].
    split; [rewrite fold_left_sumQ; ring | ].
    cbn [wallPoints points]. split; [reflexivity | ].
    destruct (walk_points (fun p => In p (wallEnds (topFloorWalls floorPlan)))
                segments fuel _ _ _ Hends Hw) as [Hpts Hl].
    { cbn [orderedPoints].
      assert (Hin0 : In seg0 segments) by (rewrite Es; left; reflexivity).
      destruct (Hends _ Hin0). repeat constructor; assumption. }
    destruct (List.length (orderedPoints w') <? 3)%nat eqn:L3.
    + split; [simpl; lia | ]. apply box_withinOverhang.
    + apply Nat.ltb_ge in L3. split; [exact L3 | ].
      rewrite <- Ew. eapply Forall_impl; [ | exact Hpts].
      intros p. apply withinOverhang_member.
Qed.

Lemma roof_outline_witness :
  exists (g : RoofGeometry) (totalHeight : number),
    roofGeometry 1 oneWallPlan = Some (Some g, totalHeight)
    /\ totalHeight
       == sumQ (map Builder.floor_height (Builder.floors oneWallPlan))
    /\ wallPoints g = wallEnds (topFloorWalls oneWallPlan)
    /\ (3 <= List.length (points g))%nat
    /\ Forall (withinOverhang (wallPoints g)) (points g).
Proof.
  apply (roof_outline 1 oneWallPlan).
  - vm_compute. lia.
  - discriminate.
Defined.

(** One wall gives no perimeter: the roof is the box round the wall,
    0.3 m wider on every side. *)
Example roof_over_one_wall :
  option_map (fun r => option_map points (fst r)) (roofGeometry 1 oneWallPlan)
  = Some (Some [mkPoint (0 - overhang) (0 - overhang);
                mkPoint (4 + overhang) (0 - overhang);
                mkPoint (4 + overhang) (0 + overhang);
                mkPoint (0 - overhang) (0 + overhang)]).
Proof. reflexivity. Qed.

End RoofFacts.
